(** * SCP detector (src/modules/scp-detector.js): shallow embedding and properties

    The module recognises SCP identifiers in link targets and prose,
    normalises them, classifies the page, deduplicates mentions and keeps a
    controller state current.  This file embeds the functions of
    [scp-detector.js] and proves (or refutes) the properties stated about
    them.

    Layout: strings and the regular-expression matcher; the pure helpers
    ([unifyDashes], [normalizeIdentifier], [classifyPage], [dedupeEntities],
    the two scanners); the controller ([createDetector] and its closures)
    over an explicit store with exceptions; a host and a page for worked
    examples; then the properties, numbered C1 to C10 as in the
    specification's list of claims, and further properties of the module,
    numbered X1 to X25.

    [debounce] is embedded over the timers of the host.  In the controller
    its one use, [scheduleCompute], is kept as the flag [timer], which says
    whether the timer of the debounced compute is pending.  The constant
    [version] of the state and of the returned API is left out. *)

From Stdlib Require Import NArith ZArith QArith String Ascii.
From stdpp Require Import base option list gmap.
Close Scope Q_scope.
Open Scope N_scope.

(** ** Strings

    A JavaScript string is a sequence of UTF-16 code units. *)

Definition char := N.
Definition jsstring := list char.

(** ASCII literals of the source, as code units. *)
Definition str (s : string) : jsstring :=
  List.map N_of_ascii (list_ascii_of_string s).

Definition chr (a : ascii) : char := N_of_ascii a.

(** U+2588 FULL BLOCK, the character of the redaction token. *)
Definition BLOCK : char := 9608.
Definition REDACTED : jsstring := [BLOCK; BLOCK; BLOCK; BLOCK].

Definition in_range (lo hi c : char) : bool := (lo <=? c) && (c <=? hi).

Definition is_digit (c : char) : bool := in_range 48 57 c.
Definition is_upper (c : char) : bool := in_range 65 90 c.
Definition is_lower (c : char) : bool := in_range 97 122 c.
Definition is_alnum (c : char) : bool := is_digit c || is_upper c || is_lower c.
Definition is_lower_alnum (c : char) : bool := is_digit c || is_lower c.

(** [\w] of a RegExp without the [u] flag: [[A-Za-z0-9_]]. *)
Definition is_word_char (c : char) : bool := is_alnum c || (c =? 95).

(** WhiteSpace and LineTerminator of ECMAScript: the set of [\s] and of
    [String.prototype.trim]. *)
Definition is_space (c : char) : bool :=
  in_range 9 13 c || (c =? 32) || (c =? 160) || (c =? 5760)
  || in_range 8192 8202 c || (c =? 8232) || (c =? 8233) || (c =? 8239)
  || (c =? 8287) || (c =? 12288) || (c =? 65279).

(** [DASH_CLASS]: U+2010 .. U+2015 and the ASCII hyphen. *)
Definition DASH_CLASS : jsstring := [8208; 8209; 8210; 8211; 8212; 8213; 45].

Definition char_in (cs : jsstring) (c : char) : bool :=
  existsb (N.eqb c) cs.

Definition ascii_upper (c : char) : char := if is_lower c then c - 32 else c.
Definition ascii_lower (c : char) : char := if is_upper c then c + 32 else c.

(** Case-insensitive comparison with an ASCII pattern character [p] under the
    [i] flag (no [u] flag).  ECMAScript's Canonicalize maps a code unit
    through toUpperCase but leaves it alone when that would take a code unit
    at or above 128 below 128, so only ASCII code units are canonically equal
    to an ASCII letter. *)
Definition ci_eq (p c : char) : bool :=
  (c <? 128) && (ascii_upper c =? ascii_upper p).

Definition jsstring_eqb (a b : jsstring) : bool := bool_decide (a = b).

(** Truthiness of a string: the empty string is falsy. *)
Definition truthy (s : jsstring) : bool :=
  match s with [] => false | _ => true end.

(** [a || b] on strings. *)
Definition or_else (a b : jsstring) : jsstring := if truthy a then a else b.

(** [String.prototype.trim]. *)
Fixpoint trim_start (s : jsstring) : jsstring :=
  match s with
  | c :: s' => if is_space c then trim_start s' else s
  | [] => []
  end.

Definition trim (s : jsstring) : jsstring :=
  rev (trim_start (rev (trim_start s))).

Definition substring (s : jsstring) (a b : nat) : jsstring :=
  take (b - a) (drop a s).

(** ** Regular expressions

    Patterns are kept as syntax and run by one backtracking matcher that
    follows the ECMAScript semantics of the constructs the source uses:
    greedy quantifiers, ordered alternation, capturing groups, [^], [\b] and
    lookahead. *)

Inductive regex :=
| REmpty
| RChar (p : char -> bool)
| RSeq (a b : regex)
| RAlt (a b : regex)
| RRep (lo : nat) (hi : option nat) (a : regex)
| RGroup (n : nat) (a : regex)
| RBol
| RWordB
| RLook (positive : bool) (a : regex).

(** Captures: group number to (start, end). *)
Definition caps := list (nat * (nat * nat)).
Definition mstate : Type := nat * caps.
Definition cont := nat -> caps -> option mstate.

Fixpoint groups_of (r : regex) : list nat :=
  match r with
  | REmpty | RChar _ | RBol | RWordB => []
  | RSeq a b | RAlt a b => groups_of a ++ groups_of b
  | RRep _ _ a | RLook _ a => groups_of a
  | RGroup n a => n :: groups_of a
  end.

Definition get_cap (n : nat) (c : caps) : option (nat * nat) :=
  snd <$> List.find (fun p => Nat.eqb (fst p) n) c.

Definition set_cap (n : nat) (v : nat * nat) (c : caps) : caps :=
  (n, v) :: List.filter (fun p => negb (Nat.eqb (fst p) n)) c.

Definition clear_caps (ns : list nat) (c : caps) : caps :=
  List.filter (fun p => negb (existsb (Nat.eqb (fst p)) ns)) c.

Section Matcher.
Variable s : jsstring.

Definition is_word_at (i : nat) : bool :=
  match s !! i with Some c => is_word_char c | None => false end.

Definition at_word_boundary (i : nat) : bool :=
  xorb (match i with O => false | S j => is_word_at j end) (is_word_at i).

(** RepeatMatcher: greedy; an iteration that matches the empty string
    once the minimum is reached is rejected; the captures of the body are
    reset at the start of each iteration. *)
Fixpoint repeat_matcher (m : nat -> caps -> cont -> option mstate)
    (reset : caps -> caps) (fuel lo : nat) (hi : option nat)
    (i : nat) (c : caps) (k : cont) {struct fuel} : option mstate :=
  match fuel with
  | O => None
  | S fuel' =>
    match hi with
    | Some O => k i c
    | _ =>
      let again :=
        m i (reset c) (fun j c' =>
          if Nat.eqb lo 0 && Nat.eqb j i then None
          else repeat_matcher m reset fuel' (Nat.pred lo) (Nat.pred <$> hi) j c' k) in
      if Nat.ltb 0 lo then again
      else match again with Some r => Some r | None => k i c end
    end
  end.

Fixpoint rmatch (r : regex) (i : nat) (c : caps) (k : cont) {struct r}
    : option mstate :=
  match r with
  | REmpty => k i c
  | RChar p =>
    match s !! i with
    | Some ch => if p ch then k (S i) c else None
    | None => None
    end
  | RSeq a b => rmatch a i c (fun j c' => rmatch b j c' k)
  | RAlt a b =>
    match rmatch a i c k with
    | Some r => Some r
    | None => rmatch b i c k
    end
  | RRep lo hi a =>
    repeat_matcher (rmatch a) (clear_caps (groups_of a))
      (lo + length s + 1) lo hi i c k
  | RGroup n a => rmatch a i c (fun j c' => k j (set_cap n (i, j) c'))
  | RBol => if Nat.eqb i 0 then k i c else None
  | RWordB => if at_word_boundary i then k i c else None
  | RLook positive a =>
    match rmatch a i c (fun j c' => Some (j, c')) with
    | Some (_, c') => if positive then k i c' else None
    | None => if positive then None else k i c
    end
  end.

Record MatchResult := {
  m_index : nat;
  m_end : nat;
  m_caps : caps;
}.

Definition match_at (r : regex) (i : nat) : option MatchResult :=
  match rmatch r i [] (fun j c => Some (j, c)) with
  | Some (j, c) => Some {| m_index := i; m_end := j; m_caps := c |}
  | None => None
  end.

(** Try the start positions [i], [i+1], ... up to the end of the input. *)
Fixpoint search (r : regex) (fuel i : nat) : option MatchResult :=
  match match_at r i with
  | Some m => Some m
  | None =>
    match fuel with
    | O => None
    | S fuel' => search r fuel' (S i)
    end
  end.

(** [RegExp.prototype.exec] from [lastIndex]. *)
Definition exec_from (r : regex) (lastIndex : nat) : option MatchResult :=
  if Nat.ltb (length s) lastIndex then None
  else search r (length s - lastIndex) lastIndex.

(** [m[n]] for a capturing group: [None] is [undefined]. *)
Definition group (m : MatchResult) (n : nat) : option jsstring :=
  (fun '(a, b) => substring s a b) <$> get_cap n (m_caps m).

(** [m[0]]. *)
Definition matched (m : MatchResult) : jsstring :=
  substring s (m_index m) (m_end m).
End Matcher.

Definition exec (r : regex) (s : jsstring) : option MatchResult :=
  exec_from s r 0.

Definition test (r : regex) (s : jsstring) : bool :=
  bool_decide (is_Some (exec r s)).

(** [s.replace(r, repl)] for a regex without the [g] flag. *)
Definition replace_first (r : regex) (repl s : jsstring) : jsstring :=
  match exec r s with
  | Some m => take (m_index m) s ++ repl ++ drop (m_end m) s
  | None => s
  end.

(** [s.replace(r, repl)] for a regex with the [g] flag: matches are found
    left to right from the end of the previous one; after an empty match
    the search moves on by one code unit. *)
Fixpoint replace_loop (r : regex) (repl s : jsstring) (fuel from : nat)
    : jsstring :=
  match fuel with
  | O => drop from s
  | S fuel' =>
    match exec_from s r from with
    | None => drop from s
    | Some m =>
      substring s from (m_index m) ++ repl ++
      (if Nat.eqb (m_end m) (m_index m)
       then substring s (m_end m) (S (m_end m)) ++
            replace_loop r repl s fuel' (S (m_end m))
       else replace_loop r repl s fuel' (m_end m))
    end
  end.

Definition replace_all (r : regex) (repl s : jsstring) : jsstring :=
  replace_loop r repl s (S (length s)) 0.

(** Pattern builders. *)
Definition rlit (s : jsstring) : regex :=
  foldr (fun c r => RSeq (RChar (N.eqb c)) r) REmpty s.
Definition rlit_i (s : jsstring) : regex :=
  foldr (fun c r => RSeq (RChar (ci_eq c)) r) REmpty s.
Definition rstar (a : regex) : regex := RRep 0 None a.
Definition rplus (a : regex) : regex := RRep 1 None a.
Definition ropt (a : regex) : regex := RRep 0 (Some 1%nat) a.
Fixpoint rseq (rs : list regex) : regex :=
  match rs with
  | [] => REmpty
  | [r] => r
  | r :: rs' => RSeq r (rseq rs')
  end.

(** ** Host functions

    What the JavaScript engine and the browser supply and the module only
    calls.  [String.prototype.toLowerCase] and [toUpperCase] follow the
    Unicode case mappings, of which only the action on ASCII strings is
    fixed here; [URL_new href base] is [new URL(href, base)], with [None]
    for the [TypeError] of an unparsable input. *)

Record URLObj := {
  hostname : jsstring;
  pathname : jsstring;
  href : jsstring;
}.

Definition is_ascii (c : char) : Prop := c < 128.

Class Host := {
  toLowerCase : jsstring -> jsstring;
  toUpperCase : jsstring -> jsstring;
  URL_new : jsstring -> jsstring -> option URLObj;
  toLowerCase_ascii :
    forall s, Forall is_ascii s -> toLowerCase s = ascii_lower <$> s;
  toUpperCase_ascii :
    forall s, Forall is_ascii s -> toUpperCase s = ascii_upper <$> s;
}.

(** Exceptions are opaque values. *)
Definition exn := nat.

Inductive Res (A : Type) :=
| Ok (a : A)
| Throw (e : exn).
Arguments Ok {A} a.
Arguments Throw {A} e.

(** [safeURL]: the constructor's exception becomes [null]. *)
Definition safeURL `{Host} (href base : jsstring) : option URLObj :=
  URL_new href base.

(** ** unifyDashes and normalizeIdentifier *)

(** Source: new RegExp of "[${DASH_CLASS}]" with flag g. *)
Definition RE_DASH : regex := RChar (char_in DASH_CLASS).

Definition unifyDashes (text : jsstring) : jsstring :=
  if negb (truthy text) then text
  else replace_all RE_DASH (str "-") text.

(** Source pattern: "/\s*-\s*/g" *)
Definition RE_SPACED_HYPHEN : regex :=
  rseq [rstar (RChar is_space); rlit (str "-"); rstar (RChar is_space)].

(** Source pattern: "/^(?:SCP)\s*-?\s*((?:[0-9]{1,4})|(?:████))(?:-([0-9A-Za-z]+))?/i" *)
Definition RE_IDENT : regex :=
  rseq [RBol; rlit_i (str "SCP"); rstar (RChar is_space);
        ropt (rlit (str "-")); rstar (RChar is_space);
        RGroup 1 (RAlt (RRep 1 (Some 4%nat) (RChar is_digit)) (rlit REDACTED));
        ropt (RSeq (rlit (str "-")) (RGroup 2 (rplus (RChar is_alnum))))].

(** Source pattern: "/^0+(?=\d)/" *)
Definition RE_LEADING_ZEROS : regex :=
  rseq [RBol; rplus (RChar (N.eqb 48)); RLook true (RChar is_digit)].

(** Source pattern: "/^scp-/" *)
Definition RE_SCP_PREFIX : regex := RSeq RBol (rlit (str "scp-")).

(** Source pattern: "/^(?:scp-)?001\b/i" *)
Definition RE_001 : regex :=
  rseq [RBol; ropt (rlit_i (str "scp-")); rlit_i (str "001"); RWordB].

(** Source pattern: "/-(?:j|ex|arc|d)\b/" *)
Definition RE_VARIANT : regex :=
  rseq [rlit (str "-");
        RAlt (rlit (str "j")) (RAlt (rlit (str "ex"))
          (RAlt (rlit (str "arc")) (rlit (str "d"))));
        RWordB].

Inductive Kind := scp | scp_variant | proposal_or_article.

Record Normalized := {
  n_id : jsstring;
  n_kind : Kind;
}.

(** [m[1]] always takes part in a match of [RE_IDENT]; [m[2] || ''] is the
    empty string when the suffix group did not. *)
Definition normalizeIdentifier `{Host} (raw : jsstring) : option Normalized :=
  if negb (truthy raw) then None
  else
    let s := trim raw in
    let s := unifyDashes s in
    let s := replace_all RE_SPACED_HYPHEN (str "-") s in
    match exec RE_IDENT s with
    | None => None
    | Some m =>
      let base := default [] (group s m 1) in
      let rest := default [] (group s m 2) in
      let id :=
        if jsstring_eqb base REDACTED then str "scp-unknown"
        else str "scp-" ++ or_else (replace_first RE_LEADING_ZEROS [] base) (str "0") in
      let id := if truthy rest then id ++ str "-" ++ toLowerCase rest else id in
      let kind := scp in
      let kind :=
        if test RE_001 (replace_first RE_SCP_PREFIX (str "scp-") id)
        then proposal_or_article else kind in
      let kind := if test RE_VARIANT id then scp_variant else kind in
      Some {| n_id := id; n_kind := kind |}
    end.

(** ** Configuration *)

Record SiteInfo := {
  site : jsstring;
  locale : jsstring;
}.

Definition scp_wiki (loc : string) : SiteInfo :=
  {| site := str "scp-wiki"; locale := str loc |}.

Definition DEFAULT_DOMAIN_MAP : gmap jsstring SiteInfo :=
  list_to_map [
    (str "scp-wiki.wikidot.com", scp_wiki "en");
    (str "www.scp-wiki.wikidot.com", scp_wiki "en");
    (str "scpwiki.com", scp_wiki "en");
    (str "www.scpwiki.com", scp_wiki "en");
    (str "scp-wiki-cn.wikidot.com", scp_wiki "zh-cn");
    (str "scp-ru.wikidot.com", scp_wiki "ru");
    (str "scpko.wikidot.com", scp_wiki "ko");
    (str "scp-th.wikidot.com", scp_wiki "th");
    (str "scp-pl.wikidot.com", scp_wiki "pl");
    (str "scp-jp.wikidot.com", scp_wiki "ja");
    (str "scp-es.com", scp_wiki "es")
  ].

(** [Array.prototype.join]. *)
Fixpoint join (sep : jsstring) (parts : list jsstring) : jsstring :=
  match parts with
  | [] => []
  | [p] => p
  | p :: rest => p ++ sep ++ join sep rest
  end.

(** U+0022 QUOTATION MARK. *)
Definition QUOTE : char := 34.

Definition DEFAULT_EXCLUDE_SELECTOR : jsstring :=
  join (str ",") ((str <$> [
    "script"; "style"; "pre"; "code"; "textarea"; "input"; "select"; "button"
  ]%string) ++ [
    str "[contenteditable=" ++ [QUOTE] ++ str "true" ++ [QUOTE] ++ str "]";
    str "[data-scp-detector-exclude]"
  ]).

Definition DEFAULT_INCLUDE_SELECTOR : jsstring :=
  join (str ",") (str <$> [
    "a[href]";
    "p"; "li"; "span"; "div"; "h1"; "h2"; "h3"; "h4"; "h5"; "h6";
    "blockquote"; "strong"; "em"; "small"; "figcaption"; "caption"; "td"; "th"
  ]%string).

(** The recognised options.  [allowedDomains] is [null] or an array;
    [autostart] is absent from the defaults ([None] is [undefined]). *)
Record Config := {
  observe : bool;
  debounceMs : Z;
  includeSelectors : jsstring;
  excludeSelectors : jsstring;
  domainMap : gmap jsstring SiteInfo;
  allowedDomains : option (list jsstring);
  strict : bool;
  maxNodes : Z;
  scanIframes : bool;
  allowAllDomains : bool;
  autostart : option bool;
}.

Definition DEFAULT_CONFIG : Config := {|
  observe := true;
  debounceMs := 120;
  includeSelectors := DEFAULT_INCLUDE_SELECTOR;
  excludeSelectors := DEFAULT_EXCLUDE_SELECTOR;
  domainMap := DEFAULT_DOMAIN_MAP;
  allowedDomains := None;
  strict := false;
  maxNodes := 5000;
  scanIframes := false;
  allowAllDomains := true;
  autostart := None;
|}.

(** ** classifyPage *)

Inductive PageType :=
| scp_article | proposal_or_index | series | hub | tale | non_scp | unknown.

(** [confidence] is one of the decimal literals of the source; no arithmetic
    is done on it, so the literal is kept as the rational it denotes. *)
Record PageClassification := {
  p_type : PageType;
  p_site : jsstring;
  p_locale : jsstring;
  p_canonicalUrl : jsstring;
  p_confidence : Q;
}.

(** Source pattern: "/\/(?:scp-)?\d{1,4}(?:-[a-z0-9]+)*/" *)
Definition RE_SCP_PATH : regex :=
  rseq [rlit (str "/"); ropt (rlit (str "scp-"));
        RRep 1 (Some 4%nat) (RChar is_digit);
        rstar (RSeq (rlit (str "-")) (rplus (RChar is_lower_alnum)))].

(** Source pattern: "/\/scp-?001(?!\d)/" *)
Definition RE_SCP001_PATH : regex :=
  rseq [rlit (str "/scp"); ropt (rlit (str "-")); rlit (str "001");
        RLook false (RChar is_digit)].

(** Source pattern: "/\bscp-\d{1,4}\b/" *)
Definition RE_TITLE_SCP : regex :=
  rseq [RWordB; rlit (str "scp-"); RRep 1 (Some 4%nat) (RChar is_digit); RWordB].

(** Source patterns: "/\bseries\b/", "/\bhub\b/", "/\btale\b/" *)
Definition RE_WORD (w : string) : regex := rseq [RWordB; rlit (str w); RWordB].

(** Source pattern: "/series [ivx]+/i" *)
Definition RE_SERIES_TITLE : regex :=
  RSeq (rlit_i (str "series "))
       (rplus (RChar (fun c => existsb (fun p => ci_eq p c) (str "ivx")))).

(** Source patterns: "/hub/i", "/tale/i" *)
Definition RE_ANY_CASE (w : string) : regex := rlit_i (str w).

(** [DEFAULT_CONFIG.domainMap[hostname]?.site || 'unknown'].  The map is a
    plain object literal; an inherited property such as [constructor] has
    no [site] or [locale], so it reads as an absent entry. *)
Definition lookup_site (m : gmap jsstring SiteInfo) (h : jsstring) : jsstring :=
  match m !! h with
  | Some i => or_else (site i) (str "unknown")
  | None => str "unknown"
  end.

Definition lookup_locale (m : gmap jsstring SiteInfo) (h : jsstring) : jsstring :=
  match m !! h with
  | Some i => or_else (locale i) (str "unknown")
  | None => str "unknown"
  end.

Definition NO_URL : URLObj :=
  {| hostname := []; pathname := str "/"; href := [] |}.

Definition classifyPage `{Host} (urlObj : option URLObj)
    (documentTitle : option jsstring) : PageClassification :=
  let url := default NO_URL urlObj in
  let hostname := toLowerCase (or_else (hostname url) []) in
  let pathname := toLowerCase (or_else (pathname url) (str "/")) in
  let site := lookup_site (domainMap DEFAULT_CONFIG) hostname in
  let locale := lookup_locale (domainMap DEFAULT_CONFIG) hostname in
  let title := toLowerCase (or_else (default [] documentTitle) []) in
  let isSCPPath := test RE_SCP_PATH pathname in
  let isSCP001 := test RE_SCP001_PATH pathname in
  let looksLikeArticle := isSCPPath || test RE_TITLE_SCP title in
  let '(type, confidence) :=
    if isSCP001 then (proposal_or_index, (6 # 10)%Q)
    else if looksLikeArticle then
      (scp_article, if isSCPPath then (9 # 10)%Q else (6 # 10)%Q)
    else if test (RE_WORD "series") pathname || test RE_SERIES_TITLE title then
      (series, (6 # 10)%Q)
    else if test (RE_WORD "hub") pathname || test (RE_ANY_CASE "hub") title then
      (hub, (5 # 10)%Q)
    else if test (RE_WORD "tale") pathname || test (RE_ANY_CASE "tale") title then
      (tale, (4 # 10)%Q)
    else
      (if jsstring_eqb site (str "scp-wiki") then non_scp else unknown,
       if jsstring_eqb site (str "scp-wiki") then (3 # 10)%Q else (1 # 10)%Q) in
  {| p_type := type;
     p_site := site;
     p_locale := locale;
     p_canonicalUrl := or_else (href url) [];
     p_confidence := confidence |}.

(** ** Entities, scoring and deduplication *)

Inductive Context := link | inline.
Inductive Confidence := high | medium | low.

(** [element] is a reference to the DOM node the mention came from. *)
Record Entity := {
  e_id : jsstring;
  e_kind : Kind;
  e_context : Context;
  e_url : option jsstring;
  e_displayText : option jsstring;
  e_element : option nat;
  e_confidence : Confidence;
}.

(** [x || null] on a string that may be absent. *)
Definition or_null (x : option jsstring) : option jsstring :=
  match x with
  | Some s => if truthy s then Some s else None
  | None => None
  end.

Definition makeEntity (id : jsstring) (kind : Kind) (context : Context)
    (url displayText : option jsstring) (element : option nat)
    (confidence : Confidence) : Entity :=
  {| e_id := id; e_kind := kind; e_context := context;
     e_url := or_null url; e_displayText := or_null displayText;
     e_element := element; e_confidence := confidence |}.

Definition scoreEntity (e : Entity) : nat :=
  let score := 0%nat in
  let score := if e_confidence e is high then (score + 3)%nat else score in
  let score := if e_confidence e is medium then (score + 2)%nat else score in
  let score := if e_confidence e is low then (score + 1)%nat else score in
  let score := if e_context e is link then (score + 1)%nat else score in
  score.

(** [`${e.id}|${e.url || ''}`] *)
Definition entity_key (e : Entity) : jsstring :=
  e_id e ++ str "|" ++ default [] (or_null (e_url e)).

(** A [Map] keeps its keys in insertion order and [set] on a present key
    keeps the key's place: an association list. *)
Definition JsMap (V : Type) := list (jsstring * V).

Fixpoint map_get {V} (key : jsstring) (m : JsMap V) : option V :=
  match m with
  | [] => None
  | (k, v) :: m' => if jsstring_eqb k key then Some v else map_get key m'
  end.

Fixpoint map_set {V} (key : jsstring) (v : V) (m : JsMap V) : JsMap V :=
  match m with
  | [] => [(key, v)]
  | (k, x) :: m' =>
    if jsstring_eqb k key then (k, v) :: m' else (k, x) :: map_set key v m'
  end.

Definition map_values {V} (m : JsMap V) : list V := snd <$> m.

Definition dedupe_step (byKey : JsMap Entity) (e : Entity) : JsMap Entity :=
  let key := entity_key e in
  match map_get key byKey with
  | None => map_set key e byKey
  | Some existing =>
    let score := scoreEntity e in
    let scoreExisting := scoreEntity existing in
    if Nat.ltb scoreExisting score then map_set key e byKey else byKey
  end.

Definition dedupeEntities (entities : list Entity) : list Entity :=
  map_values (foldl dedupe_step [] entities).

(** ** The document

    What the scanners read from the DOM.  [el_matches] is [el.matches]
    (absent on nodes that are not elements), [el_href] is
    [getAttribute('href')], [el_textContent] is [textContent]; both may be
    [null].  [querySelectorAll] throws on a selector it cannot parse. *)

Record Element := {
  el_ref : nat;
  el_matches : option (jsstring -> bool);
  el_href : option jsstring;
  el_textContent : option jsstring;
}.

Record Document := {
  d_title : option jsstring;
  d_location : option jsstring;
  d_body : bool;
  d_querySelectorAll : jsstring -> Res (list Element);
}.

Record Window := {
  w_location : option jsstring;
}.

Definition elementExcluded (el : Element) (excludeSelectors : jsstring) : bool :=
  match el_matches el with
  | None => false
  | Some matches => matches excludeSelectors
  end.

(** ** Scanners *)

(** Source pattern: "/(?:^|\/)scp-(G)\b/", whose group 1 is G =
    "[0-9]{1,4}(?:-[0-9a-z]+)*". *)
Definition RE_LINK_PATH : regex :=
  rseq [RAlt RBol (rlit (str "/")); rlit (str "scp-");
        RGroup 1 (RSeq (RRep 1 (Some 4%nat) (RChar is_digit))
                       (rstar (RSeq (rlit (str "-")) (rplus (RChar is_lower_alnum)))));
        RWordB].

(** The fallback of the link scan: the link text, upper-cased, as an
    identifier. *)
Definition scan_link_text `{Host} (a : Element) (urlObj : URLObj) : list Entity :=
  let text := trim (or_else (default [] (el_textContent a)) []) in
  if negb (truthy text) then []
  else
    match normalizeIdentifier (toUpperCase text) with
    | Some textNorm =>
      [makeEntity (n_id textNorm) (n_kind textNorm) link (Some (href urlObj))
                  (Some text) (Some (el_ref a)) medium]
    | None => []
    end.

(** One iteration of the loop of [scanLinks]: the candidates pushed for
    anchor [a] (none after a [continue]). *)
Definition scan_link `{Host} (baseHref : jsstring) (a : Element) : list Entity :=
  if elementExcluded a (excludeSelectors DEFAULT_CONFIG) then []
  else
    match or_null (el_href a) with
    | None => []
    | Some href_attr =>
      match safeURL href_attr baseHref with
      | None => []
      | Some urlObj =>
        let path := unifyDashes (toLowerCase (or_else (pathname urlObj) [])) in
        match exec RE_LINK_PATH path with
        | Some m =>
          let numPart := default [] (group path m 1) in
          match normalizeIdentifier (str "SCP-" ++ numPart) with
          | Some norm =>
            [makeEntity (n_id norm) (n_kind norm) link (Some (href urlObj))
               (Some (match or_null (el_textContent a) with
                      | Some t => trim t
                      | None => []
                      end))
               (Some (el_ref a)) high]
          | None => scan_link_text a urlObj
          end
        | None => scan_link_text a urlObj
        end
      end
    end.

Definition scanLinks `{Host} (doc : Document) (baseHref : jsstring)
    : Res (list Entity) :=
  match d_querySelectorAll doc (str "a[href]") with
  | Throw e => Throw e
  | Ok anchors => Ok (concat (scan_link baseHref <$> anchors))
  end.

(** [ID_INLINE_REGEX], flags [gi]; the source pattern is
    "(?:^|[^A-Z0-9])(G)" whose group 1 is G =
    "(?:SCP)[\u0020${DASH_CLASS}]*((?:[0-9]{1,4})|(?:████))(?:-[0-9A-Za-z]+)*".
    Under [i] the negated class also rejects the lower-case letters. *)
Definition ID_INLINE_REGEX : regex :=
  rseq [RAlt RBol (RChar (fun c => negb (is_alnum c)));
        RGroup 1 (rseq [
          rlit_i (str "SCP");
          rstar (RChar (char_in (32 :: DASH_CLASS)));
          RGroup 2 (RAlt (RRep 1 (Some 4%nat) (RChar is_digit)) (rlit REDACTED));
          rstar (RSeq (rlit (str "-")) (rplus (RChar is_alnum)))])].

(** The [while] loop over the matches in one element's text: [safety]
    iterations are left, the regex resumes at [lastIndex]. *)
Fixpoint scan_text `{Host} (el : Element) (text : jsstring)
    (safety lastIndex : nat) : list Entity :=
  match safety with
  | O => []
  | S safety' =>
    match exec_from text ID_INLINE_REGEX lastIndex with
    | None => []
    | Some m =>
      let candidate := default [] (group text m 1) in
      match normalizeIdentifier candidate with
      | Some norm =>
        [makeEntity (n_id norm) (n_kind norm) inline None (Some candidate)
                    (Some (el_ref el)) low]
      | None => []
      end ++ scan_text el text safety' (m_end m)
    end
  end.

Definition scan_element `{Host} (el : Element) : list Entity :=
  if elementExcluded el (excludeSelectors DEFAULT_CONFIG) then []
  else
    let text := trim (or_else (default [] (el_textContent el)) []) in
    if negb (truthy text) then []
    else scan_text el text 20 0.

Definition scanInline `{Host} (doc : Document) (includeSelectors : jsstring)
    (maxNodes : Z) : Res (list Entity) :=
  match d_querySelectorAll doc includeSelectors with
  | Throw e => Throw e
  | Ok nodes =>
    let total := Z.min (Z.of_nat (length nodes)) maxNodes in
    Ok (concat (scan_element <$> take (Z.to_nat total) nodes))
  end.

Definition isAllowedDomain (hostname : jsstring) (cfg : Config) : bool :=
  if negb (truthy hostname) then true
  else
    match allowedDomains cfg with
    | Some (d :: ds) => bool_decide (hostname ∈ d :: ds)
    | _ => allowAllDomains cfg
    end.

(** ** Injected collaborators

    A collaborator call either returns ([None]) or throws ([Some e]).
    [lg_error] is absent when the injected logger has no [error] function. *)

Record Logger := {
  lg_debug : jsstring -> option exn;
  lg_error : option (exn -> jsstring -> option exn);
}.

Record ErrorHandler := {
  handleError : exn -> jsstring -> option exn;
}.

Definition createNoopLogger : Logger :=
  {| lg_debug := fun _ => None; lg_error := Some (fun _ _ => None) |}.

(** The [try]/[catch] around [logger.error] swallows whatever it throws. *)
Definition createSafeErrorHandler (logger : Logger) : ErrorHandler :=
  {| handleError := fun error context =>
       match lg_error logger with
       | Some err => match err error context with _ => None end
       | None => None
       end |}.

(** A subscriber: [cb_id] stands for the identity of the function object
    (what [Set] compares), [cb_run payload] is a call of it. *)
Record Callback := {
  cb_id : nat;
  cb_run : nat -> option exn;
}.

(** The options object of [createDetector] and [configure]: every key may be
    absent.  [o_logger] is present when [cfg.logger.debug] is a function,
    [o_errorHandler] when [cfg.errorHandler.handleError] is one. *)
Record Options := {
  o_observe : option bool;
  o_debounceMs : option Z;
  o_includeSelectors : option jsstring;
  o_excludeSelectors : option jsstring;
  o_domainMap : option (gmap jsstring SiteInfo);
  o_allowedDomains : option (option (list jsstring));
  o_strict : option bool;
  o_maxNodes : option Z;
  o_scanIframes : option bool;
  o_allowAllDomains : option bool;
  o_autostart : option bool;
  o_logger : option Logger;
  o_errorHandler : option ErrorHandler;
}.

Definition NO_OPTIONS : Options := {|
  o_observe := None; o_debounceMs := None; o_includeSelectors := None;
  o_excludeSelectors := None; o_domainMap := None; o_allowedDomains := None;
  o_strict := None; o_maxNodes := None; o_scanIframes := None;
  o_allowAllDomains := None; o_autostart := None; o_logger := None;
  o_errorHandler := None;
|}.

(** [Object.assign(cfg, options)] on the recognised keys. *)
Definition assign (cfg : Config) (o : Options) : Config := {|
  observe := default (observe cfg) (o_observe o);
  debounceMs := default (debounceMs cfg) (o_debounceMs o);
  includeSelectors := default (includeSelectors cfg) (o_includeSelectors o);
  excludeSelectors := default (excludeSelectors cfg) (o_excludeSelectors o);
  domainMap := default (domainMap cfg) (o_domainMap o);
  allowedDomains := default (allowedDomains cfg) (o_allowedDomains o);
  strict := default (strict cfg) (o_strict o);
  maxNodes := default (maxNodes cfg) (o_maxNodes o);
  scanIframes := default (scanIframes cfg) (o_scanIframes o);
  allowAllDomains := default (allowAllDomains cfg) (o_allowAllDomains o);
  autostart := match o_autostart o with Some b => Some b | None => autostart cfg end;
|}.

(** ** The store

    Objects that the controller creates live in a store and are named by
    their address: the page object, the entities array, the entity objects
    and the result objects handed to callers.  An array holds the addresses
    of its elements, so a copy of the array shares them. *)

Abbreviation loc := nat (only parsing).

Inductive obj :=
| OPage (p : PageClassification)
| OArray (items : list loc)
| OEntity (e : Entity)
| OResults (page entities : loc) (lastUpdatedAt : Z).

Global Instance obj_inhabited : Inhabited obj := populate (OArray []).

(** The [state] object of the closure. *)
Record DetectorState := {
  page : loc;
  entities : loc;
  lastUpdatedAt : Z;
}.

(** What the controller does to the outside: calls of the error handler, of
    subscribers, and of the mutation observer. *)
Inductive Effect :=
| EffHandleError (e : exn) (action : jsstring)
| EffCallback (event : jsstring) (id : nat) (payload : loc) (threw : bool)
| EffObserve
| EffDisconnect.

(** The variables of the closure of [createDetector], the store, and the
    pending work: [timer] is the debounce timer, [microtask] the deferred
    autostart, [connected] whether the observer is observing. *)
Record World := {
  cfg : Config;
  logger : Logger;
  errorHandler : ErrorHandler;
  disposed : bool;
  observer : bool;
  state : DetectorState;
  listeners : gmap jsstring (list Callback);
  timer : bool;
  microtask : bool;
  connected : bool;
  heap : list obj;
  effects : list Effect;
}.

Definition set_cfg (x : Config) (w : World) : World :=
  {| cfg := x; logger := logger w; errorHandler := errorHandler w;
     disposed := disposed w; observer := observer w; state := state w;
     listeners := listeners w; timer := timer w; microtask := microtask w;
     connected := connected w; heap := heap w; effects := effects w |}.
Definition set_disposed (x : bool) (w : World) : World :=
  {| cfg := cfg w; logger := logger w; errorHandler := errorHandler w;
     disposed := x; observer := observer w; state := state w;
     listeners := listeners w; timer := timer w; microtask := microtask w;
     connected := connected w; heap := heap w; effects := effects w |}.
Definition set_observer (x : bool) (w : World) : World :=
  {| cfg := cfg w; logger := logger w; errorHandler := errorHandler w;
     disposed := disposed w; observer := x; state := state w;
     listeners := listeners w; timer := timer w; microtask := microtask w;
     connected := connected w; heap := heap w; effects := effects w |}.
Definition set_state (x : DetectorState) (w : World) : World :=
  {| cfg := cfg w; logger := logger w; errorHandler := errorHandler w;
     disposed := disposed w; observer := observer w; state := x;
     listeners := listeners w; timer := timer w; microtask := microtask w;
     connected := connected w; heap := heap w; effects := effects w |}.
Definition set_listeners (x : gmap jsstring (list Callback)) (w : World) : World :=
  {| cfg := cfg w; logger := logger w; errorHandler := errorHandler w;
     disposed := disposed w; observer := observer w; state := state w;
     listeners := x; timer := timer w; microtask := microtask w;
     connected := connected w; heap := heap w; effects := effects w |}.
Definition set_timer (x : bool) (w : World) : World :=
  {| cfg := cfg w; logger := logger w; errorHandler := errorHandler w;
     disposed := disposed w; observer := observer w; state := state w;
     listeners := listeners w; timer := x; microtask := microtask w;
     connected := connected w; heap := heap w; effects := effects w |}.
Definition set_microtask (x : bool) (w : World) : World :=
  {| cfg := cfg w; logger := logger w; errorHandler := errorHandler w;
     disposed := disposed w; observer := observer w; state := state w;
     listeners := listeners w; timer := timer w; microtask := x;
     connected := connected w; heap := heap w; effects := effects w |}.
Definition set_connected (x : bool) (w : World) : World :=
  {| cfg := cfg w; logger := logger w; errorHandler := errorHandler w;
     disposed := disposed w; observer := observer w; state := state w;
     listeners := listeners w; timer := timer w; microtask := microtask w;
     connected := x; heap := heap w; effects := effects w |}.
Definition set_heap (x : list obj) (w : World) : World :=
  {| cfg := cfg w; logger := logger w; errorHandler := errorHandler w;
     disposed := disposed w; observer := observer w; state := state w;
     listeners := listeners w; timer := timer w; microtask := microtask w;
     connected := connected w; heap := x; effects := effects w |}.
Definition set_effects (x : list Effect) (w : World) : World :=
  {| cfg := cfg w; logger := logger w; errorHandler := errorHandler w;
     disposed := disposed w; observer := observer w; state := state w;
     listeners := listeners w; timer := timer w; microtask := microtask w;
     connected := connected w; heap := heap w; effects := x |}.

Definition set_page (l : loc) (s : DetectorState) : DetectorState :=
  {| page := l; entities := entities s; lastUpdatedAt := lastUpdatedAt s |}.
Definition set_entities (l : loc) (s : DetectorState) : DetectorState :=
  {| page := page s; entities := l; lastUpdatedAt := lastUpdatedAt s |}.
Definition set_lastUpdatedAt (t : Z) (s : DetectorState) : DetectorState :=
  {| page := page s; entities := entities s; lastUpdatedAt := t |}.

(** ** Computations: state and exceptions

    A computation runs from a world to a result or a thrown exception and
    the world it leaves; what it wrote before throwing stays written. *)

Definition M (A : Type) : Type := World -> Res A * World.

Global Instance M_ret : MRet M := fun A a w => (Ok a, w).

Global Instance M_bind : MBind M := fun A B f m w =>
  match m w with
  | (Ok a, w') => f a w'
  | (Throw e, w') => (Throw e, w')
  end.

Definition try_catch {A} (body : M A) (handler : exn -> M A) : M A := fun w =>
  match body w with
  | (Ok a, w') => (Ok a, w')
  | (Throw e, w') => handler e w'
  end.

Definition gets {A} (f : World -> A) : M A := fun w => (Ok (f w), w).
Definition modify (f : World -> World) : M unit := fun w => (Ok tt, f w).
Definition lift {A} (r : Res A) : M A := fun w => (r, w).

(** A call of a collaborator. *)
Definition call (r : option exn) : M unit :=
  match r with
  | None => mret tt
  | Some e => lift (Throw e)
  end.

Definition perform (x : Effect) : M unit :=
  modify (fun w => set_effects (effects w ++ [x]) w).

Definition alloc (o : obj) : M loc := fun w =>
  (Ok (length (heap w)), set_heap (heap w ++ [o]) w).

Fixpoint for_each {A} (l : list A) (body : A -> M unit) : M unit :=
  match l with
  | [] => mret tt
  | x :: l' => body x;; for_each l' body
  end.

Fixpoint alloc_all (os : list obj) : M (list loc) :=
  match os with
  | [] => mret []
  | o :: os' => l ← alloc o; ls ← alloc_all os'; mret (l :: ls)
  end.

(** ** Emitter

    [_listeners] maps an event name to a [Set] of callbacks, which iterates
    in insertion order and holds a function at most once. *)

Definition set_add (cb : Callback) (s : list Callback) : list Callback :=
  if existsb (fun c => Nat.eqb (cb_id c) (cb_id cb)) s then s else s ++ [cb].

Definition set_delete (cb : Callback) (s : list Callback) : list Callback :=
  List.filter (fun c => negb (Nat.eqb (cb_id c) (cb_id cb))) s.

Definition Emitter_on (event : jsstring) (cb : Callback) : M unit :=
  modify (fun w =>
    set_listeners
      (<[event := set_add cb (default [] (listeners w !! event))]> (listeners w)) w).

Definition Emitter_off (event : jsstring) (cb : Callback) : M unit :=
  modify (fun w =>
    match listeners w !! event with
    | Some s => set_listeners (<[event := set_delete cb s]> (listeners w)) w
    | None => w
    end).

(** [cb(payload)] *)
Definition invoke (event : jsstring) (payload : loc) (cb : Callback) : M unit :=
  let r := cb_run cb payload in
  perform (EffCallback event (cb_id cb) payload (bool_decide (is_Some r)));;
  call r.

Definition Emitter_emit (event : jsstring) (payload : loc) : M unit :=
  set ← gets (fun w => listeners w !! event);
  match set with
  | None => mret tt
  | Some cbs =>
    if Nat.eqb (length cbs) 0 then mret tt
    else for_each cbs (fun cb =>
           try_catch (invoke event payload cb) (fun _ => mret tt))
  end.

Definition Emitter_removeAll : M unit := modify (set_listeners ∅).

(** ** The controller *)

(** What a cycle reads from its surroundings: [w] and [d] of the closure
    as they are now, [Date.now()], whether [MutationObserver] exists and
    what [observer.observe] does. *)
Record Env := {
  env_window : option Window;
  env_document : option Document;
  env_now : Z;
  env_MutationObserver : bool;
  env_observe : option exn;
}.

Definition logger_debug (msg : string) : M unit :=
  lg ← gets logger;
  call (lg_debug lg (str msg)).

(** [Object.assign({}, state.page)]: a new object with the same fields. *)
Definition getPageClassification : M loc :=
  o ← gets (fun w => heap w !!! page (state w));
  alloc o.

(** [state.entities.slice()]: a new array with the same elements. *)
Definition getEntities : M loc :=
  o ← gets (fun w => heap w !!! entities (state w));
  alloc o.

Definition getResults : M loc :=
  p ← getPageClassification;
  es ← getEntities;
  t ← gets (fun w => lastUpdatedAt (state w));
  alloc (OResults p es t).

Definition assign_state (f : DetectorState -> DetectorState) : M unit :=
  modify (fun w => set_state (f (state w)) w).

(** [(w && w.location && w.location.href) || (d && d.location && d.location.href) || ''] *)
Definition base_href (env : Env) : jsstring :=
  or_else (default [] (env_window env ≫= w_location))
    (or_else (default [] (env_document env ≫= d_location)) []).

(** The allowed branch up to the first write to [state] (source lines
    390-397).  The entity objects come from [makeEntity] during the scans
    and are not written afterwards, so the scans work on their contents;
    the survivors are put in the store with the array that
    [dedupeEntities] returns. *)
Definition collect `{Host} (d : Document) (urlObj : URLObj) : M (loc * loc) :=
  c ← gets cfg;
  page ← alloc (OPage (classifyPage (Some urlObj) (d_title d)));
  linkEntities ← lift (scanLinks d (href urlObj));
  inlineEntities ← lift (scanInline d (includeSelectors c) (maxNodes c));
  logger_debug "compute:scan";;
  items ← alloc_all (OEntity <$> dedupeEntities (linkEntities ++ inlineEntities));
  all ← alloc (OArray items);
  logger_debug "compute:dedupe";;
  mret (page, all).

(** Source lines 399-403. *)
Definition install (page all : loc) (now : Z) : M unit :=
  assign_state (set_page page);;
  assign_state (set_entities all);;
  assign_state (set_lastUpdatedAt now);;
  r ← getResults;
  Emitter_emit (str "update") r.

(** Source lines 380-386. *)
Definition clear_results `{Host} (d : Document) (urlObj : URLObj) (now : Z) : M unit :=
  p ← alloc (OPage (classifyPage (Some urlObj) (d_title d)));
  assign_state (set_page p);;
  a ← alloc (OArray []);
  assign_state (set_entities a);;
  assign_state (set_lastUpdatedAt now);;
  logger_debug "domain:not-allowed";;
  r ← getResults;
  Emitter_emit (str "update") r.

Definition current_url `{Host} (env : Env) : URLObj :=
  let base := base_href env in
  default {| hostname := []; pathname := str "/"; href := base |}
          (safeURL base base).

(** The body of the [try] block of [compute]. *)
Definition compute_body `{Host} (env : Env) : M unit :=
  match env_document env with
  | None => mret tt
  | Some d =>
    let urlObj := current_url env in
    c ← gets cfg;
    if negb (isAllowedDomain (toLowerCase (or_else (hostname urlObj) [])) c)
    then clear_results d urlObj (env_now env)
    else
      '(page, all) ← collect d urlObj;
      install page all (env_now env)
  end.

Definition report (e : exn) (action : string) : M unit :=
  h ← gets errorHandler;
  perform (EffHandleError e (str action));;
  call (handleError h e (str action)).

Definition compute `{Host} (env : Env) : M unit :=
  is_disposed ← gets disposed;
  if is_disposed : bool then mret tt
  else try_catch (compute_body env) (fun e => report e "compute").

(** [debounce(compute, cfg.debounceMs)]: a call clears the pending timer
    and starts a new one. *)
Definition scheduleCompute : M unit := modify (set_timer true).

Definition refresh `{Host} (env : Env) : M unit :=
  try_catch (logger_debug "refresh:manual") (fun _ => mret tt);;
  compute env.

Definition observer_disconnect : M unit :=
  perform EffDisconnect;;
  modify (set_connected false).

Definition observer_observe (env : Env) : M unit :=
  perform EffObserve;;
  call (env_observe env);;
  modify (set_connected true).

Definition dispose : M unit :=
  modify (set_disposed true);;
  obs ← gets observer;
  (if obs : bool then
     try_catch (observer_disconnect;; logger_debug "observer:disconnected")
               (fun _ => mret tt);;
     modify (set_observer false)
   else mret tt);;
  Emitter_removeAll.

Definition on (event : jsstring) (cb : Callback) : M unit := Emitter_on event cb.
Definition off (event : jsstring) (cb : Callback) : M unit := Emitter_off event cb.

Definition configure `{Host} (nextCfg : Options) (env : Env) : M unit :=
  modify (fun w => set_cfg (assign (cfg w) nextCfg) w);;
  refresh env.

Definition INITIAL_PAGE : PageClassification := {|
  p_type := unknown; p_site := str "unknown"; p_locale := str "unknown";
  p_canonicalUrl := []; p_confidence := 0%Q;
|}.

(** The world right after [createDetector(options)] returns. *)
Definition createDetector (options : Options) (env : Env) : World :=
  let cfg := assign DEFAULT_CONFIG options in
  let logger := default createNoopLogger (o_logger options) in
  let errorHandler :=
    default (createSafeErrorHandler logger) (o_errorHandler options) in
  let w0 := {|
    cfg := cfg; logger := logger; errorHandler := errorHandler;
    disposed := false; observer := false;
    state := {| page := 0%nat; entities := 1%nat; lastUpdatedAt := 0 |};
    listeners := ∅; timer := false; microtask := false; connected := false;
    heap := [OPage INITIAL_PAGE; OArray []]; effects := [] |} in
  let has_body :=
    match env_document env with Some d => d_body d | None => false end in
  let w1 :=
    if observe cfg && has_body && env_MutationObserver env then
      snd ((modify (set_observer true);;
            try_catch (observer_observe env;; logger_debug "observer:attached")
                      (fun _ => mret tt)) w0)
    else w0 in
  if autostart cfg is Some false then w1 else set_microtask true w1.

(** ** What happens to a detector

    Calls of the public API and the three host callbacks: the deferred
    autostart, a mutation notification (delivered only while the observer
    is connected), and the debounce timer running out. *)
Inductive Event :=
| Microtask
| Mutation
| TimerFired (env : Env)
| Refresh (env : Env)
| Configure (nextCfg : Options) (env : Env)
| Dispose
| On (event : jsstring) (cb : Callback)
| Off (event : jsstring) (cb : Callback)
| GetPageClassification
| GetEntities
| GetResults.

Definition step `{Host} (ev : Event) : M unit :=
  match ev with
  | Microtask =>
    pending ← gets microtask;
    if pending : bool then
      modify (set_microtask false);;
      try_catch (logger_debug "autostart:scheduled") (fun _ => mret tt);;
      scheduleCompute
    else mret tt
  | Mutation =>
    live ← gets connected;
    if live : bool then
      try_catch scheduleCompute (fun e => report e "mutation_observer")
    else mret tt
  | TimerFired env =>
    pending ← gets timer;
    if pending : bool then modify (set_timer false);; compute env
    else mret tt
  | Refresh env => refresh env
  | Configure nextCfg env => configure nextCfg env
  | Dispose => dispose
  | On event cb => on event cb
  | Off event cb => off event cb
  | GetPageClassification => getPageClassification;; mret tt
  | GetEntities => getEntities;; mret tt
  | GetResults => getResults;; mret tt
  end.

(** An exception that escapes a step goes to the host; the next event
    finds the world as the step left it. *)
Definition run `{Host} (evs : list Event) (w : World) : World :=
  foldl (fun w ev => snd (step ev w)) w evs.

(** ** Reading the store *)

Definition read_page (h : list obj) (l : loc) : option PageClassification :=
  match h !! l with Some (OPage p) => Some p | _ => None end.

Definition read_entity (h : list obj) (l : loc) : option Entity :=
  match h !! l with Some (OEntity e) => Some e | _ => None end.

Definition read_array (h : list obj) (l : loc) : option (list Entity) :=
  match h !! l with
  | Some (OArray items) => mapM (read_entity h) items
  | _ => None
  end.

(** A results object, read through to the entity objects. *)
Record Results := {
  r_page : PageClassification;
  r_entities : list Entity;
  r_lastUpdatedAt : Z;
}.

Definition read_results (h : list obj) (l : loc) : option Results :=
  match h !! l with
  | Some (OResults p es t) =>
    pg ← read_page h p;
    ents ← read_array h es;
    Some {| r_page := pg; r_entities := ents; r_lastUpdatedAt := t |}
  | _ => None
  end.

(** The controller's own state, read the same way. *)
Definition read_state (w : World) : option Results :=
  pg ← read_page (heap w) (page (state w));
  ents ← read_array (heap w) (entities (state w));
  Some {| r_page := pg; r_entities := ents;
          r_lastUpdatedAt := lastUpdatedAt (state w) |}.


(** ** A host for worked examples

    Case mapping that acts on ASCII letters only, and URL resolution for
    plain [https://host/path] URLs and root-relative paths (no port, query,
    fragment, dot segments or escapes), on which it agrees with the URL
    constructor. *)

Fixpoint split_at_slash (s : jsstring) : jsstring * jsstring :=
  match s with
  | [] => ([], [])
  | c :: s' =>
    if c =? 47 then ([], s)
    else let '(a, b) := split_at_slash s' in (c :: a, b)
  end.

Definition parse_https (s : jsstring) : option URLObj :=
  let scheme := str "https://" in
  if jsstring_eqb (take (length scheme) s) scheme then
    let '(host, path) := split_at_slash (drop (length scheme) s) in
    if truthy host then
      let host := ascii_lower <$> host in
      let path := or_else path (str "/") in
      Some {| hostname := host; pathname := path; href := scheme ++ host ++ path |}
    else None
  else None.

Definition simple_URL_new (href_attr base : jsstring) : option URLObj :=
  match parse_https href_attr with
  | Some u => Some u
  | None =>
    match href_attr, parse_https base with
    | 47 :: _, Some b =>
      Some {| hostname := hostname b; pathname := href_attr;
              href := str "https://" ++ hostname b ++ href_attr |}
    | _, _ => None
    end
  end.

Definition simple_host : Host := {|
  toLowerCase s := ascii_lower <$> s;
  toUpperCase s := ascii_upper <$> s;
  URL_new := simple_URL_new;
  toLowerCase_ascii := fun s _ => eq_refl;
  toUpperCase_ascii := fun s _ => eq_refl;
|}.

(** A document given by its title, its address and its elements in document
    order; a selector list matches an element when one of its
    comma-separated parts is the element's tag, or is ["a[href]"] for an
    anchor with an [href]. *)
Record Node := {
  nd_tag : string;
  nd_href : option jsstring;
  nd_text : jsstring;
}.

Fixpoint split_commas (s : jsstring) : list jsstring :=
  match s with
  | [] => [[]]
  | c :: s' =>
    match split_commas s' with
    | p :: ps => if c =? 44 then [] :: p :: ps else (c :: p) :: ps
    | [] => [[c]]
    end
  end.

Definition node_matches (n : Node) (selector : jsstring) : bool :=
  existsb (fun part =>
    jsstring_eqb part (str (nd_tag n))
    || (jsstring_eqb part (str "a[href]") && jsstring_eqb (str (nd_tag n)) (str "a")
        && bool_decide (is_Some (nd_href n))))
    (split_commas selector).

Definition element_of (i : nat) (n : Node) : Element := {|
  el_ref := i;
  el_matches := Some (node_matches n);
  el_href := nd_href n;
  el_textContent := Some (nd_text n);
|}.

Definition document_of (title location : string) (nodes : list Node) : Document := {|
  d_title := Some (str title);
  d_location := Some (str location);
  d_body := true;
  d_querySelectorAll := fun selector =>
    Ok (List.filter (fun el => elementExcluded el selector)
                    (imap element_of nodes));
|}.

Definition env_of (location : string) (doc : Document) (now : Z) : Env := {|
  env_window := Some {| w_location := Some (str location) |};
  env_document := Some doc;
  env_now := now;
  env_MutationObserver := false;
  env_observe := None;
|}.

(** ** The decision list of the classifier, as the specification words it

    Each rule fixes a page type and a literal confidence; the first rule
    whose condition holds decides.  The conditions are the tests of the
    source on the lower-cased path and title. *)

Record Signals := {
  sig_proposal_path : bool;
  sig_article_path : bool;
  sig_article_title : bool;
  sig_series : bool;
  sig_hub : bool;
  sig_tale : bool;
  sig_known_wiki : bool;
}.

Definition signals `{Host} (urlObj : option URLObj)
    (documentTitle : option jsstring) : Signals :=
  let url := default NO_URL urlObj in
  let hostname := toLowerCase (or_else (hostname url) []) in
  let pathname := toLowerCase (or_else (pathname url) (str "/")) in
  let title := toLowerCase (or_else (default [] documentTitle) []) in
  {| sig_proposal_path := test RE_SCP001_PATH pathname;
     sig_article_path := test RE_SCP_PATH pathname;
     sig_article_title := test RE_TITLE_SCP title;
     sig_series := test (RE_WORD "series") pathname || test RE_SERIES_TITLE title;
     sig_hub := test (RE_WORD "hub") pathname || test (RE_ANY_CASE "hub") title;
     sig_tale := test (RE_WORD "tale") pathname || test (RE_ANY_CASE "tale") title;
     sig_known_wiki :=
       jsstring_eqb (lookup_site (domainMap DEFAULT_CONFIG) hostname) (str "scp-wiki") |}.

Definition classify_rules : list ((Signals -> bool) * (PageType * Q)) := [
  (sig_proposal_path, (proposal_or_index, (6 # 10)%Q));
  (sig_article_path, (scp_article, (9 # 10)%Q));
  (sig_article_title, (scp_article, (6 # 10)%Q));
  (sig_series, (series, (6 # 10)%Q));
  (sig_hub, (hub, (5 # 10)%Q));
  (sig_tale, (tale, (4 # 10)%Q));
  (sig_known_wiki, (non_scp, (3 # 10)%Q));
  (fun _ => true, (unknown, (1 # 10)%Q))
].

Definition classify_spec (s : Signals) : option (PageType * Q) :=
  snd <$> List.find (fun rule => fst rule s) classify_rules.

(** The score of the specification. *)
Definition tier (c : Confidence) : nat :=
  match c with high => 3 | medium => 2 | low => 1 end.

Definition score_spec (e : Entity) : nat :=
  (tier (e_confidence e) + if e_context e is link then 1 else 0)%nat.

(** The key of the specification: [id + "|" + (url ?? "")]. *)
Definition key_spec (e : Entity) : jsstring :=
  e_id e ++ str "|" ++ default [] (e_url e).

(** ** Vocabulary of the statements *)

(** Two continuations of the matcher agree wherever a match on input [s]
    can resume from position [i]. *)
Definition agree_from (s : jsstring) (i : nat) (k k' : cont) : Prop :=
  forall j c, (i <= j <= length s)%nat -> k j c = k' j c.

(** The record that a call of subscriber [cb] leaves. *)
Definition invocation (event : jsstring) (payload : loc) (cb : Callback) : Effect :=
  EffCallback event (cb_id cb) payload (bool_decide (is_Some (cb_run cb payload))).

Definition subscribers (w : World) (event : jsstring) : list Callback :=
  default [] (listeners w !! event).

Definition is_callback (x : Effect) : bool :=
  match x with EffCallback _ _ _ _ => true | _ => false end.

(** The three objects that [getResults] creates in world [w]: the copy of
    the page, the copy of the array, and the result that holds both. *)
Definition results_objects (w : World) : list obj :=
  let o1 := heap w !!! page (state w) in
  let o2 := (heap w ++ [o1]) !!! entities (state w) in
  [o1; o2; OResults (length (heap w)) (S (length (heap w))) (lastUpdatedAt (state w))].

(** The store is well formed: the state's addresses and the elements of its
    array are allocated, and hold a page, an array and entities. *)
Definition wf (w : World) : Prop :=
  is_Some (read_state w).

(** ** Worked example: a wiki page with two links to one article *)

Definition wiki_nodes : list Node := [
  {| nd_tag := "a"; nd_href := Some (str "/scp-173"); nd_text := str "SCP-173" |};
  {| nd_tag := "a"; nd_href := Some (str "/scp-173"); nd_text := str "Peanut" |};
  {| nd_tag := "p"; nd_href := None;
     nd_text := str "See also SCP-049-J for more fun." |}
].

Definition wiki_page : Document :=
  document_of "Test Page" "https://scp-wiki.wikidot.com/test" wiki_nodes.

Definition wiki_env : Env :=
  env_of "https://scp-wiki.wikidot.com/test" wiki_page 1000.

(** The same content served from a host that no table lists. *)
Definition other_page : Document :=
  document_of "Test Page" "https://example.com/page" wiki_nodes.

Definition other_env : Env := env_of "https://example.com/page" other_page 1000.

(** A browser page: [MutationObserver] exists and observing succeeds. *)
Definition browser_env : Env := {|
  env_window := env_window wiki_env;
  env_document := env_document wiki_env;
  env_now := 2000;
  env_MutationObserver := true;
  env_observe := None;
|}.

(** A document whose [querySelectorAll] throws exception 1. *)
Definition broken_page : Document := {|
  d_title := Some (str "Broken");
  d_location := Some (str "https://scp-wiki.wikidot.com/test");
  d_body := true;
  d_querySelectorAll := fun _ => Throw 1%nat;
|}.

Definition broken_env : Env :=
  env_of "https://scp-wiki.wikidot.com/test" broken_page 3000.

(** Options of the test suite: no observer, no autostart. *)
Definition manual : Options := {|
  o_observe := Some false; o_debounceMs := None; o_includeSelectors := None;
  o_excludeSelectors := None; o_domainMap := None; o_allowedDomains := None;
  o_strict := None; o_maxNodes := None; o_scanIframes := None;
  o_allowAllDomains := None; o_autostart := Some false; o_logger := None;
  o_errorHandler := None;
|}.

Definition with_allowedDomains (l : option (list jsstring)) (o : Options) : Options := {|
  o_observe := o_observe o; o_debounceMs := o_debounceMs o;
  o_includeSelectors := o_includeSelectors o;
  o_excludeSelectors := o_excludeSelectors o; o_domainMap := o_domainMap o;
  o_allowedDomains := Some l;
  o_strict := o_strict o; o_maxNodes := o_maxNodes o;
  o_scanIframes := o_scanIframes o; o_allowAllDomains := o_allowAllDomains o;
  o_autostart := o_autostart o; o_logger := o_logger o;
  o_errorHandler := o_errorHandler o;
|}.

Definition with_domainMap (m : gmap jsstring SiteInfo) (o : Options) : Options := {|
  o_observe := o_observe o; o_debounceMs := o_debounceMs o;
  o_includeSelectors := o_includeSelectors o;
  o_excludeSelectors := o_excludeSelectors o; o_domainMap := Some m;
  o_allowedDomains := o_allowedDomains o;
  o_strict := o_strict o; o_maxNodes := o_maxNodes o;
  o_scanIframes := o_scanIframes o; o_allowAllDomains := o_allowAllDomains o;
  o_autostart := o_autostart o; o_logger := o_logger o;
  o_errorHandler := o_errorHandler o;
|}.

Definition with_errorHandler (h : ErrorHandler) (o : Options) : Options := {|
  o_observe := o_observe o; o_debounceMs := o_debounceMs o;
  o_includeSelectors := o_includeSelectors o;
  o_excludeSelectors := o_excludeSelectors o; o_domainMap := o_domainMap o;
  o_allowedDomains := o_allowedDomains o;
  o_strict := o_strict o; o_maxNodes := o_maxNodes o;
  o_scanIframes := o_scanIframes o; o_allowAllDomains := o_allowAllDomains o;
  o_autostart := o_autostart o; o_logger := o_logger o;
  o_errorHandler := Some h;
|}.

(** Subscribers: one that returns, one that throws exception [e]. *)
Definition quiet_callback (id : nat) : Callback :=
  {| cb_id := id; cb_run := fun _ => None |}.
Definition throwing_callback (id : nat) (e : exn) : Callback :=
  {| cb_id := id; cb_run := fun _ => Some e |}.

(** An error handler that itself throws exception [e]. *)
Definition throwing_handler (e : exn) : ErrorHandler :=
  {| handleError := fun _ _ => Some e |}.

(** A caller-supplied domain map that lists example.com. *)
Definition custom_map : gmap jsstring SiteInfo :=
  {[ str "example.com" := {| site := str "mysite"; locale := str "xx" |} ]}.

(** The accessor calls among the events. *)
Definition is_accessor (ev : Event) : Prop :=
  match ev with
  | GetPageClassification | GetEntities | GetResults => True
  | _ => False
  end.

(** ** Vocabulary of the further properties *)

(** The outcomes of the events of a run, in order. *)
Fixpoint outcomes `{Host} (evs : list Event) (w : World) : list (Res unit) :=
  match evs with
  | [] => []
  | ev :: evs' => fst (step ev w) :: outcomes evs' (snd (step ev w))
  end.

(** What [unifyDashes] does to one code unit. *)
Definition unify_dash (c : char) : char :=
  if char_in DASH_CLASS c then 45 else c.

(** Every position from [i] up to [j] of [s] holds a code unit in [p]. *)
Definition all_in (s : jsstring) (p : char -> bool) (i j : nat) : Prop :=
  forall t, (i <= t < j)%nat -> exists ch, s !! t = Some ch /\ p ch = true.

(** The calls of the observer's own methods among the effects. *)
Definition is_observer_call (x : Effect) : bool :=
  match x with EffObserve | EffDisconnect => true | _ => false end.

(** Position [j] of [s] does not hold a zero that a digit follows. *)
Definition no_zero_then_digit (s : jsstring) (j : nat) : Prop :=
  ~ (s !! j = Some (48 : char)
     /\ exists d : char, s !! S j = Some d /\ is_digit d = true).

(** A logger whose every [debug] call throws exception [e], and that has no
    [error] function. *)
Definition failing_logger (e : exn) : Logger :=
  {| lg_debug := fun _ => Some e; lg_error := None |}.

Definition with_logger (lg : Logger) (o : Options) : Options := {|
  o_observe := o_observe o; o_debounceMs := o_debounceMs o;
  o_includeSelectors := o_includeSelectors o;
  o_excludeSelectors := o_excludeSelectors o; o_domainMap := o_domainMap o;
  o_allowedDomains := o_allowedDomains o;
  o_strict := o_strict o; o_maxNodes := o_maxNodes o;
  o_scanIframes := o_scanIframes o; o_allowAllDomains := o_allowAllDomains o;
  o_autostart := o_autostart o; o_logger := Some lg;
  o_errorHandler := o_errorHandler o;
|}.

(** ** Vocabulary of the property of numbers *)

(** The numeral of a digit string: its leading zeros dropped, the last
    digit kept. *)
Fixpoint strip_zeros (ds : jsstring) : jsstring :=
  match ds with
  | c :: (_ :: _) as ds' => if c =? 48 then strip_zeros ds' else ds
  | _ => ds
  end.

Definition DIGITS : jsstring := [48; 49; 50; 51; 52; 53; 54; 55; 56; 57].

(** The digit strings of length [n]. *)
Fixpoint digit_strings (n : nat) : list jsstring :=
  match n with
  | O => [[]]
  | S n' => c ← DIGITS; (cons c <$> digit_strings n')
  end.

(** The numbers of one to four digits, as written. *)
Definition NUMBERS : list jsstring :=
  digit_strings 1 ++ digit_strings 2 ++ digit_strings 3 ++ digit_strings 4.

(** The ways of writing the prefix and the separator that the property of
    numbers covers. *)
Definition PREFIXES : list jsstring := [str "SCP"; str "scp"].
Definition SEPARATORS : list jsstring :=
  [str "-"; [8211]; str " "; []].

(** [normalizeIdentifier input] is the plain SCP of id [expected]. *)
Definition normalizes_to `{Host} (input expected : jsstring) : bool :=
  match normalizeIdentifier input with
  | Some n =>
    jsstring_eqb (n_id n) expected && (if n_kind n is scp then true else false)
  | None => false
  end.

Definition numbers_normalize `{Host} : bool :=
  forallb (fun p =>
    forallb (fun sep =>
      forallb (fun ds =>
        normalizes_to (p ++ sep ++ ds) (str "scp-" ++ strip_zeros ds))
        NUMBERS)
      SEPARATORS)
    PREFIXES.

(** A link to a page whose path names no SCP, under the text [text]. *)
Definition peanut_link (i : nat) (text : string) : Element :=
  element_of i {| nd_tag := "a"; nd_href := Some (str "/peanut");
                  nd_text := str text |}.

(** ** debounce and the timers of the host

    The host keeps the active timers, each under an id with the task to
    run.  [setTimeout] takes an id from the host, which is positive and
    not the id of an active timer, and adds the timer; [clearTimeout] of an
    id that is not active does nothing; a timer that runs out leaves the
    list.  [choose] is the host's choice of id, given the active ids.  The
    task of a timer of [debounce] is the call [fn.apply(ctx, args)], kept as
    its arguments. *)
Definition Timers (T : Type) := list (nat * T).

Definition timer_ids {T} (tm : Timers T) : list nat := fst <$> tm.

Definition setTimeout {T} (choose : list nat -> nat) (task : T) (tm : Timers T)
    : nat * Timers T :=
  let id := choose (timer_ids tm) in
  (id, tm ++ [(id, task)]).

Definition clearTimeout {T} (id : nat) (tm : Timers T) : Timers T :=
  List.filter (fun p => negb (Nat.eqb (fst p) id)) tm.


(** [if (t) clearTimeout(t)]: [null] and 0 are falsy. *)
Definition clear_pending {T} (t : option nat) (tm : Timers T) : Timers T :=
  match t with
  | Some id => if Nat.eqb id 0 then tm else clearTimeout id tm
  | None => tm
  end.

(** One call of the function that [debounce(fn, delay)] returns, on the
    variable [t] of its closure and the timers of the host. *)
Definition debounced {T} (choose : list nat -> nat) (args : T)
    (s : option nat * Timers T) : option nat * Timers T :=
  let tm := clear_pending (fst s) (snd s) in
  let '(id, tm') := setTimeout choose args tm in
  (Some id, tm').

(** Whether the timer that [t] names is active: the [timer] of the world
    is this, for [scheduleCompute]. *)
Definition debounce_pending {T} (s : option nat * Timers T) : bool :=
  match fst s with
  | Some id => existsb (Nat.eqb id) (timer_ids (snd s))
  | None => false
  end.


(** * Properties *)

(** ** The matcher's fuel

    A continuation is only ever resumed at a position between the current
    one and the end of the input, so the iterations of a quantifier are
    bounded by its minimum plus the input left, and the fuel that [rmatch]
    hands to [repeat_matcher] never runs out: more fuel gives the same
    result. *)

Section MatcherFuel.
Variable s : jsstring.

Lemma repeat_matcher_ext (m : nat -> caps -> cont -> option mstate)
    (reset : caps -> caps) :
  (forall i c k k', (i <= length s)%nat -> agree_from s i k k' -> m i c k = m i c k') ->
  forall fuel lo hi i c k k',
    (i <= length s)%nat -> agree_from s i k k' ->
    repeat_matcher m reset fuel lo hi i c k
    = repeat_matcher m reset fuel lo hi i c k'.
Proof.
  intros Hm. induction fuel as [|fuel IH]; intros lo hi i c k k' Hi Hk; [done|].
  cbn [repeat_matcher].
  assert (Hagain :
    m i (reset c) (fun j c' =>
      if Nat.eqb lo 0 && Nat.eqb j i then None
      else repeat_matcher m reset fuel (Nat.pred lo) (Nat.pred <$> hi) j c' k)
    = m i (reset c) (fun j c' =>
      if Nat.eqb lo 0 && Nat.eqb j i then None
      else repeat_matcher m reset fuel (Nat.pred lo) (Nat.pred <$> hi) j c' k')).
  { apply Hm; [done|]. intros j c' Hj.
    destruct (Nat.eqb lo 0 && Nat.eqb j i); [done|].
    apply IH; [lia|]. intros j' c'' Hj'. apply Hk. lia. }
  rewrite Hagain, (Hk i c) by lia. reflexivity.
Qed.

Lemma rmatch_ext (r : regex) : forall i c k k',
  (i <= length s)%nat -> agree_from s i k k' ->
  rmatch s r i c k = rmatch s r i c k'.
Proof.
  induction r as [|p|a IHa b IHb|a IHa b IHb|lo hi a IHa|n a IHa| | |pos a IHa];
    intros i c k k' Hi Hk; cbn [rmatch].
  - apply Hk. lia.
  - destruct (s !! i) as [ch|] eqn:Hch; [|done].
    apply lookup_lt_Some in Hch. destruct (p ch); [|done]. apply Hk. lia.
  - apply IHa; [done|]. intros j c' Hj. apply IHb; [lia|].
    intros j' c'' Hj'. apply Hk. lia.
  - by rewrite (IHa i c k k'), (IHb i c k k').
  - by apply repeat_matcher_ext.
  - apply IHa; [done|]. intros j c' Hj. by apply Hk.
  - destruct (Nat.eqb i 0); [|done]. apply Hk. lia.
  - destruct (at_word_boundary s i); [|done]. apply Hk. lia.
  - destruct (rmatch s a i c _) as [[j c']|]; destruct pos; try done;
      apply Hk; lia.
Qed.

Lemma repeat_matcher_S (m : nat -> caps -> cont -> option mstate)
    (reset : caps -> caps) (fuel lo : nat) (hi : option nat) (i : nat)
    (c : caps) (k : cont) :
  repeat_matcher m reset (S fuel) lo hi i c k
  = match hi with
    | Some O => k i c
    | _ =>
      let again :=
        m i (reset c) (fun j c' =>
          if Nat.eqb lo 0 && Nat.eqb j i then None
          else repeat_matcher m reset fuel (Nat.pred lo) (Nat.pred <$> hi) j c' k) in
      if Nat.ltb 0 lo then again
      else match again with Some r => Some r | None => k i c end
    end.
Proof. reflexivity. Qed.

Lemma repeat_matcher_fuel (a : regex) (reset : caps -> caps) :
  forall fuel lo hi i c k,
    (i <= length s)%nat -> (lo + (length s - i) < fuel)%nat ->
    repeat_matcher (rmatch s a) reset (S fuel) lo hi i c k
    = repeat_matcher (rmatch s a) reset fuel lo hi i c k.
Proof.
  induction fuel as [|fuel IH]; intros lo hi i c k Hi Hfuel; [lia|].
  rewrite (repeat_matcher_S _ _ (S fuel)), (repeat_matcher_S _ _ fuel). cbv zeta.
  assert (Hagain :
    rmatch s a i (reset c) (fun j c' =>
      if Nat.eqb lo 0 && Nat.eqb j i then None
      else repeat_matcher (rmatch s a) reset (S fuel) (Nat.pred lo)
             (Nat.pred <$> hi) j c' k)
    = rmatch s a i (reset c) (fun j c' =>
      if Nat.eqb lo 0 && Nat.eqb j i then None
      else repeat_matcher (rmatch s a) reset fuel (Nat.pred lo)
             (Nat.pred <$> hi) j c' k)).
  { apply rmatch_ext; [done|]. intros j c' Hj.
    destruct (Nat.eqb lo 0) eqn:Hlo; destruct (Nat.eqb j i) eqn:Hji; simpl;
      try done; apply IH; try lia.
    - apply Nat.eqb_eq in Hlo. apply Nat.eqb_neq in Hji. lia.
    - apply Nat.eqb_neq in Hlo. lia.
    - apply Nat.eqb_neq in Hlo. lia. }
  rewrite Hagain. reflexivity.
Qed.

(** The quantifier case of [rmatch] with any amount of extra fuel. *)
Lemma rmatch_fuel_suffices (a : regex) (lo : nat) (hi : option nat)
    (i : nat) (c : caps) (k : cont) (extra : nat) :
  (i <= length s)%nat ->
  repeat_matcher (rmatch s a) (clear_caps (groups_of a))
    (lo + length s + 1 + extra) lo hi i c k
  = rmatch s (RRep lo hi a) i c k.
Proof.
  intros Hi. cbn [rmatch]. induction extra as [|extra IH].
  - by rewrite Nat.add_0_r.
  - rewrite Nat.add_succ_r, repeat_matcher_fuel by lia. exact IH.
Qed.
End MatcherFuel.

(** ** Identifier normalizer *)

Ltac eval_in_goal t :=
  let v := eval vm_compute in t in change t with v.

(** Reduce a call of the normalizer on a literal input: everything but the
    host's case mapping computes. *)
Ltac run_normalize :=
  unfold normalizeIdentifier;
  repeat match goal with
  | |- context [trim ?s] => eval_in_goal (trim s)
  | |- context [unifyDashes ?s] => eval_in_goal (unifyDashes s)
  | |- context [replace_all ?r ?x ?s] => eval_in_goal (replace_all r x s)
  | |- context [exec ?r ?s] => eval_in_goal (exec r s)
  end;
  cbv beta iota zeta;
  repeat match goal with
  | |- context [default [] (group ?s ?m ?n)] =>
    eval_in_goal (default [] (group s m n))
  end;
  cbv beta iota zeta;
  repeat match goal with
  | |- context [truthy ?s] => eval_in_goal (truthy s)
  | |- context [negb ?b] => eval_in_goal (negb b)
  end;
  cbv beta iota zeta.

Lemma toLowerCase_J `{Host} : toLowerCase (str "J") = str "j".
Proof.
  rewrite toLowerCase_ascii; [reflexivity|].
  repeat constructor.
Qed.

(** C7. The normalizer maps the three reference inputs as specified:
    "SCP-173" to scp-173/scp, "SCP 049 - J" to scp-49-j/scp_variant, and
    SCP, en dash, redaction token to scp-unknown/scp. *)
Theorem normalize_reference_inputs `{Host} :
  normalizeIdentifier (str "SCP-173")
    = Some {| n_id := str "scp-173"; n_kind := scp |}
  /\ normalizeIdentifier (str "SCP 049 - J")
    = Some {| n_id := str "scp-49-j"; n_kind := scp_variant |}
  /\ normalizeIdentifier (str "SCP" ++ [8211] ++ REDACTED)
    = Some {| n_id := str "scp-unknown"; n_kind := scp |}.
Proof.
  split; [|split].
  - vm_compute. reflexivity.
  - run_normalize.
    change [74] with (str "J"). rewrite toLowerCase_J.
    vm_compute. reflexivity.
  - vm_compute. reflexivity.
Qed.

(** C1. On "SCP-001" the normalizer strips the leading zeros before it looks
    for 001, so the result is scp-1 of kind scp, not proposal_or_article. *)
Theorem normalize_001_is_plain_scp `{Host} :
  normalizeIdentifier (str "SCP-001")
    = Some {| n_id := str "scp-1"; n_kind := scp |}.
Proof. vm_compute. reflexivity. Qed.

(** The later test for 001 sees the id with its zeros already stripped: for
    every input that the grammar accepts with the numeric body 001, whatever
    its suffix, the kind is scp or scp_variant and the id starts scp-1. *)

Lemma match_at_bol_tail (s : jsstring) (r : regex) (i : nat) :
  match_at s (RSeq RBol r) (S i) = None.
Proof. reflexivity. Qed.

Lemma search_bol_tail (s : jsstring) (r : regex) : forall fuel i,
  search s (RSeq RBol r) fuel (S i) = None.
Proof.
  induction fuel as [|fuel IH]; intros i.
  - reflexivity.
  - cbn [search]. rewrite match_at_bol_tail. apply IH.
Qed.

(** An anchored pattern matches at the start of the input or not at all. *)
Lemma exec_bol (s : jsstring) (r : regex) :
  exec (RSeq RBol r) s = match_at s (RSeq RBol r) 0.
Proof.
  unfold exec, exec_from.
  replace (Nat.ltb (length s) 0) with false by (by destruct (length s)).
  destruct (length s - 0)%nat as [|fuel]; cbn [search].
  - by destruct (match_at _ _ _).
  - destruct (match_at s (RSeq RBol r) 0) eqn:E; [done|].
    apply search_bol_tail.
Qed.

Lemma test_001_after_strip (suffix : jsstring) :
  test RE_001 ([115; 99; 112; 45; 49] ++ suffix) = false.
Proof.
  unfold test. apply bool_decide_eq_false_2. intros [m Hm].
  unfold RE_001 in Hm. cbn [rseq] in Hm. rewrite exec_bol in Hm.
  unfold match_at in Hm. vm_compute str in Hm. simpl in Hm. discriminate.
Qed.

Lemma replace_scp_prefix (rest : jsstring) :
  replace_first RE_SCP_PREFIX (str "scp-") ([115; 99; 112; 45] ++ rest)
  = [115; 99; 112; 45] ++ rest.
Proof.
  unfold replace_first, RE_SCP_PREFIX. rewrite exec_bol.
  unfold match_at. vm_compute str. simpl. reflexivity.
Qed.

Lemma body_001_is_never_proposal `{Host} (raw : jsstring) (m : MatchResult) :
  let s := replace_all RE_SPACED_HYPHEN (str "-") (unifyDashes (trim raw)) in
  truthy raw = true ->
  exec RE_IDENT s = Some m ->
  group s m 1 = Some (str "001") ->
  exists n, normalizeIdentifier raw = Some n
    /\ (n_kind n = scp \/ n_kind n = scp_variant)
    /\ take 5 (n_id n) = str "scp-1".
Proof.
  intros s Hraw Hm Hbase. unfold normalizeIdentifier.
  rewrite Hraw. cbn [negb]. fold s. rewrite Hm, Hbase.
  change (default [] (Some (str "001"))) with (str "001").
  eval_in_goal (jsstring_eqb (str "001") REDACTED).
  eval_in_goal (or_else (replace_first RE_LEADING_ZEROS [] (str "001")) (str "0")).
  set (id := if truthy _ then _ else _).
  assert (Hid : exists suffix, id = [115; 99; 112; 45; 49] ++ suffix).
  { subst id. eval_in_goal (str "scp-").
    destruct (truthy (default [] (group s m 2)));
      eexists; cbn [app]; reflexivity. }
  destruct Hid as [suffix Hid]. rewrite Hid.
  change ([115; 99; 112; 45; 49] ++ suffix) with ([115; 99; 112; 45] ++ 49 :: suffix).
  rewrite (replace_scp_prefix (49 :: suffix)).
  change ([115; 99; 112; 45] ++ 49 :: suffix) with ([115; 99; 112; 45; 49] ++ suffix).
  rewrite (test_001_after_strip suffix).
  eexists. split; [reflexivity|]. cbn [n_kind n_id].
  split; [destruct (test RE_VARIANT _); auto | reflexivity].
Qed.

(** ** Page classifier *)

(** C6. For every URL and title the classifier returns the type and the
    literal confidence of the first rule of the decision list that matches:
    proposal path 0.6, article path 0.9, article title 0.6, series 0.6,
    hub 0.5, tale 0.4, otherwise non_scp 0.3 on the known wiki and unknown
    0.1 elsewhere. *)
Theorem classify_first_match `{Host} (urlObj : option URLObj)
    (documentTitle : option jsstring) :
  classify_spec (signals urlObj documentTitle)
    = Some (p_type (classifyPage urlObj documentTitle),
            p_confidence (classifyPage urlObj documentTitle)).
Proof.
  unfold classify_spec, classify_rules, signals, classifyPage.
  cbn [List.find fst snd sig_proposal_path sig_article_path sig_article_title
       sig_series sig_hub sig_tale sig_known_wiki].
  repeat match goal with
  | |- context [test ?r ?s] =>
    let b := fresh "b" in
    generalize (test r s); intros b
  end.
  generalize (jsstring_eqb
    (lookup_site (domainMap DEFAULT_CONFIG)
       (toLowerCase (or_else (hostname (default NO_URL urlObj)) []))) (str "scp-wiki")).
  intros known.
  repeat match goal with b : bool |- _ => destruct b end; reflexivity.
Qed.

(** ** Deduplication *)

Lemma scoreEntity_spec (e : Entity) : scoreEntity e = score_spec e.
Proof.
  unfold scoreEntity, score_spec, tier.
  destruct (e_confidence e), (e_context e); reflexivity.
Qed.

Lemma entity_key_spec (e : Entity) : entity_key e = key_spec e.
Proof.
  unfold entity_key, key_spec, or_null.
  destruct (e_url e) as [[|c u]|]; reflexivity.
Qed.

Section JsMapFacts.
Context {V : Type}.
Implicit Types (m : JsMap V) (k : jsstring) (v : V).

Lemma map_get_set k k' v m :
  map_get k' (map_set k v m) = if decide (k = k') then Some v else map_get k' m.
Proof.
  induction m as [|[k0 x] m IH]; simpl.
  - unfold jsstring_eqb. case_bool_decide; case_decide; congruence.
  - unfold jsstring_eqb in *.
    destruct (bool_decide (k0 = k)) eqn:E0; simpl; unfold jsstring_eqb.
    + apply bool_decide_eq_true in E0. subst k0.
      case_bool_decide; case_decide; congruence.
    + apply bool_decide_eq_false in E0.
      case_bool_decide; [case_decide; congruence|]. apply IH.
Qed.

Lemma map_get_None k m : map_get k m = None <-> k ∉ m.*1.
Proof.
  induction m as [|[k0 x] m IH]; simpl.
  - split; [intros _; apply not_elem_of_nil | done].
  - unfold jsstring_eqb. case_bool_decide.
    + subst. split; [done | intros []; left].
    + rewrite IH, not_elem_of_cons. split; [by intros ?; split | by intros []].
Qed.

Lemma map_set_keys_present k v m :
  k ∈ m.*1 -> (map_set k v m).*1 = m.*1.
Proof.
  induction m as [|[k0 x] m IH]; simpl.
  - intros Hin. by apply elem_of_nil in Hin.
  - unfold jsstring_eqb. case_bool_decide; simpl; [done|].
    intros Hin. apply elem_of_cons in Hin as [->|Hin]; [done|].
    f_equal. by apply IH.
Qed.

Lemma map_set_keys_fresh k v m :
  k ∉ m.*1 -> (map_set k v m).*1 = m.*1 ++ [k].
Proof.
  induction m as [|[k0 x] m IH]; simpl; [done|].
  unfold jsstring_eqb. intros Hnin. apply not_elem_of_cons in Hnin as [Hne Hnin].
  case_bool_decide; [congruence|]. simpl. f_equal. by apply IH.
Qed.

Lemma map_get_elem k v m : map_get k m = Some v -> (k, v) ∈ m.
Proof.
  induction m as [|[k0 x] m IH]; simpl; [done|].
  unfold jsstring_eqb. case_bool_decide.
  - intros [= ->]. subst. left.
  - intros Hg. right. by apply IH.
Qed.

Lemma elem_map_get k v m : NoDup m.*1 -> (k, v) ∈ m -> map_get k m = Some v.
Proof.
  induction m as [|[k0 x] m IH]; simpl.
  - intros _ Hin. by apply elem_of_nil in Hin.
  - intros Hnd Hin. apply NoDup_cons in Hnd as [Hk0 Hnd].
    unfold jsstring_eqb. apply elem_of_cons in Hin as [Heq|Hin].
    + injection Heq as -> ->. by rewrite bool_decide_eq_true_2.
    + case_bool_decide.
      * subst k0. exfalso. apply Hk0.
        apply (list_elem_of_fmap_2 fst) in Hin. exact Hin.
      * by apply IH.
Qed.
End JsMapFacts.

(** What holds of the map after the candidates [seen] have gone through the
    loop of [dedupeEntities]. *)
Record dedupe_inv (byKey : JsMap Entity) (seen : list Entity) : Prop := {
  inv_nodup : NoDup byKey.*1;
  inv_covers : forall c, c ∈ seen -> is_Some (map_get (entity_key c) byKey);
  inv_best : forall k e, map_get k byKey = Some e ->
    entity_key e = k /\
    exists before after, seen = before ++ e :: after
      /\ (forall c, c ∈ before -> entity_key c = k -> scoreEntity c < scoreEntity e)%nat
      /\ (forall c, c ∈ after -> entity_key c = k -> scoreEntity c <= scoreEntity e)%nat;
}.

Lemma dedupe_inv_nil : dedupe_inv [] [].
Proof.
  split.
  - constructor.
  - intros c Hc. by apply elem_of_nil in Hc.
  - intros k e Hg. discriminate.
Qed.

Lemma dedupe_inv_step byKey seen e :
  dedupe_inv byKey seen -> dedupe_inv (dedupe_step byKey e) (seen ++ [e]).
Proof.
  intros [Hnd Hcov Hbest]. unfold dedupe_step.
  destruct (map_get (entity_key e) byKey) as [existing|] eqn:Hget.
  - destruct (Hbest _ _ Hget) as (Hkey & before & after & -> & Hlt & Hle).
    assert (Hin : entity_key e ∈ byKey.*1).
    { apply map_get_elem in Hget. apply (list_elem_of_fmap_2 fst) in Hget. exact Hget. }
    destruct (Nat.ltb (scoreEntity existing) (scoreEntity e)) eqn:Hcmp.
    + apply Nat.ltb_lt in Hcmp. split.
      * by rewrite map_set_keys_present.
      * intros c Hc. rewrite map_get_set. case_decide; [eauto|].
        apply elem_of_app in Hc as [Hc|Hc]; [by apply Hcov|].
        apply list_elem_of_singleton in Hc. congruence.
      * intros k e' Hg. rewrite map_get_set in Hg. case_decide.
        -- injection Hg as <-. split; [done|].
           exists (before ++ existing :: after), []. split; [done|]. split.
           ++ intros c Hc Hk. subst k.
              apply elem_of_app in Hc as [Hc|Hc].
              ** specialize (Hlt c Hc Hk). lia.
              ** apply elem_of_cons in Hc as [->|Hc]; [lia|].
                 specialize (Hle c Hc Hk). lia.
           ++ intros c Hc. by apply elem_of_nil in Hc.
        -- destruct (Hbest _ _ Hg) as (Hk' & b' & a' & Heq & Hlt' & Hle').
           split; [done|]. exists b', (a' ++ [e]).
           split; [by rewrite Heq, <- app_assoc|]. split; [done|].
           intros c Hc Hk. apply elem_of_app in Hc as [Hc|Hc]; [by apply Hle'|].
           apply list_elem_of_singleton in Hc. subst c. congruence.
    + apply Nat.ltb_ge in Hcmp. split.
      * done.
      * intros c Hc. apply elem_of_app in Hc as [Hc|Hc]; [by apply Hcov|].
        apply list_elem_of_singleton in Hc. subst c. eauto.
      * intros k e' Hg.
        destruct (Hbest _ _ Hg) as (Hk' & b' & a' & Heq & Hlt' & Hle').
        split; [done|]. exists b', (a' ++ [e]).
        split; [by rewrite Heq, <- app_assoc|]. split; [done|].
        intros c Hc Hk. apply elem_of_app in Hc as [Hc|Hc]; [by apply Hle'|].
        apply list_elem_of_singleton in Hc. subst c.
        assert (e' = existing) by congruence. subst e'. lia.
  - apply map_get_None in Hget. split.
    + rewrite map_set_keys_fresh by done.
      apply NoDup_app. split; [done|]. split.
      * intros x Hx Hx'. apply list_elem_of_singleton in Hx'. congruence.
      * apply NoDup_singleton.
    + intros c Hc. rewrite map_get_set. case_decide; [eauto|].
      apply elem_of_app in Hc as [Hc|Hc]; [by apply Hcov|].
      apply list_elem_of_singleton in Hc. congruence.
    + intros k e' Hg. rewrite map_get_set in Hg. case_decide.
      * injection Hg as <-. split; [done|]. exists seen, []. split; [done|]. split.
        -- intros c Hc Hk. exfalso. apply Hget.
           destruct (Hcov c Hc) as [x Hx]. apply map_get_elem in Hx.
           apply (list_elem_of_fmap_2 fst) in Hx. simpl in Hx. congruence.
        -- intros c Hc. by apply elem_of_nil in Hc.
      * destruct (Hbest _ _ Hg) as (Hk' & b' & a' & Heq & Hlt' & Hle').
        split; [done|]. exists b', (a' ++ [e]).
        split; [by rewrite Heq, <- app_assoc|]. split; [done|].
        intros c Hc Hk. apply elem_of_app in Hc as [Hc|Hc]; [by apply Hle'|].
        apply list_elem_of_singleton in Hc. subst c. congruence.
Qed.

Lemma dedupe_inv_fold cs : forall byKey seen,
  dedupe_inv byKey seen -> dedupe_inv (foldl dedupe_step byKey cs) (seen ++ cs).
Proof.
  induction cs as [|c cs IH]; intros byKey seen Hinv; simpl.
  - by rewrite app_nil_r.
  - replace (seen ++ c :: cs) with ((seen ++ [c]) ++ cs) by by rewrite <- app_assoc.
    apply IH. by apply dedupe_inv_step.
Qed.

Lemma dedupe_inv_final cs : dedupe_inv (foldl dedupe_step [] cs) cs.
Proof. apply (dedupe_inv_fold cs [] []), dedupe_inv_nil. Qed.

Lemma keys_of_values (m : JsMap Entity) :
  (forall k e, (k, e) ∈ m -> entity_key e = k) ->
  entity_key <$> map_values m = m.*1.
Proof.
  unfold map_values. induction m as [|[k e] m IH]; intros Hk; [done|].
  rewrite !fmap_cons. simpl. f_equal.
  - apply Hk. left.
  - apply IH. intros k' e' Hin. apply Hk. by right.
Qed.

Lemma dedupe_value_get cs e :
  e ∈ dedupeEntities cs ->
  map_get (entity_key e) (foldl dedupe_step [] cs) = Some e.
Proof.
  intros Hin. destruct (dedupe_inv_final cs) as [Hnd _ Hbest].
  unfold dedupeEntities, map_values in Hin.
  apply list_elem_of_fmap in Hin as ([k e'] & -> & Hin). simpl.
  pose proof (elem_map_get _ _ _ Hnd Hin) as Hg.
  destruct (Hbest _ _ Hg) as [<- _]. exact Hg.
Qed.

Lemma dedupe_get_value cs k e :
  map_get k (foldl dedupe_step [] cs) = Some e -> e ∈ dedupeEntities cs.
Proof.
  intros Hg. apply map_get_elem in Hg.
  unfold dedupeEntities, map_values.
  apply (list_elem_of_fmap_2 snd) in Hg. exact Hg.
Qed.

Lemma dedupe_pair_same_key (e1 e2 : Entity) :
  e_context e1 = link -> e_context e2 = link ->
  e_confidence e1 = high -> e_confidence e2 = high ->
  e_id e1 = e_id e2 -> e_url e1 = e_url e2 ->
  dedupeEntities [e1; e2] = [e1].
Proof.
  intros Hc1 Hc2 Hf1 Hf2 Hid Hurl.
  unfold dedupeEntities. simpl. unfold dedupe_step at 2. simpl.
  unfold dedupe_step. simpl.
  assert (Hk : entity_key e2 = entity_key e1).
  { unfold entity_key. by rewrite Hid, Hurl. }
  rewrite Hk. unfold jsstring_eqb. rewrite bool_decide_eq_true_2 by done.
  unfold scoreEntity. rewrite Hc1, Hc2, Hf1, Hf2. reflexivity.
Qed.

(** A link whose resolved path encodes an identifier yields one candidate,
    of confidence high, whatever its text. *)
Lemma scan_link_path_encoded `{Host} (baseHref : jsstring) (a : Element)
    (h : jsstring) (u : URLObj) (m : MatchResult) (norm : Normalized) :
  let path := unifyDashes (toLowerCase (or_else (pathname u) [])) in
  elementExcluded a (excludeSelectors DEFAULT_CONFIG) = false ->
  or_null (el_href a) = Some h ->
  safeURL h baseHref = Some u ->
  exec RE_LINK_PATH path = Some m ->
  normalizeIdentifier (str "SCP-" ++ default [] (group path m 1)) = Some norm ->
  exists text,
    scan_link baseHref a
    = [{| e_id := n_id norm; e_kind := n_kind norm; e_context := link;
          e_url := or_null (Some (href u)); e_displayText := text;
          e_element := Some (el_ref a); e_confidence := high |}].
Proof.
  intros path Hex Hhref Hurl Hm Hnorm. unfold scan_link.
  rewrite Hex, Hhref, Hurl. fold path. rewrite Hm, Hnorm.
  eexists. reflexivity.
Qed.

(** Two candidates with one key: the second replaces the first exactly
    when it scores strictly more. *)
Lemma dedupe_pair (e1 e2 : Entity) :
  entity_key e2 = entity_key e1 ->
  dedupeEntities [e1; e2]
  = [if Nat.ltb (scoreEntity e1) (scoreEntity e2) then e2 else e1].
Proof.
  intros Hk. unfold dedupeEntities. cbn [foldl].
  unfold dedupe_step at 2. cbn [map_get map_set].
  unfold dedupe_step. rewrite Hk. cbn [map_get].
  unfold jsstring_eqb. rewrite bool_decide_eq_true_2 by done.
  destruct (Nat.ltb _ _); cbn [map_set]; unfold jsstring_eqb;
    rewrite ?bool_decide_eq_true_2 by done; reflexivity.
Qed.

(** The candidate of a link: its context, its URL, and where its
    confidence comes from. *)
Lemma scan_link_single `{Host} (baseHref : jsstring) (a : Element)
    (h : jsstring) (u : URLObj) (c : Entity) :
  let path := unifyDashes (toLowerCase (or_else (pathname u) [])) in
  or_null (el_href a) = Some h ->
  safeURL h baseHref = Some u ->
  scan_link baseHref a = [c] ->
  e_context c = link
  /\ e_url c = or_null (Some (href u))
  /\ e_confidence c
     = match exec RE_LINK_PATH path with
       | Some m =>
         if normalizeIdentifier (str "SCP-" ++ default [] (group path m 1))
           is Some _
         then high else medium
       | None => medium
       end.
Proof.
  intros path Hh Hu Hscan. unfold scan_link in Hscan.
  destruct (elementExcluded a _); [discriminate|].
  rewrite Hh, Hu in Hscan. fold path in Hscan.
  assert (Htext : scan_link_text a u = [c] ->
    e_context c = link /\ e_url c = or_null (Some (href u))
    /\ e_confidence c = medium).
  { unfold scan_link_text. cbv zeta. destruct (negb _); [discriminate|].
    destruct (normalizeIdentifier _); [|discriminate].
    intros [= <-]. done. }
  destruct (exec RE_LINK_PATH path) as [m|]; [|by apply Htext].
  destruct (normalizeIdentifier _) as [norm|]; [|by apply Htext].
  injection Hscan as <-. done.
Qed.

(** C5 (amended). The output of dedupe has at most one entity per key;
    every candidate's key is represented; the entity kept for a key is a
    candidate that scores strictly more than every earlier candidate of
    that key and at least as much as every later one (the first of the
    best).  Two link candidates with the same id and URL reduce to exactly
    one entity: the second when its confidence is strictly higher, the
    first otherwise, so its confidence is the higher of the two.  Two links
    that resolve to the same URL, whose path encodes an id, give exactly one
    entity, of confidence high, whatever their texts; and in general two
    links that resolve to the same URL and yield the same id give exactly
    one entity, the candidate of the first, whose confidence is high when
    the path of the URL encodes an id and medium when the id was read from
    the link texts. *)
Theorem dedupe_keeps_first_best `{Host} (candidates : list Entity) :
  NoDup (key_spec <$> dedupeEntities candidates)
  /\ (forall c, c ∈ candidates ->
        exists e, e ∈ dedupeEntities candidates /\ key_spec e = key_spec c)
  /\ (forall e, e ∈ dedupeEntities candidates ->
        exists before after, candidates = before ++ e :: after
          /\ (forall c, c ∈ before -> key_spec c = key_spec e ->
                (score_spec c < score_spec e)%nat)
          /\ (forall c, c ∈ after -> key_spec c = key_spec e ->
                (score_spec c <= score_spec e)%nat))
  /\ (forall e1 e2,
        e_context e1 = link -> e_context e2 = link ->
        e_id e1 = e_id e2 -> e_url e1 = e_url e2 ->
        exists e,
          dedupeEntities [e1; e2] = [e]
          /\ e = (if Nat.ltb (tier (e_confidence e1)) (tier (e_confidence e2))
                  then e2 else e1)
          /\ tier (e_confidence e)
             = Nat.max (tier (e_confidence e1)) (tier (e_confidence e2)))
  /\ (forall baseHref a1 a2 h1 h2 u m norm,
        let path := unifyDashes (toLowerCase (or_else (pathname u) [])) in
        elementExcluded a1 (excludeSelectors DEFAULT_CONFIG) = false ->
        elementExcluded a2 (excludeSelectors DEFAULT_CONFIG) = false ->
        or_null (el_href a1) = Some h1 -> or_null (el_href a2) = Some h2 ->
        safeURL h1 baseHref = Some u -> safeURL h2 baseHref = Some u ->
        exec RE_LINK_PATH path = Some m ->
        normalizeIdentifier (str "SCP-" ++ default [] (group path m 1)) = Some norm ->
        exists e,
          dedupeEntities (scan_link baseHref a1 ++ scan_link baseHref a2) = [e]
          /\ e_confidence e = high /\ e_context e = link
          /\ e_id e = n_id norm /\ e_url e = or_null (Some (href u)))
  /\ (forall baseHref a1 a2 h1 h2 u c1 c2,
        let path := unifyDashes (toLowerCase (or_else (pathname u) [])) in
        or_null (el_href a1) = Some h1 -> or_null (el_href a2) = Some h2 ->
        safeURL h1 baseHref = Some u -> safeURL h2 baseHref = Some u ->
        scan_link baseHref a1 = [c1] -> scan_link baseHref a2 = [c2] ->
        e_id c1 = e_id c2 ->
        dedupeEntities (scan_link baseHref a1 ++ scan_link baseHref a2) = [c1]
        /\ e_context c1 = link
        /\ e_url c1 = or_null (Some (href u))
        /\ e_confidence c1
           = match exec RE_LINK_PATH path with
             | Some m =>
               if normalizeIdentifier (str "SCP-" ++ default [] (group path m 1))
                 is Some _
               then high else medium
             | None => medium
             end).
Proof.
  destruct (dedupe_inv_final candidates) as [Hnd Hcov Hbest].
  split; [|split; [|split; [|split; [|split]]]].
  - replace (key_spec <$> dedupeEntities candidates)
      with (entity_key <$> dedupeEntities candidates).
    + unfold dedupeEntities. rewrite keys_of_values; [done|].
      intros k e Hin. apply (elem_map_get _ _ _ Hnd) in Hin.
      by destruct (Hbest _ _ Hin).
    + apply list_fmap_ext. intros _ e _. apply entity_key_spec.
  - intros c Hc. destruct (Hcov c Hc) as [e He]. exists e. split.
    + by eapply dedupe_get_value.
    + destruct (Hbest _ _ He) as [Hk _]. by rewrite <- !entity_key_spec.
  - intros e He. apply dedupe_value_get in He.
    destruct (Hbest _ _ He) as (_ & before & after & Heq & Hlt & Hle).
    exists before, after. split; [done|].
    split; intros c Hc Hk; rewrite <- !scoreEntity_spec;
      rewrite <- !entity_key_spec in Hk; eauto.
  - intros e1 e2 Hc1 Hc2 Hid Hurl.
    assert (Hk : entity_key e2 = entity_key e1).
    { unfold entity_key. by rewrite Hid, Hurl. }
    rewrite (dedupe_pair e1 e2 Hk), !scoreEntity_spec.
    unfold score_spec. rewrite Hc1, Hc2.
    eexists. split; [reflexivity|].
    destruct (e_confidence e1) eqn:E1, (e_confidence e2) eqn:E2;
      cbn [tier Nat.add Nat.ltb Nat.leb Nat.max];
      (split; [reflexivity|]); rewrite ?E1, ?E2; reflexivity.
  - intros baseHref a1 a2 h1 h2 u m norm path Hx1 Hx2 Hh1 Hh2 Hu1 Hu2 Hm Hnorm.
    destruct (scan_link_path_encoded baseHref a1 h1 u m norm Hx1 Hh1 Hu1 Hm Hnorm)
      as [t1 ->].
    destruct (scan_link_path_encoded baseHref a2 h2 u m norm Hx2 Hh2 Hu2 Hm Hnorm)
      as [t2 ->].
    eexists. split; [by apply dedupe_pair_same_key|]. done.
  - intros baseHref a1 a2 h1 h2 u c1 c2 path Hh1 Hh2 Hu1 Hu2 Hs1 Hs2 Hid.
    destruct (scan_link_single baseHref a1 h1 u c1 Hh1 Hu1 Hs1) as (Hc1 & Hl1 & Hf1).
    destruct (scan_link_single baseHref a2 h2 u c2 Hh2 Hu2 Hs2) as (Hc2 & Hl2 & Hf2).
    fold path in Hf1, Hf2.
    split; [|done].
    rewrite Hs1, Hs2. cbn [app].
    assert (Hk : entity_key c2 = entity_key c1).
    { unfold entity_key. by rewrite Hid, Hl1, Hl2. }
    rewrite (dedupe_pair c1 c2 Hk), !scoreEntity_spec.
    unfold score_spec. rewrite Hc1, Hc2, Hf1, Hf2.
    by rewrite Nat.ltb_irrefl.
Qed.

(** C5, at the candidates of the example page: the two links point to one
    article under the texts SCP-173 and Peanut, and the prose mentions
    SCP-173 and SCP-049-J. *)
Lemma dedupe_keeps_first_best_witness :
  exists ls ins,
    scanLinks (H := simple_host) wiki_page (str "https://scp-wiki.wikidot.com/test")
      = Ok ls
    /\ scanInline (H := simple_host) wiki_page (includeSelectors DEFAULT_CONFIG)
         (maxNodes DEFAULT_CONFIG) = Ok ins
    /\ length (ls ++ ins) = 4%nat
    /\ length (dedupeEntities (ls ++ ins)) = 3%nat
    /\ NoDup (key_spec <$> dedupeEntities (ls ++ ins))
    /\ exists e,
         dedupeEntities ls = [e]
         /\ e_confidence e = high /\ e_context e = link
         /\ e_id e = str "scp-173"
         /\ e_displayText e = Some (str "SCP-173")
         /\ e_url e = Some (str "https://scp-wiki.wikidot.com/scp-173").
Proof.
  destruct (scanLinks (H := simple_host) wiki_page _) as [ls|] eqn:Hls;
    [|vm_compute in Hls; discriminate].
  destruct (scanInline (H := simple_host) wiki_page _ _) as [ins|] eqn:Hins;
    [|vm_compute in Hins; discriminate].
  exists ls, ins. split; [reflexivity|]. split; [reflexivity|].
  destruct (dedupe_keeps_first_best (H := simple_host) (ls ++ ins))
    as (Hnd & _ & _ & Hpair & _).
  vm_compute in Hls. injection Hls as <-.
  vm_compute in Hins. injection Hins as <-.
  split; [reflexivity|]. split; [vm_compute; reflexivity|]. split; [exact Hnd|].
  match goal with
  | |- context [dedupeEntities [?e1; ?e2]] =>
    destruct (Hpair e1 e2) as (e & -> & -> & _); try reflexivity
  end.
  eexists. split; [reflexivity|]. vm_compute. repeat split; reflexivity.
Defined.

(** The last clause of C5 as first stated does not hold: two links to a
    page whose path names no SCP, with the texts SCP-173 and scp 173, are
    two link candidates with the same URL and the same id and different
    texts, and dedupe to one entity of confidence medium. *)
Lemma text_links_dedupe_to_medium :
  exists c1 c2 e,
    scan_link (H := simple_host) (str "https://scp-wiki.wikidot.com/test")
      (peanut_link 0 "SCP-173") = [c1]
    /\ scan_link (H := simple_host) (str "https://scp-wiki.wikidot.com/test")
         (peanut_link 1 "scp 173") = [c2]
    /\ e_context c1 = link /\ e_context c2 = link
    /\ e_url c1 = Some (str "https://scp-wiki.wikidot.com/peanut")
    /\ e_url c2 = e_url c1
    /\ e_id c1 = str "scp-173" /\ e_id c2 = e_id c1
    /\ e_displayText c1 <> e_displayText c2
    /\ dedupeEntities [c1; c2] = [e]
    /\ e_confidence e = medium.
Proof.
  eexists _, _, _.
  split; [vm_compute; reflexivity|]. split; [vm_compute; reflexivity|].
  repeat split; try (vm_compute; reflexivity).
  vm_compute. discriminate.
Qed.

(** ** Running computations *)

Lemma set_effects_id w : set_effects (effects w) w = w.
Proof. by destruct w. Qed.

Lemma set_heap_id w : set_heap (heap w) w = w.
Proof. by destruct w. Qed.

Ltac run_m :=
  unfold mbind, M_bind, mret, M_ret, try_catch, gets, modify, lift, call,
    perform, assign_state;
  simpl.

Lemma getResults_run w :
  getResults w
  = (Ok (length (heap w) + 2)%nat, set_heap (heap w ++ results_objects w) w).
Proof.
  unfold getResults, getPageClassification, getEntities, alloc, gets, results_objects.
  unfold mbind, M_bind. simpl.
  rewrite !length_app. simpl. rewrite <- !app_assoc. simpl.
  replace (length (heap w) + 1 + 1)%nat with (length (heap w) + 2)%nat by lia.
  replace (length (heap w) + 1)%nat with (S (length (heap w))) by lia.
  reflexivity.
Qed.

(** ** Emitter *)

Lemma emit_loop_run event payload cbs : forall w,
  for_each cbs (fun cb => try_catch (invoke event payload cb) (fun _ => mret tt)) w
  = (Ok tt, set_effects (effects w ++ (invocation event payload <$> cbs)) w).
Proof.
  induction cbs as [|cb cbs IH]; intros w; simpl.
  - rewrite app_nil_r, set_effects_id. reflexivity.
  - unfold mbind, M_bind at 1.
    assert (Hcb : try_catch (invoke event payload cb) (fun _ => mret tt) w
                  = (Ok tt, set_effects (effects w ++ [invocation event payload cb]) w)).
    { unfold invoke, invocation. run_m.
      destruct (cb_run cb payload); reflexivity. }
    rewrite Hcb, IH. simpl. rewrite <- app_assoc. reflexivity.
Qed.

Lemma emit_run event payload w :
  Emitter_emit event payload w
  = (Ok tt, set_effects
              (effects w ++ (invocation event payload <$> subscribers w event)) w).
Proof.
  unfold Emitter_emit, subscribers. unfold mbind, M_bind at 1. unfold gets.
  destruct (listeners w !! event) as [cbs|]; simpl.
  - destruct cbs as [|cb cbs]; simpl.
    + rewrite app_nil_r, set_effects_id. reflexivity.
    + apply (emit_loop_run event payload (cb :: cbs)).
  - rewrite app_nil_r, set_effects_id. reflexivity.
Qed.

(** C10. An emission returns normally whatever the subscribers do: each
    subscriber of the event is called once, in subscription order, with the
    one payload, whether or not an earlier one threw, and nothing of the
    world changes but the record of those calls, so the controller's state
    is as it was. *)
Theorem emit_swallows_callback_exceptions (event : jsstring) (payload : loc)
    (w : World) :
  exists w',
    Emitter_emit event payload w = (Ok tt, w')
    /\ effects w' = effects w ++ (invocation event payload <$> subscribers w event)
    /\ state w' = state w
    /\ heap w' = heap w
    /\ listeners w' = listeners w
    /\ disposed w' = disposed w.
Proof.
  eexists. split; [apply emit_run|]. by repeat split.
Qed.

(** ** Disposal *)

Arguments classifyPage : simpl never.
Arguments scanLinks : simpl never.
Arguments scanInline : simpl never.
Arguments dedupeEntities : simpl never.
Arguments isAllowedDomain : simpl never.
Arguments current_url : simpl never.
Arguments str : simpl never.
Arguments getResults : simpl never.
Arguments Emitter_emit : simpl never.

(** The world that [dispose] leaves. *)
Lemma dispose_run w :
  dispose w
  = (Ok tt,
     set_listeners ∅
       (if observer w
        then set_observer false
               (set_connected false
                  (set_effects (effects w ++ [EffDisconnect]) (set_disposed true w)))
        else set_disposed true w)).
Proof.
  unfold dispose, Emitter_removeAll, observer_disconnect, logger_debug. run_m.
  destruct (observer w); simpl; [|reflexivity].
  destruct (lg_debug (logger w) (str "observer:disconnected")); reflexivity.
Qed.

Lemma compute_disposed `{Host} env w :
  disposed w = true -> compute env w = (Ok tt, w).
Proof. intros Hd. unfold compute. run_m. by rewrite Hd. Qed.

(** A disposed controller with no observer stays so under every event, and
    an event changes neither its state nor what it has done to the outside;
    the store only grows. *)
Lemma step_after_dispose `{Host} ev w :
  disposed w = true -> observer w = false ->
  let w' := snd (step ev w) in
  disposed w' = true /\ observer w' = false
  /\ state w' = state w /\ effects w' = effects w
  /\ heap w `prefix_of` heap w'.
Proof.
  intros Hd Ho. destruct ev; cbn [step].
  - unfold scheduleCompute, logger_debug. run_m.
    destruct (microtask w); simpl; [|done].
    destruct (lg_debug (logger w) (str "autostart:scheduled")); simpl; done.
  - unfold scheduleCompute. run_m. destruct (connected w); simpl; done.
  - run_m. destruct (timer w); simpl; [|done].
    rewrite compute_disposed by done. simpl. done.
  - unfold refresh, logger_debug. run_m.
    destruct (lg_debug (logger w) (str "refresh:manual")); simpl;
      rewrite compute_disposed by done; done.
  - unfold configure, refresh, logger_debug. run_m.
    destruct (lg_debug (logger w) (str "refresh:manual")); simpl;
      rewrite compute_disposed by done; done.
  - rewrite dispose_run, Ho. simpl. done.
  - unfold on, Emitter_on. run_m. done.
  - unfold off, Emitter_off. run_m. destruct (listeners w !! event); simpl; done.
  - unfold getPageClassification, alloc. run_m.
    repeat split; try done. by apply prefix_app_r.
  - unfold getEntities, alloc. run_m.
    repeat split; try done. by apply prefix_app_r.
  - unfold mbind, M_bind. rewrite getResults_run. simpl.
    repeat split; try done. by apply prefix_app_r.
Qed.

Lemma run_after_dispose `{Host} evs : forall w,
  disposed w = true -> observer w = false ->
  let w' := run evs w in
  disposed w' = true /\ observer w' = false
  /\ state w' = state w /\ effects w' = effects w
  /\ heap w `prefix_of` heap w'.
Proof.
  induction evs as [|ev evs IH]; intros w Hd Ho; simpl.
  - done.
  - destruct (step_after_dispose ev w Hd Ho) as (Hd' & Ho' & Hs & He & Hh).
    destruct (IH _ Hd' Ho') as (Hd'' & Ho'' & Hs' & He' & Hh').
    unfold run in *. simpl in *. repeat split; try congruence.
    by etrans.
Qed.

(** C8. [dispose] returns normally and leaves the controller disposed, with
    no subscriber, no observer and the observer disconnected; a second
    [dispose] changes nothing; and whatever happens afterwards (a timer or
    a deferred autostart that was pending, a mutation, any API call) leaves
    the state as it was, keeps every object of the store, and calls no
    subscriber. *)
Theorem dispose_is_final `{Host} (w : World) (evs : list Event) :
  (connected w = true -> observer w = true) ->
  let w' := snd (dispose w) in
  fst (dispose w) = Ok tt
  /\ disposed w' = true
  /\ listeners w' = ∅
  /\ observer w' = false
  /\ connected w' = false
  /\ (observer w = true -> effects w' = effects w ++ [EffDisconnect])
  /\ dispose w' = (Ok tt, w')
  /\ state (run evs w') = state w
  /\ heap w `prefix_of` heap (run evs w')
  /\ effects (run evs w') = effects w'
  /\ disposed (run evs w') = true.
Proof.
  intros Hconn. rewrite dispose_run. simpl.
  set (w' := set_listeners ∅ _).
  assert (Hd : disposed w' = true) by (subst w'; destruct (observer w); reflexivity).
  assert (Ho : observer w' = false).
  { subst w'. destruct (observer w) eqn:E; simpl; [reflexivity|exact E]. }
  destruct (run_after_dispose evs w' Hd Ho) as (Hd' & _ & Hs & He & Hh).
  split; [done|]. split; [done|].
  split; [subst w'; destruct (observer w); done|].
  split; [done|].
  split.
  { subst w'. destruct (observer w) eqn:E; simpl; [done|].
    destruct (connected w); [by specialize (Hconn eq_refl)|done]. }
  split; [intros E; subst w'; rewrite E; done|].
  split.
  { rewrite dispose_run, Ho. f_equal. subst w'.
    destruct (observer w); reflexivity. }
  split; [rewrite Hs; subst w'; destruct (observer w); done|].
  split; [|done].
  etrans; [|exact Hh]. subst w'. destruct (observer w); done.
Qed.

(** C8, at a detector with an observer, a subscriber and a pending
    debounce timer, disposed and then poked in every way. *)
Lemma dispose_is_final_witness :
  let w := run (H := simple_host)
             [On (str "update") (quiet_callback 1); Microtask]
             (createDetector NO_OPTIONS browser_env) in
  let evs := [TimerFired wiki_env; Mutation; Refresh wiki_env;
              On (str "update") (quiet_callback 2); TimerFired wiki_env;
              Dispose; GetResults] in
  let w' := snd (dispose w) in
  (timer w = true /\ connected w = true
   /\ subscribers w (str "update") = [quiet_callback 1])
  /\ fst (dispose w) = Ok tt
  /\ disposed w' = true
  /\ listeners w' = ∅
  /\ observer w' = false
  /\ connected w' = false
  /\ (observer w = true -> effects w' = effects w ++ [EffDisconnect])
  /\ dispose w' = (Ok tt, w')
  /\ state (run (H := simple_host) evs w') = state w
  /\ heap w `prefix_of` heap (run (H := simple_host) evs w')
  /\ effects (run (H := simple_host) evs w') = effects w'
  /\ disposed (run (H := simple_host) evs w') = true.
Proof.
  intros w evs w'. split.
  - vm_compute. repeat split; reflexivity.
  - apply (dispose_is_final (H := simple_host) w evs).
    intros _. vm_compute. reflexivity.
Defined.

(** ** Reading the state through a changed store *)

Lemma read_entities_agree (h h' : list obj) (n : nat) (items : list loc)
    (es : list Entity) :
  (forall l, (l < n)%nat -> h' !! l = h !! l) ->
  n = length h ->
  mapM (read_entity h) items = Some es ->
  mapM (read_entity h') items = Some es.
Proof.
  intros Hagree ->. revert es.
  induction items as [|l items IH]; intros es Hes; simpl in *; [done|].
  destruct (read_entity h l) as [e|] eqn:He; simpl in *; [|done].
  destruct (mapM (read_entity h) items) as [es'|] eqn:Hes'; simpl in *; [|done].
  assert (read_entity h' l = Some e) as ->.
  { unfold read_entity in *. rewrite Hagree; [done|].
    destruct (h !! l) eqn:Hl; [|done]. by apply lookup_lt_Some in Hl. }
  simpl. by rewrite (IH es' eq_refl).
Qed.

Lemma read_state_agree (w w' : World) :
  wf w ->
  state w' = state w ->
  (forall l, (l < length (heap w))%nat -> heap w' !! l = heap w !! l) ->
  read_state w' = read_state w.
Proof.
  intros [r Hr] Hs Hagree. unfold read_state in *. rewrite Hs.
  destruct (read_page (heap w) (page (state w))) as [pg|] eqn:Hpg; simpl in *; [|done].
  destruct (read_array (heap w) (entities (state w))) as [es|] eqn:Hes; simpl in *; [|done].
  assert (read_page (heap w') (page (state w)) = Some pg) as ->.
  { unfold read_page in *. rewrite Hagree; [done|].
    destruct (heap w !! page (state w)) eqn:Hl; [|done]. by apply lookup_lt_Some in Hl. }
  assert (read_array (heap w') (entities (state w)) = Some es) as ->; [|done].
  unfold read_array in *.
  destruct (heap w !! entities (state w)) as [o|] eqn:Hl; [|done].
  rewrite Hagree by by apply lookup_lt_Some in Hl. rewrite Hl.
  destruct o; try done. by eapply read_entities_agree.
Qed.

Lemma prefix_agree (h h' : list obj) :
  h `prefix_of` h' -> forall l, (l < length h)%nat -> h' !! l = h !! l.
Proof. intros [k ->] l Hl. by apply lookup_app_l. Qed.

(** ** A compute cycle *)

Lemma alloc_all_run os : forall w,
  alloc_all os w
  = (Ok (seq (length (heap w)) (length os)), set_heap (heap w ++ os) w).
Proof.
  induction os as [|o os IH]; intros w; simpl.
  - unfold mret, M_ret. simpl. rewrite app_nil_r, set_heap_id. reflexivity.
  - unfold mbind, M_bind at 1. unfold alloc at 1.
    unfold mbind, M_bind at 1. rewrite IH. simpl.
    rewrite length_app, <- app_assoc. simpl.
    replace (length (heap w) + 1)%nat with (S (length (heap w))) by lia.
    reflexivity.
Qed.

(** Whatever [collect] does, it leaves the world as it found it but for
    new objects in the store. *)
Lemma collect_frame `{Host} d urlObj w :
  exists extra, snd (collect d urlObj w) = set_heap (heap w ++ extra) w.
Proof.
  unfold collect, logger_debug, alloc. run_m.
  destruct (scanLinks d (href urlObj)) as [ls|e]; simpl; [|by eexists].
  destruct (scanInline d _ _) as [ins|e]; simpl; [|by eexists].
  destruct (lg_debug (logger w) (str "compute:scan")); simpl; [by eexists|].
  rewrite alloc_all_run. simpl.
  destruct (lg_debug (logger w) (str "compute:dedupe")); simpl;
    rewrite <- !app_assoc; by eexists.
Qed.

(** [install] cannot throw: in the allowed branch every exception comes
    from [collect], before the first write to the state. *)
Lemma install_run pg all now w :
  let ws := set_state {| page := pg; entities := all; lastUpdatedAt := now |} w in
  install pg all now w
  = (Ok tt,
     set_effects
       (effects w ++ (invocation (str "update") (length (heap w) + 2)
                        <$> subscribers w (str "update")))
       (set_heap (heap w ++ results_objects ws) ws)).
Proof.
  unfold install, assign_state, modify, mbind, M_bind. cbv beta iota.
  rewrite getResults_run. rewrite emit_run. reflexivity.
Qed.

Lemma report_run e action w :
  report e action w
  = (match handleError (errorHandler w) e (str action) with
     | None => Ok tt
     | Some e' => Throw e'
     end,
     set_effects (effects w ++ [EffHandleError e (str action)]) w).
Proof.
  unfold report. run_m.
  destruct (handleError (errorHandler w) e (str action)); reflexivity.
Qed.

Lemma refresh_compute `{Host} env w : refresh env w = compute env w.
Proof.
  unfold refresh, logger_debug. run_m.
  destruct (lg_debug (logger w) (str "refresh:manual")); reflexivity.
Qed.

Lemma safe_handler_returns lg e action :
  handleError (createSafeErrorHandler lg) e action = None.
Proof. unfold createSafeErrorHandler. simpl. by destruct (lg_error lg). Qed.

Lemma compute_live `{Host} env w :
  disposed w = false ->
  compute env w
  = match compute_body env w with
    | (Ok a, w') => (Ok a, w')
    | (Throw e, w') => report e "compute" w'
    end.
Proof.
  intros Hd. unfold compute, try_catch, gets, mbind, M_bind.
  cbv beta iota. rewrite Hd. reflexivity.
Qed.

Lemma compute_body_allowed `{Host} env w d :
  env_document env = Some d ->
  isAllowedDomain (toLowerCase (or_else (hostname (current_url env)) [])) (cfg w) = true ->
  compute_body env w
  = match collect d (current_url env) w with
    | (Ok (pg, all), w1) => install pg all (env_now env) w1
    | (Throw e, w1) => (Throw e, w1)
    end.
Proof.
  intros Hdoc Hallow. unfold compute_body. rewrite Hdoc.
  unfold gets, mbind, M_bind. cbv beta iota. rewrite Hallow. cbn [negb].
  destruct (collect d (current_url env) w) as [[[pg all]|e] w1]; reflexivity.
Qed.

Lemma compute_body_denied `{Host} env w d :
  env_document env = Some d ->
  isAllowedDomain (toLowerCase (or_else (hostname (current_url env)) [])) (cfg w) = false ->
  compute_body env w = clear_results d (current_url env) (env_now env) w.
Proof.
  intros Hdoc Hallow. unfold compute_body. rewrite Hdoc.
  unfold gets, mbind, M_bind. cbv beta iota. rewrite Hallow. reflexivity.
Qed.

(** C3 (amended). When the part of a cycle that precedes the first write to
    the state throws, the exception goes to the error handler with the
    action compute, the state and every object of the store are as before
    the cycle, and compute and refresh return normally provided the handler
    does; the default handler always does. *)
Theorem compute_failure_leaves_state `{Host} (env : Env) (w : World)
    (d : Document) (e : exn) :
  disposed w = false ->
  env_document env = Some d ->
  isAllowedDomain (toLowerCase (or_else (hostname (current_url env)) [])) (cfg w) = true ->
  fst (collect d (current_url env) w) = Throw e ->
  let w' := snd (compute env w) in
  effects w' = effects w ++ [EffHandleError e (str "compute")]
  /\ state w' = state w
  /\ heap w `prefix_of` heap w'
  /\ (wf w -> read_state w' = read_state w)
  /\ (handleError (errorHandler w) e (str "compute") = None ->
      fst (compute env w) = Ok tt /\ fst (refresh env w) = Ok tt)
  /\ (forall lg, errorHandler w = createSafeErrorHandler lg ->
      fst (compute env w) = Ok tt /\ fst (refresh env w) = Ok tt)
  /\ snd (refresh env w) = w'.
Proof.
  intros Hd Hdoc Hallow Hthrow. rewrite refresh_compute.
  rewrite (compute_live env w Hd), (compute_body_allowed env w d Hdoc Hallow).
  destruct (collect_frame d (current_url env) w) as [extra Hw1].
  destruct (collect d (current_url env) w) as [[[pg all]|e'] w1]; simpl in *;
    [discriminate|].
  injection Hthrow as ->. subst w1. rewrite report_run. simpl.
  assert (Hpre : heap w `prefix_of` heap w ++ extra) by by apply prefix_app_r.
  split; [done|]. split; [done|]. split; [done|]. split.
  { intros Hwf. apply read_state_agree; [done|done|]. simpl.
    by apply prefix_agree. }
  split; [intros ->; done|]. split; [|done].
  intros lg ->. by rewrite safe_handler_returns.
Qed.

(** C3, at a page whose selector query throws, with the default handler. *)
Lemma compute_failure_leaves_state_witness :
  let w := createDetector manual broken_env in
  let w' := snd (compute (H := simple_host) broken_env w) in
  effects w' = effects w ++ [EffHandleError 1%nat (str "compute")]
  /\ state w' = state w
  /\ heap w `prefix_of` heap w'
  /\ (wf w -> read_state w' = read_state w)
  /\ (handleError (errorHandler w) 1%nat (str "compute") = None ->
      fst (compute (H := simple_host) broken_env w) = Ok tt
      /\ fst (refresh (H := simple_host) broken_env w) = Ok tt)
  /\ (forall lg, errorHandler w = createSafeErrorHandler lg ->
      fst (compute (H := simple_host) broken_env w) = Ok tt
      /\ fst (refresh (H := simple_host) broken_env w) = Ok tt)
  /\ snd (refresh (H := simple_host) broken_env w) = w'.
Proof.
  intros w w'.
  apply (compute_failure_leaves_state (H := simple_host) broken_env w broken_page 1%nat);
    vm_compute; reflexivity.
Defined.

(** C3 as stated fails: an injected error handler that throws lets its
    exception out of compute and of refresh. *)
Lemma throwing_handler_escapes :
  let w := createDetector (with_errorHandler (throwing_handler 7%nat) manual) broken_env in
  fst (collect (H := simple_host) broken_page
         (current_url (H := simple_host) broken_env) w) = Throw 1%nat
  /\ fst (compute (H := simple_host) broken_env w) = Throw 7%nat
  /\ fst (refresh (H := simple_host) broken_env w) = Throw 7%nat.
Proof. vm_compute. repeat split; reflexivity. Qed.

(** ** The allowlist *)

Lemma lookup_total_at_end (h : list obj) (o : obj) (rest : list obj) :
  (h ++ o :: rest) !!! length h = o.
Proof. apply list_lookup_total_correct. by apply list_lookup_middle. Qed.

Lemma results_after_clear (h : list obj) (c a : obj) (now : Z) :
  ((h ++ [c]) ++ [a])
    ++ [((h ++ [c]) ++ [a]) !!! length h;
        (((h ++ [c]) ++ [a]) ++ [((h ++ [c]) ++ [a]) !!! length h])
          !!! length (h ++ [c]);
        OResults (length ((h ++ [c]) ++ [a])) (S (length ((h ++ [c]) ++ [a]))) now]
  = h ++ [c; a; c; a; OResults (length h + 2) (length h + 3) now].
Proof.
  assert (E1 : ((h ++ [c]) ++ [a]) !!! length h = c).
  { rewrite <- app_assoc. apply lookup_total_at_end. }
  rewrite E1.
  assert (E2 : (((h ++ [c]) ++ [a]) ++ [c]) !!! length (h ++ [c]) = a).
  { rewrite <- (app_assoc (h ++ [c])). apply lookup_total_at_end. }
  rewrite E2. rewrite !length_app. simpl. rewrite <- !app_assoc. simpl.
  replace (length h + 1 + 1)%nat with (length h + 2)%nat by lia.
  replace (S (length h + 2))%nat with (length h + 3)%nat by lia.
  reflexivity.
Qed.

(** The world that the denied branch leaves: the state is replaced before
    the logger is called, the emission comes after. *)
Lemma clear_results_run `{Host} d urlObj now w :
  let cls := classifyPage (Some urlObj) (d_title d) in
  let n := length (heap w) in
  let ws := set_state {| page := n; entities := S n; lastUpdatedAt := now |}
              (set_heap (heap w ++ [OPage cls; OArray []]) w) in
  clear_results d urlObj now w
  = match lg_debug (logger w) (str "domain:not-allowed") with
    | Some e => (Throw e, ws)
    | None =>
      (Ok tt,
       set_effects
         (effects w ++ (invocation (str "update") (n + 4) <$> subscribers w (str "update")))
         (set_heap (heap w ++ [OPage cls; OArray []; OPage cls; OArray [];
                               OResults (n + 2) (n + 3) now]) ws))
    end.
Proof.
  intros cls n ws.
  unfold clear_results, assign_state, logger_debug, alloc, modify, gets, call, lift,
    mbind, M_bind, mret, M_ret.
  cbv beta iota. cbn [heap set_heap set_state state logger].
  assert (Hlen : length (heap w ++ [OPage cls]) = S n).
  { rewrite length_app. simpl. lia. }
  destruct (lg_debug (logger w) (str "domain:not-allowed")) as [e|].
  - fold cls. rewrite Hlen. subst ws. rewrite <- app_assoc. reflexivity.
  - cbv beta iota. rewrite getResults_run, emit_run.
    unfold results_objects, subscribers.
    cbn [heap set_heap set_state state effects listeners set_effects
         page entities lastUpdatedAt set_page set_entities set_lastUpdatedAt].
    fold cls. rewrite (results_after_clear (heap w) (OPage cls) (OArray []) now).
    rewrite !length_app. cbn [length]. fold n.
    replace (n + 1 + 1 + 2)%nat with (n + 4)%nat by lia.
    replace (n + 1)%nat with (S n) by lia.
    reflexivity.
Qed.

Lemma isAllowedDomain_denied (host : jsstring) (c : Config) (allowed : list jsstring) :
  allowedDomains c = Some allowed -> allowed <> [] ->
  host <> [] -> host ∉ allowed ->
  isAllowedDomain host c = false.
Proof.
  intros Hc Hne Hh Hnin. unfold isAllowedDomain. rewrite Hc.
  destruct host as [|ch host]; [done|]. simpl.
  destruct allowed as [|a allowed]; [done|].
  by apply bool_decide_eq_false_2.
Qed.

Lemma read_cleared (h : list obj) (cls : PageClassification) (rest : list obj)
    (now : Z) (w : World) :
  let w' := set_heap (h ++ OPage cls :: OArray [] :: rest)
              (set_state {| page := length h; entities := S (length h);
                            lastUpdatedAt := now |} w) in
  read_state w'
  = Some {| r_page := cls; r_entities := []; r_lastUpdatedAt := now |}.
Proof.
  intros w'.
  assert (E1 : (h ++ OPage cls :: OArray [] :: rest) !! length h = Some (OPage cls))
    by by apply list_lookup_middle.
  assert (E2 : (h ++ OPage cls :: OArray [] :: rest) !! S (length h) = Some (OArray [])).
  { replace (h ++ OPage cls :: OArray [] :: rest)
      with ((h ++ [OPage cls]) ++ OArray [] :: rest) by by rewrite <- app_assoc.
    apply list_lookup_middle. rewrite length_app. simpl. lia. }
  unfold read_state, read_page, read_array. subst w'.
  cbn [heap state set_heap set_state page entities lastUpdatedAt].
  rewrite E1. cbn [mbind option_bind]. rewrite E2. reflexivity.
Qed.

Lemma lookup_offset (h l : list obj) (i : nat) :
  (h ++ l) !! (length h + i)%nat = l !! i.
Proof.
  rewrite lookup_app_r by lia. f_equal. lia.
Qed.

Lemma read_results_cleared (h : list obj) (cls : PageClassification) (now : Z) :
  read_results
    (h ++ [OPage cls; OArray []; OPage cls; OArray [];
           OResults (length h + 2) (length h + 3) now])
    (length h + 4)
  = Some {| r_page := cls; r_entities := []; r_lastUpdatedAt := now |}.
Proof.
  unfold read_results, read_page, read_array.
  rewrite lookup_offset. cbn [lookup list_lookup].
  rewrite !lookup_offset. reflexivity.
Qed.

(** C4 (amended). With a non-empty allowlist and a non-empty current
    hostname that is not on it, a cycle of a live detector leaves a state
    whose entities array is empty, whose page is the classification of the
    current URL and title, and whose time is now, whatever the document
    holds; and when the logger's debug call returns, compute returns
    normally and every update subscriber is called with a result object
    that reads as that same state. *)
Theorem denied_host_clears_entities `{Host} (env : Env) (w : World)
    (d : Document) (allowed : list jsstring) :
  disposed w = false ->
  env_document env = Some d ->
  allowedDomains (cfg w) = Some allowed ->
  allowed <> [] ->
  toLowerCase (or_else (hostname (current_url env)) []) <> [] ->
  toLowerCase (or_else (hostname (current_url env)) []) ∉ allowed ->
  let w' := snd (compute env w) in
  let expected := {| r_page := classifyPage (Some (current_url env)) (d_title d);
                     r_entities := [];
                     r_lastUpdatedAt := env_now env |} in
  read_state w' = Some expected
  /\ (lg_debug (logger w) (str "domain:not-allowed") = None ->
      fst (compute env w) = Ok tt
      /\ effects w' = effects w ++
           (invocation (str "update") (length (heap w) + 4)
              <$> subscribers w (str "update"))
      /\ read_results (heap w') (length (heap w) + 4) = Some expected).
Proof.
  intros Hd Hdoc Hcfg Hne Hhost Hnin.
  pose proof (isAllowedDomain_denied _ _ _ Hcfg Hne Hhost Hnin) as Hdeny.
  rewrite (compute_live env w Hd), (compute_body_denied env w d Hdoc Hdeny).
  rewrite clear_results_run.
  destruct (lg_debug (logger w) (str "domain:not-allowed")) as [e|] eqn:Hlog.
  - rewrite report_run. simpl. split; [|done].
    apply (read_cleared (heap w) _ [] (env_now env)
             (set_effects (effects w ++ [EffHandleError e (str "compute")]) w)).
  - simpl. split.
    + apply (read_cleared (heap w) _ _ (env_now env)
               (set_effects (effects w ++ _) w)).
    + intros _. split; [done|]. split; [done|].
      apply read_results_cleared.
Qed.

(** C4, at the page of example.com under the allowlist of the test suite,
    with one subscriber. *)
Lemma denied_host_clears_entities_witness :
  let w := run (H := simple_host) [On (str "update") (quiet_callback 1)]
             (createDetector
                (with_allowedDomains (Some [str "scp-wiki.wikidot.com"]) manual)
                other_env) in
  let w' := snd (compute (H := simple_host) other_env w) in
  let expected :=
    {| r_page := classifyPage (H := simple_host)
                   (Some (current_url (H := simple_host) other_env))
                   (d_title other_page);
       r_entities := [];
       r_lastUpdatedAt := env_now other_env |} in
  read_state w' = Some expected
  /\ (lg_debug (logger w) (str "domain:not-allowed") = None ->
      fst (compute (H := simple_host) other_env w) = Ok tt
      /\ effects w' = effects w ++
           (invocation (str "update") (length (heap w) + 4)
              <$> subscribers w (str "update"))
      /\ read_results (heap w') (length (heap w) + 4) = Some expected).
Proof.
  intros w.
  apply (denied_host_clears_entities (H := simple_host) other_env w other_page
           [str "scp-wiki.wikidot.com"]).
  - vm_compute. reflexivity.
  - reflexivity.
  - vm_compute. reflexivity.
  - discriminate.
  - vm_compute. discriminate.
  - intros Hin. apply list_elem_of_singleton in Hin. vm_compute in Hin.
    discriminate.
Defined.

(** C4 as stated fails for the empty allowlist: it is non-null and does not
    contain the hostname, yet the cycle scans the page and keeps three
    entities. *)
Lemma empty_allowlist_allows_every_host :
  let w := createDetector (with_allowedDomains (Some []) manual) other_env in
  let w' := snd (compute (H := simple_host) other_env w) in
  allowedDomains (cfg w) = Some []
  /\ hostname (current_url (H := simple_host) other_env) = str "example.com"
  /\ length ∘ r_entities <$> read_state w' = Some 3%nat.
Proof. vm_compute. repeat split; reflexivity. Qed.

(** ** The domain map *)

(** C2. The classification never reads the configured domain map: with a
    supplied map that lists example.com as mysite/xx the page of
    example.com is classified unknown/unknown, and with a supplied empty
    map the page of scp-wiki.wikidot.com is still classified scp-wiki/en. *)
Theorem configured_domainMap_is_ignored :
  let w := createDetector (with_domainMap custom_map manual) other_env in
  let w' := snd (refresh (H := simple_host) other_env w) in
  let v := createDetector (with_domainMap ∅ manual) wiki_env in
  let v' := snd (refresh (H := simple_host) wiki_env v) in
  domainMap (cfg w) !! str "example.com"
    = Some {| site := str "mysite"; locale := str "xx" |}
  /\ (fun r => (p_site (r_page r), p_locale (r_page r))) <$> read_state w'
    = Some (str "unknown", str "unknown")
  /\ domainMap (cfg v) !! str "scp-wiki.wikidot.com" = None
  /\ (fun r => (p_site (r_page r), p_locale (r_page r))) <$> read_state v'
    = Some (str "scp-wiki", str "en").
Proof. vm_compute. repeat split; reflexivity. Qed.

(** ** Accessors and what callers do with their results *)

Lemma step_accessor `{Host} ev w :
  is_accessor ev ->
  exists extra, snd (step ev w) = set_heap (heap w ++ extra) w.
Proof.
  destruct ev; try done; intros _; cbn [step].
  - unfold getPageClassification, alloc. run_m. by eexists.
  - unfold getEntities, alloc. run_m. by eexists.
  - unfold mbind, M_bind. rewrite getResults_run. simpl. by eexists.
Qed.




(** What [getResults] returns reads as the state. *)
Lemma getResults_reads w :
  wf w ->
  read_results (heap (snd (getResults w))) (length (heap w) + 2) = read_state w.
Proof.
  intros Hwf. pose proof Hwf as [r Hr]. rewrite getResults_run. simpl.
  unfold read_state in *. unfold results_objects.
  destruct (read_page (heap w) (page (state w))) as [pg|] eqn:Hpg; [|done].
  destruct (read_array (heap w) (entities (state w))) as [es|] eqn:Hes; [|done].
  simpl. clear Hr.
  unfold read_page in Hpg. unfold read_array in Hes.
  destruct (heap w !! page (state w)) as [[pg'| | |]|] eqn:Hp; try done.
  injection Hpg as ->.
  destruct (heap w !! entities (state w)) as [[|items| |]|] eqn:He; try done.
  rewrite (list_lookup_total_correct _ _ _ Hp).
  assert ((heap w ++ [OPage pg]) !!! entities (state w) = OArray items) as ->.
  { apply list_lookup_total_correct. rewrite lookup_app_l; [done|].
    by apply lookup_lt_Some in He. }
  set (h' := heap w ++ _).
  assert (L2 : h' !! (length (heap w) + 2)%nat
               = Some (OResults (length (heap w)) (S (length (heap w)))
                                (lastUpdatedAt (state w))))
    by (subst h'; rewrite lookup_offset; reflexivity).
  assert (L0 : h' !! length (heap w) = Some (OPage pg))
    by (subst h'; by apply list_lookup_middle).
  assert (L1 : h' !! S (length (heap w)) = Some (OArray items)).
  { subst h'. replace (S (length (heap w))) with (length (heap w) + 1)%nat by lia.
    rewrite lookup_offset. reflexivity. }
  unfold read_results, read_page, read_array. rewrite L2, L0.
  cbn [mbind option_bind]. rewrite L1.
  rewrite (read_entities_agree (heap w) h' (length (heap w)) items es); [done| |done|done].
  intros l Hl. subst h'. by apply lookup_app_l.
Qed.






(** ** A completed cycle, and the store stays well formed *)

Lemma collect_run `{Host} d urlObj w :
  collect d urlObj w
  = let n := length (heap w) in
    let cls := OPage (classifyPage (Some urlObj) (d_title d)) in
    match scanLinks d (href urlObj) with
    | Throw e => (Throw e, set_heap (heap w ++ [cls]) w)
    | Ok ls =>
      match scanInline d (includeSelectors (cfg w)) (maxNodes (cfg w)) with
      | Throw e => (Throw e, set_heap (heap w ++ [cls]) w)
      | Ok ins =>
        match lg_debug (logger w) (str "compute:scan") with
        | Some e => (Throw e, set_heap (heap w ++ [cls]) w)
        | None =>
          let es := dedupeEntities (ls ++ ins) in
          let h' := heap w ++ cls :: (OEntity <$> es)
                           ++ [OArray (seq (S n) (length es))] in
          match lg_debug (logger w) (str "compute:dedupe") with
          | Some e => (Throw e, set_heap h' w)
          | None => (Ok (n, (S n + length es)%nat), set_heap h' w)
          end
        end
      end
    end.
Proof.
  unfold collect, logger_debug, alloc. run_m.
  destruct (scanLinks d (href urlObj)) as [ls|e]; simpl; [|done].
  destruct (scanInline d _ _) as [ins|e]; simpl; [|done].
  destruct (lg_debug (logger w) (str "compute:scan")); simpl; [done|].
  rewrite alloc_all_run. simpl.
  rewrite !length_app, length_fmap. simpl.
  replace (length (heap w) + 1)%nat with (S (length (heap w))) by lia.
  replace (S (length (heap w)) + length (dedupeEntities (ls ++ ins)))%nat
    with (S (length (heap w) + length (dedupeEntities (ls ++ ins)))) by lia.
  rewrite <- !app_assoc. simpl.
  destruct (lg_debug (logger w) (str "compute:dedupe")); reflexivity.
Qed.

Lemma read_entities_seq (h : list obj) (es : list Entity) (rest : list obj) :
  mapM (read_entity (h ++ (OEntity <$> es) ++ rest)) (seq (length h) (length es))
  = Some es.
Proof.
  revert h. induction es as [|e es IH]; intros h; [done|].
  change (seq (length h) (length (e :: es)))
    with (length h :: seq (S (length h)) (length es)).
  rewrite fmap_cons, <- app_comm_cons. cbn [mapM].
  assert (E : read_entity (h ++ OEntity e :: (OEntity <$> es) ++ rest) (length h)
              = Some e).
  { unfold read_entity. by rewrite list_lookup_middle. }
  rewrite E. cbn [mbind option_bind].
  specialize (IH (h ++ [OEntity e])).
  rewrite length_app, <- app_assoc in IH. cbn [length app] in IH.
  replace (length h + 1)%nat with (S (length h)) in IH by lia.
  rewrite IH. reflexivity.
Qed.

(** The state after the writes of [install], in a store that already holds
    the objects of [collect]. *)
Lemma read_installed (w' : World) (h : list obj) (cls : PageClassification)
    (es : list Entity) (rest : list obj) (now : Z) :
  heap w' = h ++ OPage cls :: (OEntity <$> es)
              ++ OArray (seq (S (length h)) (length es)) :: rest ->
  state w' = {| page := length h; entities := (S (length h) + length es)%nat;
                lastUpdatedAt := now |} ->
  read_state w'
  = Some {| r_page := cls; r_entities := es; r_lastUpdatedAt := now |}.
Proof.
  intros Hheap Hstate. set (n := length h) in *.
  set (h1 := h ++ [OPage cls]).
  assert (Hh : heap w' = (h1 ++ (OEntity <$> es))
                         ++ OArray (seq (S n) (length es)) :: rest).
  { rewrite Hheap. subst h1. by rewrite <- !app_assoc. }
  assert (E0 : heap w' !! n = Some (OPage cls))
    by (rewrite Hheap; by apply list_lookup_middle).
  assert (E1 : heap w' !! (S n + length es)%nat
               = Some (OArray (seq (S n) (length es)))).
  { rewrite Hh. apply list_lookup_middle.
    subst h1 n. rewrite !length_app, length_fmap. simpl. lia. }
  assert (E2 : mapM (read_entity (heap w')) (seq (S n) (length es)) = Some es).
  { rewrite Hh, <- app_assoc.
    replace (S n) with (length h1) by (subst h1 n; rewrite length_app; simpl; lia).
    apply read_entities_seq. }
  unfold read_state, read_page, read_array. rewrite Hstate.
  cbn [page entities lastUpdatedAt].
  rewrite E0. cbn [mbind option_bind]. rewrite E1, E2. reflexivity.
Qed.

(** A cycle on an allowed host whose scans and logger calls return leaves
    the classification, the deduplicated candidates and the time. *)
Lemma compute_success `{Host} env w d ls ins :
  disposed w = false ->
  env_document env = Some d ->
  isAllowedDomain (toLowerCase (or_else (hostname (current_url env)) [])) (cfg w) = true ->
  scanLinks d (href (current_url env)) = Ok ls ->
  scanInline d (includeSelectors (cfg w)) (maxNodes (cfg w)) = Ok ins ->
  lg_debug (logger w) (str "compute:scan") = None ->
  lg_debug (logger w) (str "compute:dedupe") = None ->
  fst (compute env w) = Ok tt
  /\ read_state (snd (compute env w))
     = Some {| r_page := classifyPage (Some (current_url env)) (d_title d);
               r_entities := dedupeEntities (ls ++ ins);
               r_lastUpdatedAt := env_now env |}.
Proof.
  intros Hd Hdoc Hallow Hls Hins Hlog1 Hlog2.
  rewrite (compute_live env w Hd), (compute_body_allowed env w d Hdoc Hallow).
  rewrite collect_run, Hls, Hins, Hlog1, Hlog2. cbv beta iota zeta.
  rewrite install_run. cbv beta iota zeta. split; [done|].
  eapply (read_installed _ (heap w) _ _ _ (env_now env)).
  - cbn [snd heap set_heap set_effects set_state].
    rewrite <- app_assoc, <- app_comm_cons, <- app_assoc. reflexivity.
  - reflexivity.
Qed.






(** ** Where a cycle can throw

    The body of the [try] block throws either in [collect], before any
    write to the state, or at the logger call of the denied branch, after
    the state has been replaced; nothing else in it throws. *)
Lemma compute_body_throw_sites `{Host} env w e w1 :
  compute_body env w = (Throw e, w1) ->
  exists d, env_document env = Some d /\
    let host := toLowerCase (or_else (hostname (current_url env)) []) in
    (isAllowedDomain host (cfg w) = true
     /\ fst (collect d (current_url env) w) = Throw e
     /\ state w1 = state w)
    \/ (isAllowedDomain host (cfg w) = false
        /\ lg_debug (logger w) (str "domain:not-allowed") = Some e
        /\ state w1 = {| page := length (heap w);
                         entities := S (length (heap w));
                         lastUpdatedAt := env_now env |}).
Proof.
  intros Hthrow. destruct (env_document env) as [d|] eqn:Hdoc.
  - exists d. split; [done|]. cbv zeta.
    destruct (isAllowedDomain _ (cfg w)) eqn:Hallow.
    + left. rewrite (compute_body_allowed env w d Hdoc Hallow) in Hthrow.
      destruct (collect_frame d (current_url env) w) as [extra Hw1].
      destruct (collect d (current_url env) w) as [[[pg all]|e'] w'] eqn:Hc.
      * rewrite install_run in Hthrow. discriminate.
      * injection Hthrow as -> ->. simpl in Hw1. subst w1. done.
    + right. rewrite (compute_body_denied env w d Hdoc Hallow) in Hthrow.
      rewrite clear_results_run in Hthrow. cbv zeta in Hthrow.
      destruct (lg_debug (logger w) (str "domain:not-allowed")); [|discriminate].
      injection Hthrow as -> <-. done.
  - unfold compute_body in Hthrow. rewrite Hdoc in Hthrow. discriminate.
Qed.

(** The site of a classification comes from the built-in table, whatever
    the detector was configured with. *)
Lemma classifyPage_site `{Host} (urlObj : option URLObj) (title : option jsstring) :
  let host := toLowerCase (or_else (hostname (default NO_URL urlObj)) []) in
  p_site (classifyPage urlObj title) = lookup_site DEFAULT_DOMAIN_MAP host
  /\ p_locale (classifyPage urlObj title) = lookup_locale DEFAULT_DOMAIN_MAP host.
Proof.
  unfold classifyPage. cbv zeta.
  repeat match goal with
  | |- context [test ?r ?s] =>
    let b := fresh "b" in
    generalize (test r s); intros b
  end.
  repeat match goal with b : bool |- _ => destruct b end;
    repeat case_match; split; reflexivity.
Qed.

(** Three subscribers, the second of which throws: all three are called
    with the payload and the emission returns. *)
Example emit_with_a_throwing_subscriber :
  let w := run (H := simple_host)
             [On (str "update") (quiet_callback 1%nat);
              On (str "update") (throwing_callback 2%nat 9%nat);
              On (str "update") (quiet_callback 3%nat)]
             (createDetector manual wiki_env) in
  fst (Emitter_emit (str "update") 5%nat w) = Ok tt
  /\ effects (snd (Emitter_emit (str "update") 5%nat w))
     = [EffCallback (str "update") 1%nat 5%nat false;
        EffCallback (str "update") 2%nat 5%nat true;
        EffCallback (str "update") 3%nat 5%nat false].
Proof. vm_compute. split; reflexivity. Qed.

(** * Further properties of the module *)

(** ** Subscriptions *)

Lemma set_add_idem (cb : Callback) (l : list Callback) :
  set_add cb (set_add cb l) = set_add cb l.
Proof.
  unfold set_add at 2.
  destruct (existsb _ l) eqn:E.
  - unfold set_add. by rewrite E.
  - unfold set_add. rewrite existsb_app. simpl.
    rewrite Nat.eqb_refl. simpl. by rewrite orb_true_r, E.
Qed.

Lemma set_add_has (cb : Callback) (l : list Callback) :
  exists c, c ∈ set_add cb l /\ cb_id c = cb_id cb.
Proof.
  unfold set_add. destruct (existsb _ l) eqn:E.
  - apply existsb_exists in E as (c & Hin & Hc).
    exists c. split; [by apply list_elem_of_In|]. by apply Nat.eqb_eq in Hc.
  - exists cb. split; [|done]. apply elem_of_app. right. by left.
Qed.

Lemma set_delete_gone (cb : Callback) (l : list Callback) (c : Callback) :
  c ∈ set_delete cb l -> cb_id c <> cb_id cb.
Proof.
  unfold set_delete. intros Hin. apply list_elem_of_In, filter_In in Hin as [_ Hc].
  apply negb_true_iff, Nat.eqb_neq in Hc. exact Hc.
Qed.

Lemma set_delete_absent (cb : Callback) (l : list Callback) :
  (forall c, c ∈ l -> cb_id c <> cb_id cb) -> set_delete cb l = l.
Proof.
  unfold set_delete. induction l as [|c l IH]; intros Hl; simpl; [done|].
  assert (cb_id c <> cb_id cb) as Hc by (apply Hl; left).
  apply Nat.eqb_neq in Hc. rewrite Hc. simpl. f_equal.
  apply IH. intros c' Hc'. apply Hl. by right.
Qed.

Lemma set_delete_add (cb : Callback) (l : list Callback) :
  set_delete cb (set_add cb l) = set_delete cb l.
Proof.
  unfold set_add. destruct (existsb _ l); [done|].
  unfold set_delete. rewrite List.filter_app. simpl.
  rewrite Nat.eqb_refl. simpl. by rewrite app_nil_r.
Qed.

Lemma subscribers_on (w : World) (event event' : jsstring) (cb : Callback) :
  subscribers (snd (on event cb w)) event'
  = if decide (event = event') then set_add cb (subscribers w event)
    else subscribers w event'.
Proof.
  unfold on, Emitter_on, subscribers. run_m.
  case_decide as Hev.
  - subst. by rewrite lookup_insert_eq.
  - by rewrite lookup_insert_ne.
Qed.

Lemma subscribers_off (w : World) (event event' : jsstring) (cb : Callback) :
  subscribers (snd (off event cb w)) event'
  = if decide (event = event') then set_delete cb (subscribers w event)
    else subscribers w event'.
Proof.
  unfold off, Emitter_off, subscribers. run_m.
  destruct (listeners w !! event) as [l|] eqn:Hl; simpl.
  - case_decide as Hev.
    + subst. by rewrite lookup_insert_eq.
    + by rewrite lookup_insert_ne.
  - case_decide as Hev; [|done]. subst. by rewrite Hl.
Qed.

(** X1. Subscribing makes the callback a subscriber of that event and of no
    other; subscribing it again changes nothing; unsubscribing removes it,
    and after subscribe then unsubscribe the subscribers are those from
    before without the callback, so exactly those from before when it was
    not among them. *)
Theorem subscribe_unsubscribe (w : World) (event : jsstring) (cb : Callback) :
  let w1 := snd (on event cb w) in
  let w2 := snd (off event cb w1) in
  (exists c, c ∈ subscribers w1 event /\ cb_id c = cb_id cb)
  /\ snd (on event cb w1) = w1
  /\ (forall other, other <> event -> subscribers w1 other = subscribers w other)
  /\ (forall c, c ∈ subscribers w2 event -> cb_id c <> cb_id cb)
  /\ subscribers w2 event = set_delete cb (subscribers w event)
  /\ ((forall c, c ∈ subscribers w event -> cb_id c <> cb_id cb) ->
      subscribers w2 event = subscribers w event)
  /\ (forall other, other <> event -> subscribers w2 other = subscribers w other).
Proof.
  intros w1 w2.
  assert (H2 : subscribers w2 event = set_delete cb (subscribers w event)).
  { subst w2 w1. rewrite subscribers_off, decide_True by done.
    rewrite subscribers_on, decide_True by done. apply set_delete_add. }
  split; [|split; [|split; [|split; [|split; [|split]]]]].
  - subst w1. rewrite subscribers_on, decide_True by done. apply set_add_has.
  - subst w1. unfold on, Emitter_on. run_m. unfold set_listeners. simpl.
    rewrite lookup_insert_eq. simpl. rewrite set_add_idem, insert_insert_eq.
    reflexivity.
  - intros other Hne. subst w1. by rewrite subscribers_on, decide_False.
  - intros c Hc. rewrite H2 in Hc. by eapply set_delete_gone.
  - exact H2.
  - intros Habs. rewrite H2. by apply set_delete_absent.
  - intros other Hne. subst w2 w1.
    rewrite subscribers_off, decide_False by done.
    by rewrite subscribers_on, decide_False.
Qed.

(** ** What a cycle can change *)

Lemma world_shape (w : World) (st : DetectorState) (h : list obj) (eff : list Effect) (w' : World) :
  cfg w' = cfg w -> logger w' = logger w -> errorHandler w' = errorHandler w ->
  disposed w' = disposed w -> observer w' = observer w ->
  listeners w' = listeners w -> timer w' = timer w -> microtask w' = microtask w ->
  connected w' = connected w ->
  state w' = st -> heap w' = heap w ++ h -> effects w' = effects w ++ eff ->
  w' = set_effects (effects w ++ eff) (set_heap (heap w ++ h) (set_state st w)).
Proof.
  destruct w, w'. simpl. intros. by subst.
Qed.

Lemma dedupe_nil : dedupeEntities [] = [].
Proof. reflexivity. Qed.

(** Every run of [compute] in one statement: the world it leaves differs
    from the one it found in the state, in new objects of the store and in
    new effects only; it throws only what the error handler threw; and the
    state it leaves is the old one or a classification with deduplicated
    candidates at the time of the cycle. *)
Lemma compute_cases `{Host} env w :
  exists st h eff r,
    compute env w
    = (r, set_effects (effects w ++ eff) (set_heap (heap w ++ h) (set_state st w)))
    /\ (r = Ok tt \/ exists e e', r = Throw e'
          /\ handleError (errorHandler w) e (str "compute") = Some e')
    /\ (st = state w
        \/ exists cls es,
             read_state (set_heap (heap w ++ h) (set_state st w))
             = Some {| r_page := cls; r_entities := dedupeEntities es;
                       r_lastUpdatedAt := env_now env |})
    /\ Forall (fun x => match x with
                        | EffCallback ev _ _ _ => ev = str "update"
                        | EffHandleError _ a => a = str "compute"
                        | _ => False
                        end) eff.
Proof.
  assert (Hsame : forall r,
    (r = Ok tt \/ exists e e', r = Throw e'
          /\ handleError (errorHandler w) e (str "compute") = Some e') ->
    exists st h eff r',
      (r, w) = (r', set_effects (effects w ++ eff) (set_heap (heap w ++ h) (set_state st w)))
      /\ (r' = Ok tt \/ exists e e', r' = Throw e'
          /\ handleError (errorHandler w) e (str "compute") = Some e')
      /\ (st = state w \/ exists cls es,
             read_state (set_heap (heap w ++ h) (set_state st w))
             = Some {| r_page := cls; r_entities := dedupeEntities es;
                       r_lastUpdatedAt := env_now env |})
      /\ Forall (fun x => match x with
                        | EffCallback ev _ _ _ => ev = str "update"
                        | EffHandleError _ a => a = str "compute"
                        | _ => False
                        end) eff).
  { intros r Hr. exists (state w), [], [], r. split; [|split; [done|split; [by left|done]]].
    f_equal. destruct w. simpl. by rewrite !app_nil_r. }
  assert (Hfail : forall e extra,
    exists st h eff r',
      report e "compute" (set_heap (heap w ++ extra) w)
      = (r', set_effects (effects w ++ eff) (set_heap (heap w ++ h) (set_state st w)))
      /\ (r' = Ok tt \/ exists e e', r' = Throw e'
          /\ handleError (errorHandler w) e (str "compute") = Some e')
      /\ (st = state w \/ exists cls es,
             read_state (set_heap (heap w ++ h) (set_state st w))
             = Some {| r_page := cls; r_entities := dedupeEntities es;
                       r_lastUpdatedAt := env_now env |})
      /\ Forall (fun x => match x with
                        | EffCallback ev _ _ _ => ev = str "update"
                        | EffHandleError _ a => a = str "compute"
                        | _ => False
                        end) eff).
  { intros e extra. rewrite report_run.
    eexists (state w), extra, [EffHandleError e (str "compute")], _.
    split; [f_equal; by destruct w|]. split; [|split; [by left|]].
    - cbn [errorHandler set_heap].
      destruct (handleError (errorHandler w) e (str "compute")) eqn:Hh; [|by left].
      right. by exists e, e0.
    - by repeat constructor. }
  destruct (disposed w) eqn:Hd.
  { rewrite compute_disposed by done. apply Hsame. by left. }
  rewrite (compute_live env w Hd).
  destruct (env_document env) as [d|] eqn:Hdoc;
    [|unfold compute_body; rewrite Hdoc; apply Hsame; by left].
  destruct (isAllowedDomain
              (toLowerCase (or_else (hostname (current_url env)) [])) (cfg w))
    eqn:Hallow.
  - rewrite (compute_body_allowed env w d Hdoc Hallow), collect_run. cbv zeta.
    destruct (scanLinks d _) as [ls|e]; [|apply Hfail].
    destruct (scanInline d _ _) as [ins|e]; [|apply Hfail].
    destruct (lg_debug (logger w) (str "compute:scan")); [apply Hfail|].
    destruct (lg_debug (logger w) (str "compute:dedupe")); [apply Hfail|].
    rewrite install_run. cbv zeta.
    eexists _, _, _, (Ok tt). split; [|split; [by left|split]].
    + f_equal. apply world_shape; try reflexivity.
      cbn [heap set_heap set_effects set_state]. rewrite <- app_assoc. reflexivity.
    + right. eexists _, (ls ++ ins).
      eapply (read_installed _ (heap w) _ _ _ (env_now env)).
      * cbn [heap set_heap set_effects set_state].
        rewrite <- app_comm_cons, <- app_assoc. reflexivity.
      * reflexivity.
    + apply Forall_fmap, Forall_forall. intros cb _. reflexivity.
  - rewrite (compute_body_denied env w d Hdoc Hallow), clear_results_run. cbv zeta.
    destruct (lg_debug (logger w) (str "domain:not-allowed")) as [e|].
    + rewrite report_run.
      eexists _, _, [EffHandleError e (str "compute")], _.
      split; [f_equal; apply world_shape; reflexivity|].
      split; [|split].
      * cbn [errorHandler set_heap set_state].
        destruct (handleError (errorHandler w) e (str "compute")) eqn:Hh; [|by left].
        right. by exists e, e0.
      * right. eexists _, []. rewrite dedupe_nil.
        apply (read_cleared (heap w) _ [] (env_now env) w).
      * by repeat constructor.
    + eexists _, _, _, (Ok tt). split; [f_equal; apply world_shape; reflexivity|].
      split; [by left|split].
      * right. eexists _, []. rewrite dedupe_nil.
        apply (read_cleared (heap w) _ _ (env_now env) w).
      * apply Forall_fmap, Forall_forall. intros cb _. reflexivity.
Qed.

Lemma step_timer `{Host} env w :
  step (TimerFired env) w
  = if timer w then compute env (set_timer false w) else (Ok tt, w).
Proof. cbn [step]. run_m. by destruct (timer w). Qed.

Lemma step_refresh `{Host} env w : step (Refresh env) w = compute env w.
Proof. cbn [step]. apply refresh_compute. Qed.

Lemma step_configure `{Host} nextCfg env w :
  step (Configure nextCfg env) w
  = compute env (set_cfg (assign (cfg w) nextCfg) w).
Proof.
  cbn [step]. unfold configure, mbind, M_bind, modify. cbv beta iota.
  apply refresh_compute.
Qed.

Lemma step_microtask `{Host} w :
  step Microtask w
  = (Ok tt, if microtask w then set_timer true (set_microtask false w) else w).
Proof.
  cbn [step]. unfold scheduleCompute, logger_debug. run_m.
  destruct (microtask w); simpl; [|done].
  by destruct (lg_debug (logger w) (str "autostart:scheduled")).
Qed.

Lemma step_mutation `{Host} w :
  step Mutation w = (Ok tt, if connected w then set_timer true w else w).
Proof.
  cbn [step]. unfold scheduleCompute. run_m. by destruct (connected w).
Qed.

(** What any event leaves alone, and what it can throw. *)
Lemma step_frame `{Host} ev w :
  let w' := snd (step ev w) in
  logger w' = logger w
  /\ errorHandler w' = errorHandler w
  /\ heap w `prefix_of` heap w'
  /\ effects w `prefix_of` effects w'
  /\ (fst (step ev w) = Ok tt
      \/ exists e e', fst (step ev w) = Throw e'
           /\ handleError (errorHandler w) e (str "compute") = Some e').
Proof.
  destruct ev.
  - rewrite step_microtask. simpl. by destruct (microtask w); repeat split; auto.
  - rewrite step_mutation. simpl. by destruct (connected w); repeat split; auto.
  - rewrite step_timer. destruct (timer w); [|by repeat split; auto].
    destruct (compute_cases env (set_timer false w))
      as (st & h & eff & r & -> & Hr & _ & _). simpl.
    repeat split; auto using prefix_app_r.
  - rewrite step_refresh.
    destruct (compute_cases env w) as (st & h & eff & r & -> & Hr & _ & _). simpl.
    repeat split; auto using prefix_app_r.
  - rewrite step_configure.
    destruct (compute_cases env (set_cfg (assign (cfg w) nextCfg) w))
      as (st & h & eff & r & -> & Hr & _ & _). simpl.
    repeat split; auto using prefix_app_r.
  - cbn [step]. rewrite dispose_run. simpl.
    destruct (observer w); simpl; repeat split; auto using prefix_app_r.
  - cbn [step]. unfold on, Emitter_on. run_m. repeat split; auto.
  - cbn [step]. unfold off, Emitter_off. run_m.
    destruct (listeners w !! event); simpl; repeat split; auto.
  - destruct (step_accessor GetPageClassification w I) as [x Hx].
    cbn [step] in *. rewrite Hx. simpl. repeat split; auto using prefix_app_r.
  - destruct (step_accessor GetEntities w I) as [x Hx].
    cbn [step] in *. rewrite Hx. simpl. repeat split; auto using prefix_app_r.
  - destruct (step_accessor GetResults w I) as [x Hx].
    cbn [step] in *. rewrite Hx. simpl. repeat split; auto using prefix_app_r.
Qed.

Lemma read_state_effects (eff : list Effect) (w : World) :
  read_state (set_effects eff w) = read_state w.
Proof. reflexivity. Qed.

(** What any event can do to the state that the accessors show. *)
Lemma step_state `{Host} ev w :
  wf w ->
  read_state (snd (step ev w)) = read_state w
  \/ exists cls es now,
       read_state (snd (step ev w))
       = Some {| r_page := cls; r_entities := dedupeEntities es;
                 r_lastUpdatedAt := now |}.
Proof.
  intros Hwf.
  assert (Hcompute : forall env w0,
    state w0 = state w -> heap w0 = heap w ->
    read_state (snd (compute env w0)) = read_state w
    \/ exists cls es now,
         read_state (snd (compute env w0))
         = Some {| r_page := cls; r_entities := dedupeEntities es;
                   r_lastUpdatedAt := now |}).
  { intros env w0 Hs Hh.
    destruct (compute_cases env w0) as (st & h & eff & r & -> & _ & Hst & _).
    simpl. rewrite read_state_effects. destruct Hst as [->|(cls & es & Hst)].
    - left. apply read_state_agree; [done|by simpl|].
      simpl. rewrite Hh. intros l Hl. by apply lookup_app_l.
    - right. by exists cls, es, (env_now env). }
  destruct ev.
  - left. rewrite step_microtask. simpl. by destruct (microtask w).
  - left. rewrite step_mutation. simpl. by destruct (connected w).
  - rewrite step_timer. destruct (timer w); [|by left]. by apply Hcompute.
  - rewrite step_refresh. by apply Hcompute.
  - rewrite step_configure. by apply Hcompute.
  - left. cbn [step]. rewrite dispose_run. simpl. by destruct (observer w).
  - left. cbn [step]. unfold on, Emitter_on. by run_m.
  - left. cbn [step]. unfold off, Emitter_off. run_m.
    by destruct (listeners w !! event).
  - left. destruct (step_accessor GetPageClassification w I) as [x Hx].
    rewrite Hx. apply read_state_agree; [done|done|].
    simpl. intros l Hl. by apply lookup_app_l.
  - left. destruct (step_accessor GetEntities w I) as [x Hx].
    rewrite Hx. apply read_state_agree; [done|done|].
    simpl. intros l Hl. by apply lookup_app_l.
  - left. destruct (step_accessor GetResults w I) as [x Hx].
    rewrite Hx. apply read_state_agree; [done|done|].
    simpl. intros l Hl. by apply lookup_app_l.
Qed.

(** ** Construction *)

Lemma createDetector_fields (options : Options) (env : Env) :
  let w := createDetector options env in
  let lg := default createNoopLogger (o_logger options) in
  let attached :=
    observe (assign DEFAULT_CONFIG options)
    && match env_document env with Some d => d_body d | None => false end
    && env_MutationObserver env in
  cfg w = assign DEFAULT_CONFIG options
  /\ logger w = lg
  /\ errorHandler w = default (createSafeErrorHandler lg) (o_errorHandler options)
  /\ disposed w = false
  /\ observer w = attached
  /\ connected w = attached && bool_decide (env_observe env = None)
  /\ state w = {| page := 0%nat; entities := 1%nat; lastUpdatedAt := 0 |}
  /\ heap w = [OPage INITIAL_PAGE; OArray []]
  /\ listeners w = ∅
  /\ timer w = false
  /\ microtask w = negb (bool_decide (autostart (assign DEFAULT_CONFIG options) = Some false))
  /\ effects w = (if attached then [EffObserve] else []).
Proof.
  unfold createDetector. cbv zeta.
  set (lg := default createNoopLogger (o_logger options)).
  set (attached := observe _ && _ && _).
  set (w0 := {| cfg := assign DEFAULT_CONFIG options; logger := lg |}).
  set (w1 := if attached then _ else w0).
  assert (H1 : cfg w1 = assign DEFAULT_CONFIG options /\ logger w1 = lg
    /\ errorHandler w1 = default (createSafeErrorHandler lg) (o_errorHandler options)
    /\ disposed w1 = false /\ observer w1 = attached
    /\ connected w1 = attached && bool_decide (env_observe env = None)
    /\ state w1 = {| page := 0%nat; entities := 1%nat; lastUpdatedAt := 0 |}
    /\ heap w1 = [OPage INITIAL_PAGE; OArray []]
    /\ listeners w1 = ∅ /\ timer w1 = false /\ microtask w1 = false
    /\ effects w1 = (if attached then [EffObserve] else [])).
  { subst w1. destruct attached; [|by repeat split].
    unfold observer_observe, logger_debug. run_m.
    destruct (env_observe env); simpl; [by repeat split|].
    destruct (lg_debug lg (str "observer:attached")); by repeat split. }
  destruct H1 as (? & ? & ? & ? & ? & ? & ? & ? & ? & ? & ? & ?).
  destruct (autostart (assign DEFAULT_CONFIG options)) as [[|]|]; by repeat split.
Qed.

(** X2. Creating a detector computes nothing and calls no one: the state
    reads as the initial page with no entities at time 0, no subscriber
    exists, no handler or subscriber has been called, and no timer is
    pending, so a timer event that comes before the deferred autostart has
    run finds nothing to do; the autostart is pending unless the option says
    false, and once it runs the debounce timer is pending. *)
Theorem createDetector_is_quiet `{Host} (options : Options) (env env' : Env) :
  let w := createDetector options env in
  read_state w
    = Some {| r_page := INITIAL_PAGE; r_entities := []; r_lastUpdatedAt := 0 |}
  /\ listeners w = ∅
  /\ disposed w = false
  /\ Forall (fun x => x = EffObserve) (effects w)
  /\ step (TimerFired env') w = (Ok tt, w)
  /\ microtask w = negb (bool_decide (o_autostart options = Some false))
  /\ timer (snd (step Microtask w)) = microtask w.
Proof.
  intros w.
  destruct (createDetector_fields options env)
    as (Hc & Hl & Hh & Hd & Ho & Hconn & Hs & Hheap & Hls & Ht & Hm & He).
  fold w in Hc, Hl, Hh, Hd, Ho, Hconn, Hs, Hheap, Hls, Ht, Hm, He.
  split; [|split; [done|split; [done|split; [|split; [|split]]]]].
  - unfold read_state, read_page, read_array. by rewrite Hs, Hheap.
  - rewrite He. case_match; by repeat constructor.
  - by rewrite step_timer, Ht.
  - rewrite Hm. simpl. by destruct (o_autostart options) as [[|]|].
  - rewrite step_microtask. simpl. destruct (microtask w); [done|]. by rewrite Ht.
Qed.

(** ** Invariants of a running detector *)

(** What an event does to the listeners and to the life-cycle flags: only
    [on], [off] and [dispose] touch them. *)
Lemma step_lifecycle `{Host} ev w :
  let w' := snd (step ev w) in
  match ev with
  | Dispose =>
    disposed w' = true /\ observer w' = false
    /\ connected w' = connected w && negb (observer w)
    /\ listeners w' = ∅
  | On event cb =>
    disposed w' = disposed w /\ observer w' = observer w
    /\ connected w' = connected w
    /\ listeners w' = <[event := set_add cb (subscribers w event)]> (listeners w)
  | Off event cb =>
    disposed w' = disposed w /\ observer w' = observer w
    /\ connected w' = connected w
    /\ forall e, subscribers w' e
         = if decide (event = e) then set_delete cb (subscribers w event)
           else subscribers w e
  | _ =>
    disposed w' = disposed w /\ observer w' = observer w
    /\ connected w' = connected w /\ listeners w' = listeners w
  end.
Proof.
  destruct ev.
  - rewrite step_microtask. simpl. by destruct (microtask w).
  - rewrite step_mutation. simpl. by destruct (connected w) eqn:E; simpl; rewrite ?E.
  - rewrite step_timer. destruct (timer w); [|done].
    by destruct (compute_cases env (set_timer false w))
      as (st & h & eff & r & -> & _).
  - rewrite step_refresh.
    by destruct (compute_cases env w) as (st & h & eff & r & -> & _).
  - rewrite step_configure.
    by destruct (compute_cases env (set_cfg (assign (cfg w) nextCfg) w))
      as (st & h & eff & r & -> & _).
  - cbn [step]. rewrite dispose_run. simpl.
    destruct (observer w) eqn:E; simpl;
      rewrite ?E, ?andb_false_r, ?andb_true_r; repeat split; auto.
  - cbn [step]. unfold on, Emitter_on, subscribers. by run_m.
  - cbn [step]. repeat split; try (unfold off, Emitter_off; run_m;
      by destruct (listeners w !! event)).
    intros e. apply subscribers_off.
  - destruct (step_accessor GetPageClassification w I) as [x ->]. done.
  - destruct (step_accessor GetEntities w I) as [x ->]. done.
  - destruct (step_accessor GetResults w I) as [x ->]. done.
Qed.

Lemma set_add_NoDup (cb : Callback) (l : list Callback) :
  NoDup (cb_id <$> l) -> NoDup (cb_id <$> set_add cb l).
Proof.
  intros Hnd. unfold set_add. destruct (existsb _ l) eqn:E; [done|].
  rewrite fmap_app. apply NoDup_app. split; [done|]. split; [|apply NoDup_singleton].
  intros i Hi Hi'. apply list_elem_of_singleton in Hi'. subst i.
  apply list_elem_of_fmap in Hi as (c & Hc & Hin).
  assert (existsb (fun c => Nat.eqb (cb_id c) (cb_id cb)) l = true) as E'.
  { apply existsb_exists. exists c. split; [by apply list_elem_of_In|].
    apply Nat.eqb_eq. done. }
  congruence.
Qed.

Lemma set_delete_NoDup (cb : Callback) (l : list Callback) :
  NoDup (cb_id <$> l) -> NoDup (cb_id <$> set_delete cb l).
Proof.
  unfold set_delete. induction l as [|c l IH]; intros Hnd; simpl; [done|].
  rewrite fmap_cons in Hnd. apply NoDup_cons in Hnd as [Hc Hnd].
  destruct (negb _); [|by apply IH].
  rewrite fmap_cons. apply NoDup_cons. split; [|by apply IH].
  intros Hin. apply Hc.
  apply list_elem_of_fmap in Hin as (c' & -> & Hin).
  apply list_elem_of_fmap. exists c'. split; [done|].
  apply list_elem_of_In, filter_In in Hin as [Hin _]. by apply list_elem_of_In.
Qed.

(** X3. In every world that a detector reaches, no event has two
    subscribers with the same function, however often [on] was called with
    it; so an emission, which calls the subscribers of its event once each,
    calls no function twice. *)
Theorem subscribers_are_a_set `{Host} (options : Options) (env : Env)
    (evs : list Event) (event : jsstring) (payload : loc) :
  let w := run evs (createDetector options env) in
  NoDup (cb_id <$> subscribers w event)
  /\ effects (snd (Emitter_emit event payload w))
     = effects w ++ (invocation event payload <$> subscribers w event).
Proof.
  intros w. split; [|by rewrite emit_run].
  subst w. unfold run.
  assert (H0 : forall e, NoDup (cb_id <$> subscribers (createDetector options env) e)).
  { intros e. unfold subscribers.
    destruct (createDetector_fields options env) as (_ & _ & _ & _ & _ & _ & _ & _ & -> & _).
    rewrite lookup_empty. constructor. }
  revert H0. generalize (createDetector options env). clear.
  induction evs as [|ev evs IH]; intros w Hw; simpl; [done|].
  apply IH. intros e.
  pose proof (step_lifecycle ev w) as Hl. cbv zeta in Hl.
  destruct ev; try (destruct Hl as (_ & _ & _ & Hl); unfold subscribers in *;
                    rewrite Hl; by apply Hw).
  - destruct Hl as (_ & _ & _ & Hl). unfold subscribers. rewrite Hl, lookup_empty.
    constructor.
  - destruct Hl as (_ & _ & _ & Hl). unfold subscribers at 1. rewrite Hl.
    destruct (decide (event0 = e)) as [->|Hne].
    + rewrite lookup_insert_eq. simpl. by apply set_add_NoDup.
    + rewrite lookup_insert_ne by done. apply Hw.
  - destruct Hl as (_ & _ & _ & Hl). rewrite Hl.
    case_decide; [by apply set_delete_NoDup|apply Hw].
Qed.

(** X4. The observer is connected only while the detector holds it and is
    not disposed, in every world that a detector reaches; so no mutation
    notification reaches a disposed detector. *)
Theorem connected_only_while_live `{Host} (options : Options) (env : Env)
    (evs : list Event) :
  let w := run evs (createDetector options env) in
  connected w = true -> observer w = true /\ disposed w = false.
Proof.
  intros w. subst w. unfold run.
  assert (H0 : connected (createDetector options env) = true ->
               observer (createDetector options env) = true
               /\ disposed (createDetector options env) = false).
  { destruct (createDetector_fields options env)
      as (_ & _ & _ & -> & -> & -> & _).
    intros Hc. apply andb_true_iff in Hc as [Hc _]. done. }
  revert H0. generalize (createDetector options env). clear.
  induction evs as [|ev evs IH]; intros w Hw; simpl; [done|].
  pose proof (step_lifecycle ev w) as Hl. cbv zeta in Hl.
  apply IH.
  destruct ev; try (destruct Hl as (-> & -> & -> & _); done).
  destruct Hl as (-> & -> & -> & _). intros Hc.
  apply andb_true_iff in Hc as [Hc Hno]. apply negb_true_iff in Hno.
  destruct (Hw Hc). congruence.
Qed.

(** X4, at a detector in a browser page, after a subscription and the
    deferred autostart. *)
Lemma connected_only_while_live_witness :
  connected (run (H := simple_host)
               [On (str "update") (quiet_callback 1); Microtask]
               (createDetector NO_OPTIONS browser_env)) = true
  /\ observer (run (H := simple_host)
                 [On (str "update") (quiet_callback 1); Microtask]
                 (createDetector NO_OPTIONS browser_env)) = true
  /\ disposed (run (H := simple_host)
                 [On (str "update") (quiet_callback 1); Microtask]
                 (createDetector NO_OPTIONS browser_env)) = false.
Proof.
  split; [vm_compute; reflexivity|].
  apply (connected_only_while_live (H := simple_host) NO_OPTIONS browser_env
           [On (str "update") (quiet_callback 1); Microtask]).
  vm_compute. reflexivity.
Defined.

(** X5. A detector that was given no error handler never throws into its
    host: every call of its API and every host callback returns, whatever
    the documents, the logger and the subscribers do. *)
Theorem default_handler_never_throws `{Host} (options : Options) (env : Env)
    (evs : list Event) :
  o_errorHandler options = None ->
  Forall (fun r => r = Ok tt) (outcomes evs (createDetector options env)).
Proof.
  intros Hno.
  assert (H0 : exists lg,
    errorHandler (createDetector options env) = createSafeErrorHandler lg).
  { destruct (createDetector_fields options env) as (_ & _ & -> & _).
    rewrite Hno. by eexists. }
  revert H0. generalize (createDetector options env). clear.
  induction evs as [|ev evs IH]; intros w [lg Hw]; simpl; [constructor|].
  pose proof (step_frame ev w) as Hf. cbv zeta in Hf.
  destruct Hf as (_ & He & _ & _ & Hr).
  constructor.
  - destruct Hr as [->|(e & e' & _ & Hh)]; [done|].
    rewrite Hw, safe_handler_returns in Hh. done.
  - apply IH. exists lg. by rewrite He.
Qed.

(** X5, at a detector without observer or autostart whose document throws
    from [querySelectorAll]. *)
Lemma default_handler_never_throws_witness :
  o_errorHandler manual = None
  /\ Forall (fun r => r = Ok tt)
       (outcomes (H := simple_host)
          [Refresh broken_env; Configure NO_OPTIONS broken_env; GetResults]
          (createDetector manual broken_env)).
Proof.
  split; [reflexivity|].
  apply (default_handler_never_throws (H := simple_host) manual broken_env).
  reflexivity.
Defined.

(** X6. The logger and the error handler of a detector are those chosen
    at creation, whatever [configure] is given later; and a detector created
    with [observe: false] never has a connected observer, also after
    [configure({observe: true})]. *)
Theorem collaborators_are_fixed_at_creation `{Host} (options : Options)
    (env : Env) (evs : list Event) :
  let w := run evs (createDetector options env) in
  let lg := default createNoopLogger (o_logger options) in
  logger w = lg
  /\ errorHandler w = default (createSafeErrorHandler lg) (o_errorHandler options)
  /\ (o_observe options = Some false -> connected w = false).
Proof.
  intros w lg. subst w. unfold run.
  assert (H0 : logger (createDetector options env) = lg
    /\ errorHandler (createDetector options env)
       = default (createSafeErrorHandler lg) (o_errorHandler options)
    /\ (o_observe options = Some false ->
        connected (createDetector options env) = false)).
  { destruct (createDetector_fields options env)
      as (_ & -> & -> & _ & _ & -> & _).
    split; [done|]. split; [done|]. intros Ho. simpl. by rewrite Ho. }
  revert H0. generalize (createDetector options env).
  generalize (default (createSafeErrorHandler lg) (o_errorHandler options)).
  generalize lg. clear.
  induction evs as [|ev evs IH]; intros lg h w (Hl & Hh & Hc); simpl; [done|].
  apply IH.
  pose proof (step_frame ev w) as Hf. cbv zeta in Hf.
  destruct Hf as (-> & -> & _).
  split; [done|]. split; [done|]. intros Ho. specialize (Hc Ho).
  pose proof (step_lifecycle ev w) as Hs. cbv zeta in Hs.
  destruct ev; try (destruct Hs as (_ & _ & -> & _); done).
  destruct Hs as (_ & _ & -> & _). by rewrite Hc.
Qed.

(** ** Debounce *)

Section Debounce.
Context {T : Type}.
Variable choose : list nat -> nat.
Hypothesis choose_fresh :
  forall active, (0 < choose active)%nat /\ choose active ∉ active.





(** One call: the timer that [t] names is cleared and a new one is set. *)
Lemma debounced_call (args : T) (t : option nat) (tm : Timers T) :
  debounced choose args (t, tm)
  = (Some (choose (timer_ids (clear_pending t tm))),
     clear_pending t tm ++ [(choose (timer_ids (clear_pending t tm)), args)]).
Proof. reflexivity. Qed.



(** After a call the timer of the debounced function is active. *)
Lemma debounced_pending (args : T) (s : option nat * Timers T) :
  debounce_pending (debounced choose args s) = true.
Proof.
  destruct s as [t tm]. rewrite debounced_call.
  unfold debounce_pending. cbn [fst snd]. unfold timer_ids.
  rewrite fmap_app, existsb_app. cbn [fmap list_fmap fst existsb].
  by rewrite Nat.eqb_refl, orb_true_r.
Qed.

(** The [timer] of the world is the timer of the debounced compute: a call
    of [scheduleCompute] leaves it pending, as a call of the debounced
    function leaves its timer active. *)
Lemma scheduleCompute_is_debounced (args : T) (s : option nat * Timers T)
    (w : World) :
  timer (snd (scheduleCompute w)) = debounce_pending (debounced choose args s).
Proof. by rewrite debounced_pending. Qed.

End Debounce.



Lemma filter_observer_calls (eff : list Effect) :
  Forall (fun x => match x with
                   | EffCallback ev _ _ _ => ev = str "update"
                   | EffHandleError _ a => a = str "compute"
                   | _ => False
                   end) eff ->
  List.filter is_observer_call eff = [].
Proof.
  induction 1 as [|x eff Hx _ IH]; [done|].
  simpl. by destruct x.
Qed.

(** The effects that an event adds: only [dispose] calls the observer. *)
Lemma step_effects `{Host} ev w :
  exists eff,
    effects (snd (step ev w)) = effects w ++ eff
    /\ List.filter is_observer_call eff
       = match ev with
         | Dispose => if observer w then [EffDisconnect] else []
         | _ => []
         end.
Proof.
  destruct ev.
  - rewrite step_microtask. exists []. simpl.
    destruct (microtask w); by rewrite app_nil_r.
  - rewrite step_mutation. exists []. simpl.
    destruct (connected w); by rewrite app_nil_r.
  - rewrite step_timer. destruct (timer w); [|exists []; by rewrite app_nil_r].
    destruct (compute_cases env (set_timer false w))
      as (st & h & eff & r & -> & _ & _ & Hf).
    exists eff. split; [done|]. by apply filter_observer_calls.
  - rewrite step_refresh.
    destruct (compute_cases env w) as (st & h & eff & r & -> & _ & _ & Hf).
    exists eff. split; [done|]. by apply filter_observer_calls.
  - rewrite step_configure.
    destruct (compute_cases env (set_cfg (assign (cfg w) nextCfg) w))
      as (st & h & eff & r & -> & _ & _ & Hf).
    exists eff. split; [done|]. by apply filter_observer_calls.
  - cbn [step]. rewrite dispose_run. simpl.
    destruct (observer w); simpl; [by exists [EffDisconnect]|].
    exists []. by rewrite app_nil_r.
  - cbn [step]. unfold on, Emitter_on. run_m. exists []. by rewrite app_nil_r.
  - cbn [step]. unfold off, Emitter_off. run_m. exists [].
    destruct (listeners w !! event); by rewrite app_nil_r.
  - destruct (step_accessor GetPageClassification w I) as [x ->].
    exists []. by rewrite app_nil_r.
  - destruct (step_accessor GetEntities w I) as [x ->].
    exists []. by rewrite app_nil_r.
  - destruct (step_accessor GetResults w I) as [x ->].
    exists []. by rewrite app_nil_r.
Qed.

(** X8. Over the life of a detector the observer is told to observe at
    most once, at creation, and to disconnect at most once, by the first
    [dispose] of a detector that holds it; nothing attaches it again. *)
Theorem observer_is_attached_and_detached_once `{Host} (options : Options)
    (env : Env) (evs : list Event) :
  let w := run evs (createDetector options env) in
  let calls := List.filter is_observer_call (effects w) in
  if observer w then calls = [EffObserve]
  else calls = [] \/ (calls = [EffObserve; EffDisconnect] /\ disposed w = true).
Proof.
  intros w calls. subst w calls. unfold run.
  assert (H0 :
    if observer (createDetector options env)
    then List.filter is_observer_call (effects (createDetector options env))
         = [EffObserve]
    else List.filter is_observer_call (effects (createDetector options env)) = []
         \/ (List.filter is_observer_call (effects (createDetector options env))
             = [EffObserve; EffDisconnect]
             /\ disposed (createDetector options env) = true)).
  { destruct (createDetector_fields options env)
      as (_ & _ & _ & _ & -> & _ & _ & _ & _ & _ & _ & ->).
    case_match; [done|by left]. }
  revert H0. generalize (createDetector options env). clear.
  induction evs as [|ev evs IH]; intros w Hw; simpl; [done|].
  apply IH.
  destruct (step_effects ev w) as (eff & -> & Hf).
  rewrite List.filter_app, Hf.
  pose proof (step_lifecycle ev w) as Hl. cbv zeta in Hl.
  destruct ev; try (destruct Hl as (-> & -> & _); by rewrite app_nil_r).
  destruct Hl as (-> & -> & _).
  destruct (observer w); [right; by rewrite Hw|].
  rewrite app_nil_r. destruct Hw as [->|[-> _]]; auto.
Qed.

(** ** The state of a running detector *)

Lemma dedupe_keys_NoDup (es : list Entity) :
  NoDup (entity_key <$> dedupeEntities es).
Proof.
  destruct (dedupe_inv_final es) as [Hnd _ Hbest].
  unfold dedupeEntities. rewrite keys_of_values; [done|].
  intros k e Hin. apply elem_map_get in Hin; [|done].
  by destruct (Hbest _ _ Hin).
Qed.

(** X9. In every world that a detector reaches the state can be read, and
    no two of its entities have the same key: whatever the documents held
    and whichever cycles failed, the accessors never show a duplicate. *)
Theorem state_is_always_deduplicated `{Host} (options : Options) (env : Env)
    (evs : list Event) :
  exists r, read_state (run evs (createDetector options env)) = Some r
            /\ NoDup (entity_key <$> r_entities r).
Proof.
  unfold run.
  assert (H0 : exists r, read_state (createDetector options env) = Some r
                         /\ NoDup (entity_key <$> r_entities r)).
  { destruct (createDetector_fields options env)
      as (_ & _ & _ & _ & _ & _ & Hs & Hh & _).
    eexists. unfold read_state, read_page, read_array. rewrite Hs, Hh.
    split; [reflexivity|]. constructor. }
  revert H0. generalize (createDetector options env). clear.
  induction evs as [|ev evs IH]; intros w (r & Hr & Hnd); simpl; [by exists r|].
  apply IH.
  assert (Hwf : wf w) by (unfold wf; by rewrite Hr).
  destruct (step_state ev w Hwf) as [->|(cls & es & now & ->)].
  - by exists r.
  - eexists. split; [reflexivity|]. apply dedupe_keys_NoDup.
Qed.

(** What a cycle of a live detector leaves in the state, as a function of
    the surroundings, the configuration and the logger. *)
Lemma compute_state `{Host} env w :
  wf w -> disposed w = false ->
  read_state (snd (compute env w))
  = match env_document env with
    | None => read_state w
    | Some d =>
      let u := current_url env in
      let cls := classifyPage (Some u) (d_title d) in
      if isAllowedDomain (toLowerCase (or_else (hostname u) [])) (cfg w) then
        match scanLinks d (href u),
              scanInline d (includeSelectors (cfg w)) (maxNodes (cfg w)) with
        | Ok ls, Ok ins =>
          match lg_debug (logger w) (str "compute:scan"),
                lg_debug (logger w) (str "compute:dedupe") with
          | None, None =>
            Some {| r_page := cls; r_entities := dedupeEntities (ls ++ ins);
                    r_lastUpdatedAt := env_now env |}
          | _, _ => read_state w
          end
        | _, _ => read_state w
        end
      else Some {| r_page := cls; r_entities := [];
                   r_lastUpdatedAt := env_now env |}
    end.
Proof.
  intros Hwf Hd.
  assert (Hfail : forall e extra,
    read_state (snd (report e "compute" (set_heap (heap w ++ extra) w)))
    = read_state w).
  { intros e extra. rewrite report_run. simpl.
    apply read_state_agree; [done|done|].
    simpl. intros l Hl. by apply lookup_app_l. }
  destruct (env_document env) as [d|] eqn:Hdoc.
  2: { rewrite (compute_live env w Hd). unfold compute_body. by rewrite Hdoc. }
  cbv zeta.
  destruct (isAllowedDomain _ (cfg w)) eqn:Hallow.
  - destruct (scanLinks d _) as [ls|e] eqn:Hls.
    2: { rewrite (compute_live env w Hd), (compute_body_allowed env w d Hdoc Hallow).
         rewrite collect_run. cbv zeta. rewrite Hls. apply Hfail. }
    destruct (scanInline d _ _) as [ins|e] eqn:Hins.
    2: { rewrite (compute_live env w Hd), (compute_body_allowed env w d Hdoc Hallow).
         rewrite collect_run. cbv zeta. rewrite Hls, Hins. apply Hfail. }
    destruct (lg_debug (logger w) (str "compute:scan")) as [e|] eqn:Hl1.
    { rewrite (compute_live env w Hd), (compute_body_allowed env w d Hdoc Hallow).
      rewrite collect_run. cbv zeta. rewrite Hls, Hins, Hl1. apply Hfail. }
    destruct (lg_debug (logger w) (str "compute:dedupe")) as [e|] eqn:Hl2.
    { rewrite (compute_live env w Hd), (compute_body_allowed env w d Hdoc Hallow).
      rewrite collect_run. cbv zeta. rewrite Hls, Hins, Hl1, Hl2. apply Hfail. }
    by destruct (compute_success env w d ls ins Hd Hdoc Hallow Hls Hins Hl1 Hl2).
  - rewrite (compute_live env w Hd), (compute_body_denied env w d Hdoc Hallow).
    rewrite clear_results_run. cbv zeta.
    destruct (lg_debug (logger w) (str "domain:not-allowed")) as [e|].
    + rewrite report_run. simpl.
      apply (read_cleared (heap w) _ [] (env_now env) w).
    + apply (read_cleared (heap w) _ _ (env_now env) w).
Qed.


(** X11. A cycle of a live detector on an allowed host whose scans and
    logger calls return: [compute] returns, the state is the classification
    of the current URL and title, the deduplicated candidates of the link
    scan followed by those of the inline scan, and the time now; and every
    update subscriber is called once, in the order of subscription, with
    one result object that reads as that same state. *)
Theorem successful_cycle_installs_and_emits `{Host} (env : Env) (w : World)
    (d : Document) (ls ins : list Entity) :
  disposed w = false ->
  env_document env = Some d ->
  isAllowedDomain (toLowerCase (or_else (hostname (current_url env)) [])) (cfg w) = true ->
  scanLinks d (href (current_url env)) = Ok ls ->
  scanInline d (includeSelectors (cfg w)) (maxNodes (cfg w)) = Ok ins ->
  lg_debug (logger w) (str "compute:scan") = None ->
  lg_debug (logger w) (str "compute:dedupe") = None ->
  let w' := snd (compute env w) in
  let expected := {| r_page := classifyPage (Some (current_url env)) (d_title d);
                     r_entities := dedupeEntities (ls ++ ins);
                     r_lastUpdatedAt := env_now env |} in
  fst (compute env w) = Ok tt
  /\ read_state w' = Some expected
  /\ exists payload,
       effects w' = effects w ++
         (invocation (str "update") payload <$> subscribers w (str "update"))
       /\ read_results (heap w') payload = Some expected.
Proof.
  intros Hd Hdoc Hallow Hls Hins Hl1 Hl2 w' expected.
  destruct (compute_success env w d ls ins Hd Hdoc Hallow Hls Hins Hl1 Hl2)
    as [Hok Hst].
  split; [done|]. split; [done|].
  subst w'. revert Hst.
  rewrite (compute_live env w Hd), (compute_body_allowed env w d Hdoc Hallow).
  rewrite collect_run. cbv zeta. rewrite Hls, Hins, Hl1, Hl2.
  rewrite install_run. cbv zeta. cbn [snd]. intros Hst.
  eexists. split; [reflexivity|].
  cbn [heap set_heap set_effects set_state] in *.
  rewrite read_state_effects in Hst.
  match goal with
  | |- read_results (?h ++ results_objects ?ws) _ = _ =>
    pose proof (getResults_reads ws) as Hg;
    rewrite getResults_run in Hg; cbn [snd heap set_heap set_state] in Hg
  end.
  assert (Hread : forall ws,
    heap ws = heap w ++ OPage (classifyPage (Some (current_url env)) (d_title d))
                :: (OEntity <$> dedupeEntities (ls ++ ins))
                ++ [OArray (seq (S (length (heap w)))
                              (length (dedupeEntities (ls ++ ins))))] ->
    state ws = {| page := length (heap w);
                  entities := (S (length (heap w))
                               + length (dedupeEntities (ls ++ ins)))%nat;
                  lastUpdatedAt := env_now env |} ->
    read_state ws = Some expected).
  { intros ws Hh Hs. by eapply (read_installed _ (heap w)). }
  rewrite Hg.
  - by apply Hread.
  - unfold wf. by rewrite Hread.
Qed.

(** X11, at the example page: two links to one article and a mention in a
    paragraph, with one subscriber. *)
Lemma successful_cycle_installs_and_emits_witness :
  exists ls ins payload,
    scanLinks (H := simple_host) wiki_page
      (href (current_url (H := simple_host) wiki_env)) = Ok ls
    /\ scanInline (H := simple_host) wiki_page
         (includeSelectors DEFAULT_CONFIG) (maxNodes DEFAULT_CONFIG) = Ok ins
    /\ length (dedupeEntities (ls ++ ins)) = 3%nat
    /\ read_results
         (heap (snd (compute (H := simple_host) wiki_env
                       (run (H := simple_host) [On (str "update") (quiet_callback 1)]
                          (createDetector manual wiki_env)))))
         payload
       = read_state
           (snd (compute (H := simple_host) wiki_env
                   (run (H := simple_host) [On (str "update") (quiet_callback 1)]
                      (createDetector manual wiki_env)))).
Proof.
  destruct (scanLinks (H := simple_host) wiki_page
              (href (current_url (H := simple_host) wiki_env))) as [ls|] eqn:Hls;
    [|vm_compute in Hls; discriminate].
  destruct (scanInline (H := simple_host) wiki_page
              (includeSelectors DEFAULT_CONFIG) (maxNodes DEFAULT_CONFIG))
    as [ins|] eqn:Hins; [|vm_compute in Hins; discriminate].
  destruct (successful_cycle_installs_and_emits (H := simple_host) wiki_env
              (run (H := simple_host) [On (str "update") (quiet_callback 1)]
                 (createDetector manual wiki_env))
              wiki_page ls ins)
    as (_ & Hst & payload & _ & Hp);
    [reflexivity|reflexivity|vm_compute; reflexivity|exact Hls|exact Hins
    |reflexivity|reflexivity|].
  exists ls, ins, payload.
  split; [reflexivity|]. split; [reflexivity|].
  split; [|by rewrite Hst, Hp].
  vm_compute in Hls. injection Hls as <-.
  vm_compute in Hins. injection Hins as <-.
  vm_compute. reflexivity.
Defined.

(** ** Deduplication, again *)

Lemma map_set_fresh {V} (k : jsstring) (v : V) (m : JsMap V) :
  k ∉ m.*1 -> map_set k v m = m ++ [(k, v)].
Proof.
  induction m as [|[k0 x] m IH]; intros Hk; [done|].
  rewrite fmap_cons in Hk. apply not_elem_of_cons in Hk as [Hne Hk].
  simpl. unfold jsstring_eqb. rewrite bool_decide_eq_false_2 by (simpl in Hne; congruence).
  by rewrite IH.
Qed.

Lemma dedupe_fold_distinct (es : list Entity) : forall m : JsMap Entity,
  NoDup (m.*1 ++ (entity_key <$> es)) ->
  map_values (foldl dedupe_step m es) = map_values m ++ es.
Proof.
  induction es as [|e es IH]; intros m Hnd; simpl.
  - by rewrite app_nil_r.
  - assert (Hfresh : entity_key e ∉ m.*1).
    { apply NoDup_app in Hnd as (_ & Hdisj & _). intros Hin.
      apply (Hdisj _ Hin). rewrite fmap_cons. left. }
    unfold dedupe_step at 2.
    rewrite (proj2 (map_get_None _ _) Hfresh), (map_set_fresh _ _ _ Hfresh).
    rewrite IH.
    + unfold map_values. rewrite fmap_app. simpl. by rewrite <- app_assoc.
    + rewrite fmap_app. simpl. rewrite <- app_assoc. exact Hnd.
Qed.

Lemma dedupe_step_length (m : JsMap Entity) (e : Entity) :
  (length (dedupe_step m e) <= S (length m))%nat.
Proof.
  assert (Hset : forall k v (m : JsMap Entity),
    (length (map_set k v m) <= S (length m))%nat).
  { intros k v. induction m0 as [|[k0 x] m0 IH]; simpl; [lia|].
    destruct (jsstring_eqb k0 k); simpl; lia. }
  unfold dedupe_step. destruct (map_get _ m); [|apply Hset].
  destruct (Nat.ltb _ _); [apply Hset|lia].
Qed.

Lemma dedupe_fold_length (es : list Entity) : forall m : JsMap Entity,
  (length (foldl dedupe_step m es) <= length m + length es)%nat.
Proof.
  induction es as [|e es IH]; intros m; simpl; [lia|].
  specialize (IH (dedupe_step m e)).
  pose proof (dedupe_step_length m e). lia.
Qed.

(** X12. Deduplication leaves a list without duplicate keys as it is, in
    the same order; so it is idempotent, and its result is never longer
    than its input. *)
Theorem dedupe_is_idempotent (es : list Entity) :
  (NoDup (entity_key <$> es) -> dedupeEntities es = es)
  /\ dedupeEntities (dedupeEntities es) = dedupeEntities es
  /\ (length (dedupeEntities es) <= length es)%nat.
Proof.
  assert (Hfix : forall l, NoDup (entity_key <$> l) -> dedupeEntities l = l).
  { intros l Hnd. unfold dedupeEntities. by rewrite dedupe_fold_distinct. }
  split; [apply Hfix|]. split.
  - apply Hfix, dedupe_keys_NoDup.
  - unfold dedupeEntities, map_values. rewrite length_fmap.
    apply (dedupe_fold_length es []).
Qed.

(** ** The scanners *)

Lemma scan_text_shape `{Host} (el : Element) (text : jsstring) :
  forall safety lastIndex,
    (length (scan_text el text safety lastIndex) <= safety)%nat
    /\ Forall (fun e => e_context e = inline /\ e_confidence e = low
                        /\ e_url e = None /\ e_element e = Some (el_ref el))
         (scan_text el text safety lastIndex).
Proof.
  induction safety as [|safety IH]; intros lastIndex; simpl.
  - split; [lia|constructor].
  - destruct (exec_from text ID_INLINE_REGEX lastIndex) as [m|];
      [|split; [simpl; lia|constructor]].
    destruct (IH (m_end m)) as [Hlen Hall].
    destruct (normalizeIdentifier _); simpl.
    + split; [lia|]. constructor; [done|exact Hall].
    + split; [lia|exact Hall].
Qed.

Lemma concat_length_bound {A B} (f : A -> list B) (n : nat) (l : list A) :
  (forall x, x ∈ l -> (length (f x) <= n)%nat) ->
  (length (concat (f <$> l)) <= length l * n)%nat.
Proof.
  induction l as [|x l IH]; intros Hb; [simpl; lia|].
  rewrite fmap_cons. cbn [concat]. rewrite length_app. cbn [length Nat.mul].
  pose proof (Hb x (list_elem_of_here _ _)) as Hx.
  assert (length (concat (f <$> l)) <= length l * n)%nat.
  { apply IH. intros y Hy. apply Hb. by right. }
  lia.
Qed.

(** X13. The inline scan looks at no more than [maxNodes] elements, in
    document order, and takes at most 20 mentions from each; every
    candidate has the context inline, the confidence low, no URL, and the
    element it was found in, which is not an excluded one. *)
Theorem scanInline_is_bounded `{Host} (doc : Document) (sel : jsstring)
    (maxNodes : Z) (nodes : list Element) :
  d_querySelectorAll doc sel = Ok nodes ->
  exists es,
    scanInline doc sel maxNodes = Ok es
    /\ (Z.of_nat (length es) <= 20 * Z.max 0 (Z.min (Z.of_nat (length nodes)) maxNodes))%Z
    /\ Forall (fun e =>
         e_context e = inline /\ e_confidence e = low /\ e_url e = None
         /\ exists i el, nodes !! i = Some el /\ (Z.of_nat i < maxNodes)%Z
              /\ e_element e = Some (el_ref el)
              /\ elementExcluded el (excludeSelectors DEFAULT_CONFIG) = false) es.
Proof.
  intros Hq. unfold scanInline. rewrite Hq. cbv zeta.
  eexists. split; [reflexivity|].
  set (n := Z.to_nat (Z.min (Z.of_nat (length nodes)) maxNodes)).
  assert (Hel : forall el, (length (scan_element el) <= 20)%nat
    /\ Forall (fun e => e_context e = inline /\ e_confidence e = low
                 /\ e_url e = None /\ e_element e = Some (el_ref el)
                 /\ elementExcluded el (excludeSelectors DEFAULT_CONFIG) = false)
         (scan_element el)).
  { intros el. unfold scan_element.
    destruct (elementExcluded el _) eqn:Hex; [split; [simpl; lia|constructor]|].
    cbv zeta. destruct (negb _); [split; [simpl; lia|constructor]|].
    destruct (scan_text_shape el
                (trim (or_else (default [] (el_textContent el)) [])) 20 0)
      as [Hlen Hall].
    split; [done|]. eapply Forall_impl; [exact Hall|].
    intros e (? & ? & ? & ?). done. }
  split.
  - pose proof (concat_length_bound scan_element 20 (take n nodes)
                  (fun el _ => proj1 (Hel el))) as Hb.
    rewrite length_take in Hb. subst n. lia.
  - apply Forall_concat, Forall_fmap, Forall_forall. intros el Hin.
    apply list_elem_of_lookup in Hin as [i Hi].
    apply lookup_take_Some in Hi as [Hi Hlt].
    eapply Forall_impl; [exact (proj2 (Hel el))|].
    intros e (? & ? & ? & ? & ?). repeat split; try done.
    exists i, el. repeat split; try done. subst n. lia.
Qed.

(** X13, at the paragraph of the example page. *)
Lemma scanInline_is_bounded_witness :
  exists nodes es,
    d_querySelectorAll wiki_page (str "p") = Ok nodes
    /\ scanInline (H := simple_host) wiki_page (str "p") 5000 = Ok es
    /\ length es = 1%nat.
Proof.
  destruct (d_querySelectorAll wiki_page (str "p")) as [nodes|] eqn:Hq;
    [|vm_compute in Hq; discriminate].
  destruct (scanInline_is_bounded (H := simple_host) wiki_page (str "p") 5000
              nodes Hq) as (es & Hes & _).
  exists nodes, es. split; [reflexivity|]. split; [exact Hes|].
  vm_compute in Hes. injection Hes as <-. reflexivity.
Defined.

(** X14. The link scan yields at most one candidate for each anchor, in
    document order; every candidate has the context link, the confidence
    high or medium, the resolved URL of its anchor, and the anchor as its
    element, and comes from an anchor that is not excluded and has a
    non-empty href that resolves against the base. *)
Theorem scanLinks_one_per_anchor `{Host} (doc : Document) (baseHref : jsstring)
    (anchors : list Element) :
  d_querySelectorAll doc (str "a[href]") = Ok anchors ->
  exists es,
    scanLinks doc baseHref = Ok es
    /\ (length es <= length anchors)%nat
    /\ Forall (fun e =>
         e_context e = link
         /\ (e_confidence e = high \/ e_confidence e = medium)
         /\ exists a href_attr u,
              a ∈ anchors
              /\ elementExcluded a (excludeSelectors DEFAULT_CONFIG) = false
              /\ el_href a = Some href_attr /\ href_attr <> []
              /\ safeURL href_attr baseHref = Some u
              /\ e_url e = or_null (Some (href u))
              /\ e_element e = Some (el_ref a)) es.
Proof.
  intros Hq. unfold scanLinks. rewrite Hq.
  eexists. split; [reflexivity|].
  assert (Htext : forall a u,
    (length (scan_link_text a u) <= 1)%nat
    /\ Forall (fun e => e_context e = link /\ e_confidence e = medium
                 /\ e_url e = or_null (Some (href u))
                 /\ e_element e = Some (el_ref a)) (scan_link_text a u)).
  { intros a u. unfold scan_link_text. cbv zeta.
    destruct (negb _); [split; [simpl; lia|constructor]|].
    destruct (normalizeIdentifier _); [|split; [simpl; lia|constructor]].
    split; [simpl; lia|]. by repeat constructor. }
  assert (Hone : forall a,
    (length (scan_link baseHref a) <= 1)%nat
    /\ Forall (fun e =>
         e_context e = link
         /\ (e_confidence e = high \/ e_confidence e = medium)
         /\ exists href_attr u,
              elementExcluded a (excludeSelectors DEFAULT_CONFIG) = false
              /\ el_href a = Some href_attr /\ href_attr <> []
              /\ safeURL href_attr baseHref = Some u
              /\ e_url e = or_null (Some (href u))
              /\ e_element e = Some (el_ref a)) (scan_link baseHref a)).
  { intros a. unfold scan_link.
    destruct (elementExcluded a _) eqn:Hex; [split; [simpl; lia|constructor]|].
    destruct (el_href a) as [h|] eqn:Hh; cbn [or_null];
      [|split; [simpl; lia|constructor]].
    destruct (truthy h) eqn:Ht; [|split; [simpl; lia|constructor]].
    assert (h <> []) by (by destruct h).
    destruct (safeURL h baseHref) as [u|] eqn:Hu; [|split; [simpl; lia|constructor]].
    cbv zeta.
    assert (Hfallback :
      (length (scan_link_text a u) <= 1)%nat
      /\ Forall (fun e =>
         e_context e = link
         /\ (e_confidence e = high \/ e_confidence e = medium)
         /\ exists href_attr u,
              false = false
              /\ Some h = Some href_attr /\ href_attr <> []
              /\ safeURL href_attr baseHref = Some u
              /\ e_url e = or_null (Some (href u))
              /\ e_element e = Some (el_ref a)) (scan_link_text a u)).
    { destruct (Htext a u) as [Hl Hf]. split; [done|].
      eapply Forall_impl; [exact Hf|]. intros e (? & ? & ? & ?).
      split; [done|]. split; [by right|]. by exists h, u. }
    destruct (exec RE_LINK_PATH _) as [m|]; [|exact Hfallback].
    destruct (normalizeIdentifier _) as [norm|]; [|exact Hfallback].
    split; [simpl; lia|]. constructor; [|constructor].
    split; [done|]. split; [by left|]. by exists h, u. }
  split.
  - pose proof (concat_length_bound (scan_link baseHref) 1 anchors
                  (fun a _ => proj1 (Hone a))) as Hb. lia.
  - apply Forall_concat, Forall_fmap, Forall_forall. intros a Hin.
    eapply Forall_impl; [exact (proj2 (Hone a))|].
    intros e (? & ? & h & u & ?). split; [done|]. split; [done|].
    by exists a, h, u.
Qed.

(** X14, at the two anchors of the example page. *)
Lemma scanLinks_one_per_anchor_witness :
  exists anchors es,
    d_querySelectorAll wiki_page (str "a[href]") = Ok anchors
    /\ scanLinks (H := simple_host) wiki_page
         (str "https://scp-wiki.wikidot.com/test") = Ok es
    /\ length es = 2%nat.
Proof.
  destruct (d_querySelectorAll wiki_page (str "a[href]")) as [anchors|] eqn:Hq;
    [|vm_compute in Hq; discriminate].
  destruct (scanLinks_one_per_anchor (H := simple_host) wiki_page
              (str "https://scp-wiki.wikidot.com/test") anchors Hq)
    as (es & Hes & _).
  exists anchors, es. split; [reflexivity|]. split; [exact Hes|].
  vm_compute in Hes. injection Hes as <-. reflexivity.
Defined.

(** ** Replacing the matches of a character class *)

Lemma match_at_char (s : jsstring) (p : char -> bool) (i : nat) :
  match_at s (RChar p) i
  = match s !! i with
    | Some ch =>
      if p ch then Some {| m_index := i; m_end := S i; m_caps := [] |} else None
    | None => None
    end.
Proof.
  unfold match_at. cbn [rmatch].
  destruct (s !! i) as [ch|]; [destruct (p ch)|]; reflexivity.
Qed.

(** The search for a character of a class finds the first one. *)
Lemma search_char (s : jsstring) (p : char -> bool) : forall fuel i,
  (i + fuel = length s)%nat ->
  match search s (RChar p) fuel i with
  | Some m =>
    m_end m = S (m_index m) /\ (i <= m_index m)%nat
    /\ (exists ch, s !! m_index m = Some ch /\ p ch = true)
    /\ (forall t ch, (i <= t < m_index m)%nat -> s !! t = Some ch -> p ch = false)
  | None => forall t ch, (i <= t)%nat -> s !! t = Some ch -> p ch = false
  end.
Proof.
  induction fuel as [|fuel IH]; intros i Hi; cbn [search]; rewrite match_at_char.
  - destruct (s !! i) as [ch|] eqn:Hch; [apply lookup_lt_Some in Hch; lia|].
    intros t ch Ht Hs. apply lookup_lt_Some in Hs. lia.
  - destruct (s !! i) as [ch|] eqn:Hch; [|apply lookup_ge_None in Hch; lia].
    destruct (p ch) eqn:Hp.
    + cbn [m_end m_index]. split; [done|]. split; [done|]. split; [by exists ch|].
      intros t ch' Ht. lia.
    + specialize (IH (S i)). destruct (search s (RChar p) fuel (S i)) as [m|].
      * destruct IH as (He & Hle & Hex & Hbefore); [lia|].
        split; [done|]. split; [lia|]. split; [done|].
        intros t ch' Ht Hs. destruct (decide (t = i)) as [->|Hne].
        -- congruence.
        -- apply (Hbefore t ch'); [lia|done].
      * intros t ch' Ht Hs. destruct (decide (t = i)) as [->|Hne].
        -- congruence.
        -- apply (IH ltac:(lia) t ch'); [lia|done].
Qed.

Lemma fmap_unchanged (f : N -> N) (l : list N) :
  (forall t ch, l !! t = Some ch -> f ch = ch) -> f <$> l = l.
Proof.
  intros Hf. apply list_eq. intros t. rewrite list_lookup_fmap.
  destruct (l !! t) as [ch|] eqn:E; [|done]. simpl. f_equal. by apply (Hf t).
Qed.

(** With the [g] flag, replacing a character class by one character maps
    the string character by character. *)
Lemma replace_loop_char (s : jsstring) (p : char -> bool) (d : char) :
  forall fuel from,
    (from <= length s)%nat -> (length s - from < fuel)%nat ->
    replace_loop (RChar p) [d] s fuel from
    = (fun c => if p c then d else c) <$> drop from s.
Proof.
  induction fuel as [|fuel IH]; intros from Hle Hfuel; [lia|].
  cbn [replace_loop]. unfold exec_from.
  replace (Nat.ltb (length s) from) with false
    by (symmetry; apply Nat.ltb_ge; lia).
  pose proof (search_char s p (length s - from) from ltac:(lia)) as Hs.
  destruct (search s (RChar p) (length s - from) from) as [m|].
  - destruct Hs as (He & Hfrom & (ch & Hch & Hp) & Hbefore).
    rewrite He, (proj2 (Nat.eqb_neq _ _)) by lia.
    pose proof (lookup_lt_Some _ _ _ Hch) as Hlt.
    rewrite IH by lia. unfold substring.
    rewrite <- (take_drop (m_index m - from) (drop from s)) at 2.
    rewrite fmap_app, drop_drop.
    replace (from + (m_index m - from))%nat with (m_index m) by lia.
    rewrite (drop_S _ _ _ Hch), fmap_cons, Hp.
    rewrite (fmap_unchanged _ (take (m_index m - from) (drop from s)));
      [reflexivity|].
    intros t c Ht. apply lookup_take_Some in Ht as [Ht Hlt'].
    rewrite lookup_drop in Ht.
    rewrite (Hbefore (from + t)%nat c); [done|lia|done].
  - rewrite fmap_unchanged; [reflexivity|].
    intros t c Ht. rewrite lookup_drop in Ht.
    rewrite (Hs (from + t)%nat c); [done|lia|done].
Qed.

(** X15. [unifyDashes] maps a string code unit by code unit: each of the
    seven dash characters becomes the ASCII hyphen and every other code
    unit stays; so the length is kept and a second application changes
    nothing. *)
Theorem unifyDashes_is_a_map (text : jsstring) :
  unifyDashes text = unify_dash <$> text
  /\ length (unifyDashes text) = length text
  /\ unifyDashes (unifyDashes text) = unifyDashes text.
Proof.
  assert (Hmap : forall t, unifyDashes t = unify_dash <$> t).
  { intros t. unfold unifyDashes. destruct t as [|c t]; [done|].
    cbn [truthy negb]. unfold replace_all, RE_DASH.
    change (str "-") with [45].
    rewrite replace_loop_char by (simpl; lia). reflexivity. }
  split; [apply Hmap|]. split.
  - by rewrite Hmap, length_fmap.
  - rewrite !Hmap, <- list_fmap_compose. apply list_fmap_ext.
    intros _ c _. simpl. unfold unify_dash.
    destruct (char_in DASH_CLASS c) eqn:Hc; [reflexivity|]. by rewrite Hc.
Qed.

(** ** Whitespace around an identifier *)

Lemma trim_start_spaces (ws x : list N) :
  Forall (fun c => is_space c = true) ws -> trim_start (ws ++ x) = trim_start x.
Proof.
  induction 1 as [|c ws Hc _ IH]; [done|]. simpl. by rewrite Hc.
Qed.

Lemma trim_start_all_space (x : list N) :
  trim_start x = [] -> Forall (fun c => is_space c = true) x.
Proof.
  induction x as [|c x IH]; simpl; [constructor|].
  destruct (is_space c) eqn:Hc; [|discriminate].
  intros Hx. constructor; [done|by apply IH].
Qed.

Lemma trim_start_app (x y : list N) :
  trim_start x <> [] -> trim_start (x ++ y) = trim_start x ++ y.
Proof.
  induction x as [|c x IH]; simpl; [done|].
  destruct (is_space c); [apply IH|done].
Qed.

Lemma trim_pad (ws1 raw ws2 : list N) :
  Forall (fun c => is_space c = true) ws1 ->
  Forall (fun c => is_space c = true) ws2 ->
  trim (ws1 ++ raw ++ ws2) = trim raw.
Proof.
  intros H1 H2. unfold trim. rewrite (trim_start_spaces ws1) by done.
  destruct (decide (trim_start raw = [])) as [Hr|Hr].
  - rewrite Hr.
    assert (Hall : Forall (fun c => is_space c = true) (raw ++ ws2)).
    { apply Forall_app. split; [by apply trim_start_all_space|done]. }
    pose proof (trim_start_spaces (raw ++ ws2) [] Hall) as Hs.
    rewrite app_nil_r in Hs. by rewrite Hs.
  - rewrite (trim_start_app raw ws2 Hr), rev_app_distr.
    rewrite trim_start_spaces; [done|].
    apply Forall_forall. intros c Hc. apply list_elem_of_In, in_rev, list_elem_of_In in Hc.
    by apply (proj1 (Forall_forall _ _) H2).
Qed.

Lemma normalize_by_trim `{Host} (raw raw' : jsstring) :
  trim raw = trim raw' -> normalizeIdentifier raw = normalizeIdentifier raw'.
Proof.
  intros Ht. unfold normalizeIdentifier.
  destruct raw as [|c raw], raw' as [|c' raw']; cbn [truthy negb].
  - reflexivity.
  - rewrite <- Ht. reflexivity.
  - rewrite Ht. reflexivity.
  - by rewrite Ht.
Qed.

(** X16. White space before and after an identifier never matters to the
    normalizer: padding an input with code units that [trim] strips gives
    the same result, also when the input itself is empty. *)
Theorem normalize_ignores_padding `{Host} (ws1 raw ws2 : jsstring) :
  Forall (fun c => is_space c = true) ws1 ->
  Forall (fun c => is_space c = true) ws2 ->
  normalizeIdentifier (ws1 ++ raw ++ ws2) = normalizeIdentifier raw.
Proof. intros H1 H2. apply normalize_by_trim. by apply trim_pad. Qed.

(** X16, at "SCP-173" between a tab, a space and a no-break space in front
    and a line feed behind. *)
Lemma normalize_ignores_padding_witness :
  Forall (fun c => is_space c = true) [9; 32; 160]
  /\ Forall (fun c => is_space c = true) [10]
  /\ normalizeIdentifier (H := simple_host) ([9; 32; 160] ++ str "SCP-173" ++ [10])
     = Some {| n_id := str "scp-173"; n_kind := scp |}.
Proof.
  split; [by repeat constructor|]. split; [by repeat constructor|].
  etrans; [apply (normalize_ignores_padding (H := simple_host) [9; 32; 160]
                    (str "SCP-173") [10]); by repeat constructor|].
  vm_compute. reflexivity.
Defined.

(** ** The kind of a normalized identifier *)

Lemma ci_eq_nonletter (p c : N) :
  is_lower p = false -> is_upper p = false -> ci_eq p c = true -> c = p.
Proof.
  unfold ci_eq, ascii_upper, is_lower, is_upper, in_range.
  intros Hl Hu Hc. rewrite Hl in Hc.
  apply andb_true_iff in Hc as [_ Hc]. apply N.eqb_eq in Hc.
  destruct ((97 <=? c) && (c <=? 122)) eqn:E; [|done].
  apply andb_true_iff in E as [E1 E2].
  apply N.leb_le in E1, E2.
  apply andb_false_iff in Hu as [Hu|Hu]; apply N.leb_gt in Hu; lia.
Qed.

(** The test for 001 looks at the three code units after the prefix. *)
Lemma test_001_inv (x : jsstring) :
  test RE_001 ([115; 99; 112; 45] ++ x) = true ->
  exists x', x = 48 :: 48 :: 49 :: x'.
Proof.
  unfold test. intros Ht. apply bool_decide_eq_true in Ht as [m Hm].
  unfold RE_001 in Hm. cbn [rseq] in Hm. rewrite exec_bol in Hm.
  unfold match_at in Hm. vm_compute str in Hm.
  cbn -[ci_eq at_word_boundary] in Hm.
  change (ci_eq 115 115) with true in Hm. change (ci_eq 99 99) with true in Hm.
  change (ci_eq 112 112) with true in Hm. change (ci_eq 45 45) with true in Hm.
  change (ci_eq 48 115) with false in Hm. cbv iota in Hm.
  destruct x as [|a [|b [|c x']]]; cbn -[ci_eq at_word_boundary] in Hm;
    try discriminate;
    try (destruct (ci_eq 48 a); discriminate);
    try (destruct (ci_eq 48 a); [destruct (ci_eq 48 b)|]; discriminate).
  destruct (ci_eq 48 a) eqn:Ea; [|discriminate].
  destruct (ci_eq 48 b) eqn:Eb; [|discriminate].
  destruct (ci_eq 49 c) eqn:Ec; [|discriminate].
  apply ci_eq_nonletter in Ea, Eb, Ec; try reflexivity. subst. by eexists.
Qed.

(** What the greedy run of zeros before a digit leaves behind. *)
Lemma leading_zeros_run (s : jsstring) :
  let K : cont := fun j c =>
    rmatch s (RLook true (RChar is_digit)) j c (fun j c => Some (j, c)) in
  forall fuel lo i c,
    (lo <= 1)%nat -> (length s - i < fuel)%nat ->
    match repeat_matcher (rmatch s (RChar (N.eqb 48))) (clear_caps [])
            fuel lo None i c K with
    | Some (j, _) => no_zero_then_digit s j
    | None =>
      if Nat.eqb lo 0
      then forall ch, s !! i = Some ch -> is_digit ch = false
      else no_zero_then_digit s i
    end.
Proof.
  intros K. induction fuel as [|fuel IH]; intros lo i c Hlo Hfuel; [lia|].
  assert (HK : forall j c', K j c'
    = match s !! j with
      | Some ch => if is_digit ch then Some (j, c') else None
      | None => None
      end).
  { intros j c'. unfold K. cbn [rmatch].
    destruct (s !! j) as [ch|]; [destruct (is_digit ch)|]; reflexivity. }
  cbn [repeat_matcher rmatch].
  destruct (s !! i) as [ch|] eqn:Hch.
  - pose proof (lookup_lt_Some _ _ _ Hch) as Hlt.
    destruct (N.eqb 48 ch) eqn:Hz.
    + apply N.eqb_eq in Hz. subst ch.
      replace (Nat.eqb (S i) i) with false by (symmetry; apply Nat.eqb_neq; lia).
      rewrite andb_false_r.
      specialize (IH (Nat.pred lo) (S i) (clear_caps [] c) ltac:(lia) ltac:(lia)).
      change (Nat.pred <$> None) with (@None nat).
      destruct lo as [|[|lo]]; [| |lia]; cbn [Nat.ltb Nat.leb Nat.pred Nat.eqb] in *.
      * destruct (repeat_matcher _ _ fuel 0 None (S i) _ K) as [[j c']|]; [exact IH|].
        rewrite HK, Hch. change (is_digit 48) with true. cbv iota.
        intros [_ (d & Hd & Hdig)]. rewrite (IH d Hd) in Hdig. discriminate.
      * destruct (repeat_matcher _ _ fuel 0 None (S i) _ K) as [[j c']|]; [exact IH|].
        intros [_ (d & Hd & Hdig)]. rewrite (IH d Hd) in Hdig. discriminate.
    + apply N.eqb_neq in Hz.
      destruct lo as [|[|lo]]; [| |lia]; cbn [Nat.ltb Nat.leb Nat.eqb].
      * rewrite HK, Hch. destruct (is_digit ch) eqn:Hd.
        -- intros [Hs _]. congruence.
        -- intros ch' Hch'. congruence.
      * intros [Hs _]. congruence.
  - destruct lo as [|[|lo]]; [| |lia]; cbn [Nat.ltb Nat.leb Nat.eqb].
    + rewrite HK, Hch. intros ch' Hch'. congruence.
    + intros [Hs _]. congruence.
Qed.

(** After the leading zeros are stripped, the text does not start with a
    zero that a digit follows. *)
Lemma strip_leading_zeros (base : jsstring) :
  no_zero_then_digit (replace_first RE_LEADING_ZEROS [] base) 0.
Proof.
  unfold replace_first, RE_LEADING_ZEROS. cbn [rseq]. rewrite exec_bol.
  unfold match_at. cbn [rmatch Nat.eqb rplus].
  pose proof (leading_zeros_run base (1 + length base + 1) 1 0 []
                ltac:(lia) ltac:(lia)) as Hrun.
  cbv zeta in Hrun. cbn [groups_of].
  destruct (repeat_matcher _ _ _ 1 None 0%nat [] _) as [[j c]|].
  - cbn [m_index m_end]. rewrite take_0. cbn [app].
    unfold no_zero_then_digit in *.
    assert (Hd : forall t, (drop j base : jsstring) !! t = base !! (j + t)%nat)
      by (intros t; apply lookup_drop).
    rewrite !Hd. replace (j + 0)%nat with j by lia.
    replace (j + 1)%nat with (S j) by lia. exact Hrun.
  - exact Hrun.
Qed.

(** X17. The normalizer never returns the kind proposal_or_article: the
    id it tests for 001 has had its leading zeros stripped, so the test
    never succeeds, for any input.  The kind is scp_variant when the id has
    one of the suffixes -j, -ex, -arc, -d at a word boundary and scp
    otherwise, and every id starts with scp-. *)
Theorem normalized_kind_is_never_proposal `{Host} (raw : jsstring) :
  match normalizeIdentifier raw with
  | Some n =>
    n_kind n = (if test RE_VARIANT (n_id n) then scp_variant else scp)
    /\ take 4 (n_id n) = str "scp-"
  | None => True
  end.
Proof.
  unfold normalizeIdentifier.
  destruct (negb (truthy raw)); [done|]. cbv zeta.
  set (s := replace_all RE_SPACED_HYPHEN (str "-") (unifyDashes (trim raw))).
  destruct (exec RE_IDENT s) as [m|]; [|done].
  cbn [n_kind n_id].
  set (base := default [] (group s m 1)).
  set (rest := default [] (group s m 2)).
  set (id := if truthy rest then _ else _).
  assert (Hid : exists x, id = [115; 99; 112; 45] ++ x
                          /\ forall x', x <> 48 :: 48 :: 49 :: x').
  { assert (Hsfx : exists sfx, (sfx = [] \/ exists t, sfx = 45 :: t)
      /\ id = (if jsstring_eqb base REDACTED then str "scp-unknown"
               else str "scp-" ++ or_else (replace_first RE_LEADING_ZEROS [] base)
                                          (str "0")) ++ sfx).
    { subst id. destruct (truthy rest).
      - eexists. split; [right; by eexists|]. reflexivity.
      - exists []. split; [by left|]. by rewrite app_nil_r. }
    destruct Hsfx as (sfx & Hsfx & ->).
    destruct (jsstring_eqb base REDACTED).
    - exists ([117; 110; 107; 110; 111; 119; 110] ++ sfx). split; [reflexivity|].
      intros x' Hx. discriminate.
    - pose proof (strip_leading_zeros base) as Hz.
      exists (or_else (replace_first RE_LEADING_ZEROS [] base) (str "0") ++ sfx).
      split; [by rewrite <- app_assoc|].
      destruct (replace_first RE_LEADING_ZEROS [] base) as [|a [|b y]];
        intros x' Hx.
      + destruct Hsfx as [->|[t ->]]; discriminate.
      + destruct Hsfx as [->|[t ->]]; discriminate.
      + injection Hx as -> -> _. apply Hz. split; [reflexivity|].
        exists 48. split; reflexivity. }
  destruct Hid as (x & -> & Hx).
  rewrite replace_scp_prefix.
  destruct (test RE_001 ([115; 99; 112; 45] ++ x)) eqn:E.
  { apply test_001_inv in E as [x' ->]. by destruct (Hx x'). }
  split; reflexivity.
Qed.

(** ** Site and page type *)

Lemma default_map_entries (h : jsstring) (i : SiteInfo) :
  DEFAULT_DOMAIN_MAP !! h = Some i ->
  site i = str "scp-wiki" /\ truthy (locale i) = true
  /\ locale i <> str "unknown".
Proof.
  intros Hi. unfold DEFAULT_DOMAIN_MAP in Hi.
  apply elem_of_list_to_map_2 in Hi.
  repeat (apply elem_of_cons in Hi as [Hi|Hi];
          [injection Hi as -> ->; split; [reflexivity|];
           split; [reflexivity|]; vm_compute; discriminate|]).
  by apply elem_of_nil in Hi.
Qed.

(** X18. The site of a classification is scp-wiki exactly when the
    lower-cased host name is one of the keys of the built-in domain map
    (an exact match: no other subdomain counts), and then the locale is
    that entry's; otherwise site and locale are both unknown.  The type
    non_scp is only given on the known wiki and the type unknown only off
    it, and the canonical URL is the href of the URL object. *)
Theorem classified_site_and_type `{Host} (urlObj : option URLObj)
    (title : option jsstring) :
  let c := classifyPage urlObj title in
  let host := toLowerCase (or_else (hostname (default NO_URL urlObj)) []) in
  match DEFAULT_DOMAIN_MAP !! host with
  | Some i => p_site c = str "scp-wiki" /\ p_locale c = locale i
              /\ p_type c <> unknown
  | None => p_site c = str "unknown" /\ p_locale c = str "unknown"
            /\ p_type c <> non_scp
  end
  /\ p_canonicalUrl c = href (default NO_URL urlObj).
Proof.
  intros c host. subst c. unfold classifyPage. cbv zeta. fold host.
  change (domainMap DEFAULT_CONFIG) with DEFAULT_DOMAIN_MAP.
  match goal with
  | |- context [let '(a, b) := ?e in _] => destruct e as [ty conf] eqn:E
  end.
  cbn [p_site p_locale p_type p_canonicalUrl].
  split; [|unfold or_else; by destruct (href (default NO_URL urlObj))].
  unfold lookup_site, lookup_locale in *.
  destruct (DEFAULT_DOMAIN_MAP !! host) as [i|] eqn:Hi.
  - destruct (default_map_entries host i Hi) as (Hs & Hl & _).
    unfold or_else in *. rewrite Hs, Hl in *.
    change (truthy (str "scp-wiki")) with true in *. cbv iota in *.
    change (jsstring_eqb (str "scp-wiki") (str "scp-wiki")) with true in E.
    split; [done|]. split; [done|].
    repeat case_match; injection E as <- _; done.
  - change (jsstring_eqb (str "unknown") (str "scp-wiki")) with false in E.
    split; [done|]. split; [done|].
    repeat case_match; injection E as <- _; done.
Qed.

(** ** The allow-list *)

Lemma ascii_lower_not_upper (c : N) : is_upper (ascii_lower c) = false.
Proof.
  unfold ascii_lower. destruct (is_upper c) eqn:E; [|done].
  unfold is_upper, in_range in *.
  apply andb_true_iff in E as [E1 E2]. apply N.leb_le in E1, E2.
  apply andb_false_iff. right. apply N.leb_gt. lia.
Qed.

(** X19. The host name is lower-cased before it is looked up in the
    allow-list, but the entries of the list are taken as written: an entry
    with an upper-case ASCII letter matches no ASCII host name, so a
    non-empty list of such entries denies every host. *)
Theorem allowlist_entries_are_taken_as_written `{Host} (host : jsstring)
    (c : Config) (allowed : list jsstring) :
  allowedDomains c = Some allowed ->
  allowed <> [] ->
  Forall (Exists (fun ch => is_upper ch = true)) allowed ->
  Forall is_ascii host ->
  host <> [] ->
  isAllowedDomain (toLowerCase host) c = false.
Proof.
  intros Hc Hne Hup Hascii Hhost.
  rewrite (toLowerCase_ascii host Hascii).
  apply (isAllowedDomain_denied _ c allowed Hc Hne).
  - by destruct host.
  - intros Hin. apply (proj1 (Forall_forall _ _) Hup) in Hin.
    apply Exists_exists in Hin as (ch & Hch & Hu).
    apply list_elem_of_fmap in Hch as (ch' & -> & _).
    by rewrite ascii_lower_not_upper in Hu.
Qed.

(** X19, at the wiki's host name with the allow-list entry written with
    capitals. *)
Lemma allowlist_entries_are_taken_as_written_witness :
  allowedDomains
    (assign DEFAULT_CONFIG
       (with_allowedDomains (Some [str "SCP-Wiki.wikidot.com"]) NO_OPTIONS))
  = Some [str "SCP-Wiki.wikidot.com"]
  /\ isAllowedDomain
       (toLowerCase (Host := simple_host) (str "SCP-Wiki.wikidot.com"))
       (assign DEFAULT_CONFIG
          (with_allowedDomains (Some [str "SCP-Wiki.wikidot.com"]) NO_OPTIONS))
     = false.
Proof.
  split; [reflexivity|].
  apply (allowlist_entries_are_taken_as_written (H := simple_host)
           (str "SCP-Wiki.wikidot.com") _ [str "SCP-Wiki.wikidot.com"]).
  - reflexivity.
  - discriminate.
  - constructor; [|constructor]. apply Exists_cons_hd. reflexivity.
  - apply Forall_forall. intros ch Hch. unfold is_ascii.
    apply list_elem_of_In in Hch. vm_compute in Hch.
    repeat (destruct Hch as [<-|Hch]; [done|]). done.
  - discriminate.
Defined.

(** ** Emissions and configuration *)

(** The effects that an event adds: subscribers are called for the event
    update only. *)
Lemma step_effects_events `{Host} ev w :
  exists eff,
    effects (snd (step ev w)) = effects w ++ eff
    /\ Forall (fun x => match x with
                        | EffCallback e _ _ _ => e = str "update"
                        | _ => True
                        end) eff.
Proof.
  assert (Hweak : forall eff,
    Forall (fun x => match x with
                     | EffCallback e _ _ _ => e = str "update"
                     | EffHandleError _ a => a = str "compute"
                     | _ => False
                     end) eff ->
    Forall (fun x => match x with
                     | EffCallback e _ _ _ => e = str "update"
                     | _ => True
                     end) eff).
  { intros eff Hf. eapply Forall_impl; [exact Hf|]. by intros []. }
  destruct ev.
  - rewrite step_microtask. exists []. simpl.
    destruct (microtask w); by rewrite app_nil_r.
  - rewrite step_mutation. exists []. simpl.
    destruct (connected w); by rewrite app_nil_r.
  - rewrite step_timer. destruct (timer w); [|exists []; by rewrite app_nil_r].
    destruct (compute_cases env (set_timer false w))
      as (st & h & eff & r & -> & _ & _ & Hf).
    exists eff. split; [done|]. by apply Hweak.
  - rewrite step_refresh.
    destruct (compute_cases env w) as (st & h & eff & r & -> & _ & _ & Hf).
    exists eff. split; [done|]. by apply Hweak.
  - rewrite step_configure.
    destruct (compute_cases env (set_cfg (assign (cfg w) nextCfg) w))
      as (st & h & eff & r & -> & _ & _ & Hf).
    exists eff. split; [done|]. by apply Hweak.
  - cbn [step]. rewrite dispose_run. simpl.
    destruct (observer w); simpl; [exists [EffDisconnect]; by repeat constructor|].
    exists []. by rewrite app_nil_r.
  - cbn [step]. unfold on, Emitter_on. run_m. exists []. by rewrite app_nil_r.
  - cbn [step]. unfold off, Emitter_off. run_m. exists [].
    destruct (listeners w !! event); by rewrite app_nil_r.
  - destruct (step_accessor GetPageClassification w I) as [x ->].
    exists []. by rewrite app_nil_r.
  - destruct (step_accessor GetEntities w I) as [x ->].
    exists []. by rewrite app_nil_r.
  - destruct (step_accessor GetResults w I) as [x ->].
    exists []. by rewrite app_nil_r.
Qed.

(** X20. A detector emits one event only: over its whole life every call
    of a subscriber is for update, so a function subscribed under any
    other name is never called. *)
Theorem only_update_is_emitted `{Host} (options : Options) (env : Env)
    (evs : list Event) :
  Forall (fun x => match x with
                   | EffCallback e _ _ _ => e = str "update"
                   | _ => True
                   end)
    (effects (run evs (createDetector options env))).
Proof.
  unfold run.
  assert (H0 : Forall (fun x => match x with
                                | EffCallback e _ _ _ => e = str "update"
                                | _ => True
                                end) (effects (createDetector options env))).
  { destruct (createDetector_fields options env)
      as (_ & _ & _ & _ & _ & _ & _ & _ & _ & _ & _ & ->).
    case_match; by repeat constructor. }
  revert H0. generalize (createDetector options env). clear.
  induction evs as [|ev evs IH]; intros w Hw; simpl; [done|].
  apply IH. destruct (step_effects_events ev w) as (eff & -> & Hf).
  by apply Forall_app.
Qed.

Lemma assign_nothing (c : Config) : assign c NO_OPTIONS = c.
Proof. by destruct c as [? ? ? ? ? ? ? ? ? ? []]. Qed.

Lemma set_cfg_id (w : World) : set_cfg (cfg w) w = w.
Proof. by destruct w. Qed.

(** X21. [configure] is an assignment followed by a refresh: without keys
    it is [refresh], and the keys of successive calls accumulate, a later
    call overriding an earlier one key by key, whether or not the cycles
    succeed and also on a disposed detector. *)
Theorem configure_is_assign_then_refresh `{Host} (o1 o2 : Options)
    (env env' : Env) (w : World) :
  step (Configure NO_OPTIONS env) w = step (Refresh env) w
  /\ cfg (run [Configure o1 env; Configure o2 env'] w)
     = assign (assign (cfg w) o1) o2.
Proof.
  split.
  - by rewrite step_configure, step_refresh, assign_nothing, set_cfg_id.
  - unfold run. cbn [foldl]. rewrite !step_configure.
    destruct (compute_cases env (set_cfg (assign (cfg w) o1) w))
      as (st & h & eff & r & -> & _). cbn [snd].
    match goal with
    | |- cfg (snd (compute env' ?w1)) = _ =>
      by destruct (compute_cases env' w1) as (st' & h' & eff' & r' & -> & _)
    end.
Qed.

(** X22. The configuration that [configure] is given is the one that the
    cycle of the same call uses: an allow-list that does not hold the
    current host clears the entities at once, whatever the state held. *)
Theorem configure_applies_the_allowlist `{Host} (o : Options) (env : Env)
    (w : World) (d : Document) (allowed : list jsstring) :
  wf w -> disposed w = false ->
  env_document env = Some d ->
  o_allowedDomains o = Some (Some allowed) ->
  allowed <> [] ->
  toLowerCase (or_else (hostname (current_url env)) []) <> [] ->
  toLowerCase (or_else (hostname (current_url env)) []) ∉ allowed ->
  read_state (snd (step (Configure o env) w))
  = Some {| r_page := classifyPage (Some (current_url env)) (d_title d);
            r_entities := [];
            r_lastUpdatedAt := env_now env |}.
Proof.
  intros Hwf Hd Hdoc Ho Hne Hhost Hnotin.
  rewrite step_configure.
  rewrite compute_state; [|exact Hwf|exact Hd].
  rewrite Hdoc. cbv zeta.
  rewrite (isAllowedDomain_denied _ _ allowed); try done.
  cbn [cfg set_cfg]. unfold assign. cbn [allowedDomains]. by rewrite Ho.
Qed.

(** X22, at the example page after a successful cycle: the detector holds
    three entities, and a [configure] with an allow-list for another host
    leaves none. *)
Lemma configure_applies_the_allowlist_witness :
  (r_entities <$> read_state
     (run (H := simple_host) [Refresh wiki_env] (createDetector manual wiki_env)))
  <> Some []
  /\ (r_entities <$> read_state
        (run (H := simple_host)
           [Refresh wiki_env;
            Configure (with_allowedDomains (Some [str "example.com"]) NO_OPTIONS)
              wiki_env]
           (createDetector manual wiki_env)))
     = Some [].
Proof.
  split; [vm_compute; discriminate|].
  unfold run. cbn [foldl].
  rewrite (configure_applies_the_allowlist (H := simple_host)
             (with_allowedDomains (Some [str "example.com"]) NO_OPTIONS)
             wiki_env _ wiki_page [str "example.com"]).
  - reflexivity.
  - unfold wf. vm_compute. by eexists.
  - vm_compute. reflexivity.
  - reflexivity.
  - reflexivity.
  - discriminate.
  - vm_compute. discriminate.
  - intros Hin. apply list_elem_of_singleton in Hin. vm_compute in Hin. discriminate.
Defined.

(** ** A logger that throws on a denied host *)

(** X23. On a host that is not allowed the state is cleared before the
    logger is called: when that [debug] call throws, the state already
    reads as cleared, the exception goes to the error handler with the
    action compute, and no subscriber is told of the change. *)
Theorem denied_host_logs_after_clearing `{Host} (env : Env) (w : World)
    (d : Document) (e : exn) :
  disposed w = false ->
  env_document env = Some d ->
  isAllowedDomain (toLowerCase (or_else (hostname (current_url env)) [])) (cfg w)
    = false ->
  lg_debug (logger w) (str "domain:not-allowed") = Some e ->
  let w' := snd (compute env w) in
  read_state w'
    = Some {| r_page := classifyPage (Some (current_url env)) (d_title d);
              r_entities := [];
              r_lastUpdatedAt := env_now env |}
  /\ effects w' = effects w ++ [EffHandleError e (str "compute")]
  /\ fst (compute env w)
     = match handleError (errorHandler w) e (str "compute") with
       | None => Ok tt
       | Some e' => Throw e'
       end.
Proof.
  intros Hd Hdoc Hdeny Hlog w'. subst w'.
  rewrite (compute_live env w Hd), (compute_body_denied env w d Hdoc Hdeny).
  rewrite clear_results_run. cbv zeta. rewrite Hlog, report_run.
  cbn [fst snd effects set_effects set_heap set_state errorHandler].
  split; [|done].
  apply (read_cleared (heap w) _ [] (env_now env) w).
Qed.

(** X23, at the example content on example.com with an allow-list for the
    wiki, a logger that throws exception 7 and one subscriber. *)
Lemma denied_host_logs_after_clearing_witness :
  effects
    (run (H := simple_host) [On (str "update") (quiet_callback 1); Refresh other_env]
       (createDetector
          (with_logger (failing_logger 7%nat)
             (with_allowedDomains (Some [str "scp-wiki.wikidot.com"]) manual))
          other_env))
  = [EffHandleError 7%nat (str "compute")].
Proof.
  unfold run. cbn [foldl]. rewrite step_refresh.
  destruct (denied_host_logs_after_clearing (H := simple_host) other_env
              (snd (step (H := simple_host) (On (str "update") (quiet_callback 1))
                      (createDetector
                         (with_logger (failing_logger 7%nat)
                            (with_allowedDomains (Some [str "scp-wiki.wikidot.com"])
                               manual))
                         other_env)))
              other_page 7%nat) as (_ & He & _);
    [reflexivity|reflexivity|vm_compute; reflexivity|reflexivity|].
  rewrite He. reflexivity.
Defined.

(** ** Numbers *)

Lemma numbers_normalize_true `{Host} : numbers_normalize = true.
Proof. vm_compute. reflexivity. Qed.

Lemma is_digit_in (c : char) : is_digit c = true -> c ∈ DIGITS.
Proof.
  unfold is_digit, in_range. intros Hc.
  apply andb_true_iff in Hc as [H1 H2]. apply N.leb_le in H1, H2.
  assert (Hcases : c = 48 \/ c = 49 \/ c = 50 \/ c = 51 \/ c = 52 \/ c = 53
                   \/ c = 54 \/ c = 55 \/ c = 56 \/ c = 57) by lia.
  unfold DIGITS.
  repeat (destruct Hcases as [->|Hcases];
          [repeat first [apply list_elem_of_here | apply list_elem_of_further]|]).
  subst c. repeat first [apply list_elem_of_here | apply list_elem_of_further].
Qed.

Lemma digit_strings_complete (ds : jsstring) :
  Forall (fun c => is_digit c = true) ds -> ds ∈ digit_strings (length ds).
Proof.
  induction 1 as [|c ds Hc _ IH]; cbn [length digit_strings].
  - apply list_elem_of_here.
  - apply list_elem_of_bind. exists c. split; [|by apply is_digit_in].
    by apply list_elem_of_fmap_2.
Qed.

Lemma numbers_normalize_each `{Host} (p sep ds : jsstring) :
  numbers_normalize = true ->
  In p PREFIXES -> In sep SEPARATORS -> In ds NUMBERS ->
  normalizes_to (p ++ sep ++ ds) (str "scp-" ++ strip_zeros ds) = true.
Proof.
  unfold numbers_normalize. intros Hall Hp Hsep Hds.
  rewrite forallb_forall in Hall. specialize (Hall p Hp).
  rewrite forallb_forall in Hall. specialize (Hall sep Hsep).
  rewrite forallb_forall in Hall. exact (Hall ds Hds).
Qed.

Lemma numbers_complete (ds : jsstring) :
  Forall (fun c => is_digit c = true) ds ->
  (1 <= length ds <= 4)%nat ->
  In ds NUMBERS.
Proof.
  intros Hds Hlen. apply list_elem_of_In.
  pose proof (digit_strings_complete ds Hds) as Hc.
  unfold NUMBERS. rewrite !elem_of_app.
  destruct (length ds) as [|[|[|[|[|n]]]]]; [lia|auto|auto|auto|auto|lia].
Qed.

(** X24. Numbers: for every number of one to four digits, written after
    SCP or scp with a hyphen, an en dash, a space or nothing in between,
    the normalizer returns the kind scp and the id scp- followed by the
    number without its leading zeros (0 for a number of zeros only). *)
Theorem normalize_number `{Host} (p sep ds : jsstring) :
  p ∈ PREFIXES -> sep ∈ SEPARATORS ->
  Forall (fun c => is_digit c = true) ds ->
  (1 <= length ds <= 4)%nat ->
  normalizeIdentifier (p ++ sep ++ ds)
  = Some {| n_id := str "scp-" ++ strip_zeros ds; n_kind := scp |}.
Proof.
  intros Hp Hsep Hds Hlen.
  pose proof (numbers_normalize_each p sep ds numbers_normalize_true
                (proj1 (list_elem_of_In _ _) Hp)
                (proj1 (list_elem_of_In _ _) Hsep)
                (numbers_complete ds Hds Hlen)) as Hall.
  unfold normalizes_to in Hall.
  destruct (normalizeIdentifier (p ++ sep ++ ds)) as [[id k]|]; [|discriminate].
  cbn [n_id n_kind] in Hall. apply andb_true_iff in Hall as [Hid Hk].
  apply bool_decide_eq_true in Hid. subst id. by destruct k.
Qed.

(** X24, at "scp 0049". *)
Lemma normalize_number_witness :
  Forall (fun c => is_digit c = true) (str "0049")
  /\ normalizeIdentifier (H := simple_host) (str "scp" ++ str " " ++ str "0049")
     = Some {| n_id := str "scp-49"; n_kind := scp |}.
Proof.
  split; [by repeat constructor|].
  etrans; [apply (normalize_number (H := simple_host) (str "scp") (str " ")
                    (str "0049"))|reflexivity].
  - apply list_elem_of_further, list_elem_of_here.
  - do 2 apply list_elem_of_further. apply list_elem_of_here.
  - by repeat constructor.
  - vm_compute. lia.
Defined.

(** ** The keys that a cycle reads *)

(** X25. A cycle reads four keys of the configuration: allowedDomains,
    allowAllDomains, includeSelectors and maxNodes.  A [configure] that
    gives none of them, whatever it gives for excludeSelectors, domainMap,
    strict, scanIframes, debounceMs, observe, autostart, logger and
    errorHandler, leaves the same state as a plain [refresh]. *)
Theorem configure_of_unread_keys_is_refresh `{Host} (o : Options) (env : Env)
    (w : World) :
  wf w ->
  o_allowedDomains o = None -> o_allowAllDomains o = None ->
  o_includeSelectors o = None -> o_maxNodes o = None ->
  read_state (snd (step (Configure o env) w))
  = read_state (snd (step (Refresh env) w)).
Proof.
  intros Hwf Ha Hall Hi Hm.
  rewrite step_configure, step_refresh.
  set (w1 := set_cfg (assign (cfg w) o) w).
  assert (Hwf1 : wf w1) by exact Hwf.
  destruct (disposed w) eqn:Hd.
  { by rewrite (compute_disposed env w Hd), (compute_disposed env w1 Hd). }
  rewrite (compute_state env w Hwf Hd), (compute_state env w1 Hwf1 Hd).
  assert (Hallow : forall host,
    isAllowedDomain host (cfg w1) = isAllowedDomain host (cfg w)).
  { intros host. unfold isAllowedDomain, w1, assign.
    cbn [cfg set_cfg allowedDomains allowAllDomains]. by rewrite Ha, Hall. }
  assert (Hinc : includeSelectors (cfg w1) = includeSelectors (cfg w)).
  { unfold w1, assign. cbn [cfg set_cfg includeSelectors]. by rewrite Hi. }
  assert (Hmax : maxNodes (cfg w1) = maxNodes (cfg w)).
  { unfold w1, assign. cbn [cfg set_cfg maxNodes]. by rewrite Hm. }
  destruct (env_document env) as [d|]; [|reflexivity].
  cbv zeta. rewrite Hallow, Hinc, Hmax. reflexivity.
Qed.

(** X25, at the example page: a [configure] that excludes paragraphs and
    anchors and turns strict on shows the three entities that a refresh
    shows. *)
Lemma configure_of_unread_keys_is_refresh_witness :
  (length <$> (r_entities <$> read_state
     (snd (step (H := simple_host)
             (Configure
                {| o_observe := Some true; o_debounceMs := Some 0%Z;
                   o_includeSelectors := None;
                   o_excludeSelectors := Some (str "p,a");
                   o_domainMap := Some custom_map; o_allowedDomains := None;
                   o_strict := Some true; o_maxNodes := None;
                   o_scanIframes := Some true; o_allowAllDomains := None;
                   o_autostart := Some true; o_logger := None;
                   o_errorHandler := None |}
                wiki_env)
             (createDetector manual wiki_env)))))
  = Some 3%nat.
Proof.
  rewrite (configure_of_unread_keys_is_refresh (H := simple_host) _ wiki_env
             (createDetector manual wiki_env));
    [|unfold wf; vm_compute; by eexists|reflexivity..].
  vm_compute. reflexivity.
Defined.
